(** * The vtgate V3 router (go/vt/vtgate/router.go)

    A shallow embedding of the router that sends a planned SQL statement
    to the shards that must run it, and keeps the owned vindexes in step
    with the base table on insert and delete.

    The router talks to collaborators that live in other packages: the
    topology server, the vindexes of the schema, the scatter connection
    and the planner.  They are the fields of class [Collaborators] and
    the methods a [Vindex] carries; each of them is a function of an
    abstract world [W] and returns the world after the call.  Every call
    the router makes to one of them is recorded, in order, in the log of
    the statement, which is what the ordering and "nothing was
    dispatched" properties are stated on.

    Left out: the context [ctx] and the session, which the router hands
    on untouched, and the [VCursor] a vindex method receives, whose
    effects are part of what the method does to the world. A pointer of
    a plan ([plan.Table], [plan.ColVindex], [Table.Keyspace]) is taken to
    be set. *)

From Stdlib Require Import ZArith String Ascii List.
From Stdlib.Strings Require Import Byte.
From stdpp Require Import base option list strings gmap.

Local Open Scope string_scope.
Local Open Scope Z_scope.
Local Open Scope list_scope.

(** ** Values

    A Go [interface{}] as the router meets it: the nil interface, an
    [int64], a [string], a [[]byte] and a [[]interface{}]. The other
    scalar types a bind variable can hold (unsigned and floating-point
    numbers) go the way of [int64] through every switch of the router
    and are not told apart. *)

#[warnings="-register-all"] Inductive value : Type :=
| VNil
| VInt (n : Z)
| VStr (s : string)
| VBytes (b : list byte)
| VList (l : list value).

Fixpoint value_eq_dec (x y : value) {struct x} : {x = y} + {x <> y}.
Proof.
  decide equality.
  - apply Z.eq_dec.
  - apply string_dec.
  - apply (List.list_eq_dec Byte.byte_eq_dec).
  - apply (List.list_eq_dec value_eq_dec).
Defined.

#[global] Instance value_eq_decision : EqDecision value := value_eq_dec.

(** [key.KeyspaceId] is a Go string type. *)
Definition KeyspaceId : Type := string.

(** Modelled from the spec: the constant [key.MinKey] of package [key],
    "a distinguished value MinKey (empty)". *)
Definition MinKey : KeyspaceId := "".

Record KeyRange : Type := mkKeyRange { Start : KeyspaceId; End : KeyspaceId }.

Definition error : Type := string.

(** What a Go call does: it returns a value, returns an error, or
    panics. *)
Inductive outcome (A : Type) : Type :=
| Ok (a : A)
| Err (e : error)
| Panic (msg : string).
Arguments Ok {A} a.
Arguments Err {A} e.
Arguments Panic {A} msg.

Definition ksidName : string := "keyspace_id".

(** ** resolveKeys

    The receiver is not used, so this is a function of the list and of
    the bind variables alone. [val[1:]] panics on the empty string. *)

Fixpoint resolveKeys_loop (vals : list value) (bindVars : gmap string value)
    (keys : list value) : outcome (list value) :=
  match vals with
  | [] => Ok keys
  | val :: rest =>
      match val with
      | VStr val =>
          match val with
          | EmptyString => Panic "runtime error: slice bounds out of range"
          | String _ name =>
              match bindVars !! name with
              | None => Err ("could not find bind var " +:+ val)
              | Some v => resolveKeys_loop rest bindVars (keys ++ [v])
              end
          end
      | VBytes val =>
          resolveKeys_loop rest bindVars (keys ++ [VStr (string_of_list_byte val)])
      | _ => resolveKeys_loop rest bindVars (keys ++ [val])
      end
  end.

Definition resolveKeys (vals : list value) (bindVars : gmap string value)
  : outcome (list value) :=
  resolveKeys_loop vals bindVars [].

(** ** Plans, results and the calls the router makes *)

Inductive PlanID : Type :=
| NoPlan
| SelectUnsharded
| SelectEqual
| SelectIN
| SelectKeyrange
| SelectScatter
| UpdateUnsharded
| UpdateEqual
| DeleteUnsharded
| DeleteEqual
| InsertUnsharded
| InsertSharded.

#[global] Instance PlanID_eq_decision : EqDecision PlanID.
Proof. solve_decision. Defined.

Record Field : Type := mkField { Field_Name : string; Field_Type : Z }.

Record Keyspace : Type := mkKeyspace { Keyspace_Name : string; Keyspace_Sharded : bool }.

(** [proto.Query] without its session, which the router only wraps and
    hands on; a nil bind-variable map is [None]. *)
Record Query : Type := mkQuery {
  Query_Sql : string;
  Query_BindVariables : option (gmap string value);
  Query_TabletType : string
}.

(** Modelled from the spec: the type [routingMap] of package vtgate and
    its methods [Add] and [Shards], which are not in router.go: a
    "mapping from shard name to the list of input keys routed there".
    The nil map reads as the empty one. *)
Abbreviation routingMap := (gmap string (list value)).

Definition routingMap_Add (rtm : routingMap) (shard : string) (id : value) : routingMap :=
  <[shard := default [] (rtm !! shard) ++ [id]]> rtm.

Definition routingMap_Shards (rtm : routingMap) : list string :=
  (map_to_list rtm).*1.

(** The types the router does not define: the world outside it
    (topology, vindex tables, shards), [sqltypes.Value], a cell of a
    result row, and [topo.SrvShard]. *)
Class World : Type := {
  W : Type;
  SqlValue : Type;
  SrvShard : Type
}.

Section Types.

Context {wt : World}.

Record QueryResult : Type := mkQueryResult {
  Fields : list Field;
  RowsAffected : Z;
  InsertId : Z;
  Rows : list (list SqlValue)
}.

(** [&mproto.QueryResult{}] *)
Definition emptyResult : QueryResult :=
  {| Fields := []; RowsAffected := 0; InsertId := 0; Rows := [] |}.

(** The log of a statement: one entry per call to a collaborator, with
    the arguments of the call. The entry of a call to the scatter
    connection, to a generator, to Map and to Delete also keeps the
    reply: the result the backend sent, the value that was generated,
    the keyspace ids the vindex answered with, and whether the Delete
    went through. [EvMap] is the Map of a Unique vindex, [EvMapNonUnique]
    that of a NonUnique one. The [col] of a vindex call is the column of
    the ColVindex the vindex was taken from. *)
Inductive event : Type :=
| EvGetKeyspaceShards (cell keyspace tabletType : string)
| EvMapExactShards (cell keyspace tabletType : string) (kr : KeyRange)
| EvExecute (sql : string) (bindVars : gmap string value) (keyspace : string)
    (shards : list string) (tabletType : string) (reply : error + QueryResult)
| EvExecuteMulti (sql keyspace : string)
    (shardVars : gmap string (gmap string value)) (tabletType : string)
    (reply : error + QueryResult)
| EvMap (col : string) (ids : list value) (reply : error + list KeyspaceId)
| EvMapNonUnique (col : string) (ids : list value)
    (reply : error + list (list KeyspaceId))
| EvVerify (col : string) (id : value) (ksid : KeyspaceId)
| EvReverseMap (col : string) (ksid : KeyspaceId)
| EvCreate (col : string) (id : value) (ksid : option KeyspaceId)
| EvDelete (col : string) (ids : list value) (ksid : KeyspaceId) (reply : error + unit)
| EvGenerate (col : string) (ksid : option KeyspaceId) (reply : error + Z).

(** A call that sends SQL to shards. *)
Definition is_dispatch (ev : event) : bool :=
  match ev with
  | EvExecute _ _ _ _ _ _ | EvExecuteMulti _ _ _ _ _ => true
  | _ => false
  end.

Definition is_vindex_delete (ev : event) : bool :=
  match ev with
  | EvDelete _ _ _ _ => true
  | _ => false
  end.

Definition is_generate (ev : event) : bool :=
  match ev with
  | EvGenerate _ _ _ => true
  | _ => false
  end.

(** A topology lookup or a vindex Map. *)
Definition is_lookup (ev : event) : bool :=
  match ev with
  | EvGetKeyspaceShards _ _ _ | EvMap _ _ _ | EvMapNonUnique _ _ _ => true
  | _ => false
  end.

(** The value a logged generator call handed to the router; zero is how
    the router writes "nothing was generated". *)
Definition generated_value (ev : event) : option Z :=
  match ev with
  | EvGenerate _ _ (inr generated) => if decide (generated = 0) then None else Some generated
  | _ => None
  end.

Definition generated_values (evs : list event) : list Z := omap generated_value evs.

(** What the insert path remembers of a generator's value. *)
Definition gen_list (generated : Z) : list Z :=
  if decide (generated = 0) then [] else [generated].

(** A reply of a collaborator: [(T, error)] as a sum, and the world
    after the call. *)
Definition reply (A : Type) : Type := W -> (error + A) * W.

(** The interfaces of package planbuilder that the router switches on.
    [Unique] and [NonUnique] both declare [Map], at different types, and
    [Functional] and [Lookup] both declare [Create], so a vindex
    satisfies at most one of each pair; [FunctionalGenerator] and
    [LookupGenerator] add [Generate]; [Reversible] adds [ReverseMap]. *)
Inductive Mapper : Type :=
| Unique (Map : list value -> reply (list KeyspaceId))
| NonUnique (Map : list value -> reply (list (list KeyspaceId)))
| NoMapper.

Inductive Writer : Type :=
| Functional (Create : value -> reply unit)
    (Delete : list value -> KeyspaceId -> reply unit)
    (Generate : option (reply Z))
| Lookup (Create : value -> KeyspaceId -> reply unit)
    (Delete : list value -> KeyspaceId -> reply unit)
    (Generate : option (KeyspaceId -> reply Z))
| NoWriter.

Record Vindex : Type := mkVindex {
  Verify : value -> KeyspaceId -> reply bool;
  Vindex_Mapper : Mapper;
  Vindex_Writer : Writer;
  Vindex_Reversible : option (KeyspaceId -> reply value)
}.

Record ColVindex : Type := mkColVindex {
  Col : string;
  ColVindex_Vindex : Vindex;
  ColVindex_Owned : bool
}.

Record Table : Type := mkTable {
  Table_Keyspace : Keyspace;
  Table_ColVindexes : list ColVindex;
  Table_Owned : list ColVindex
}.

Record Plan : Type := mkPlan {
  Plan_ID : PlanID;
  Plan_Table : Table;
  Plan_ColVindex : ColVindex;
  Plan_Values : value;
  Plan_Rewritten : string;
  Plan_Subquery : string
}.

(** *** The state of one statement

    [bindVars] is [vcursor.query.BindVariables], the map the router
    writes into and hands to the scatter connection. *)
Record state : Type := mkState {
  bindVars : gmap string value;
  world : W;
  log : list event
}.

Definition M (A : Type) : Type := state -> outcome A * state.

Definition ret {A} (a : A) : M A := fun s => (Ok a, s).

Definition bind {A B} (m : M A) (k : A -> M B) : M B :=
  fun s =>
    match m s with
    | (Ok a, s') => k a s'
    | (Err e, s') => (Err e, s')
    | (Panic msg, s') => (Panic msg, s')
    end.

Definition fail {A} (e : error) : M A := fun s => (Err e, s).
Definition panic {A} (msg : string) : M A := fun s => (Panic msg, s).
Definition lift {A} (o : outcome A) : M A := fun s => (o, s).

(** [if err != nil { return ..., err }] *)
Definition check {A} (r : error + A) : M A :=
  match r with
  | inl e => fail e
  | inr a => ret a
  end.

(** The state after a call that was answered [r] and left the world [w]. *)
Definition after_call {A} (mk : error + A -> event) (r : error + A) (w : W)
    (s : state) : state :=
  {| bindVars := bindVars s; world := w; log := log s ++ [mk r] |}.

(** A call to a collaborator, entered in the log. *)
Definition call {A} (mk : error + A -> event) (f : reply A) : M A :=
  fun s =>
    let '(r, w) := f (world s) in
    check r (after_call mk r w s).

Definition getBindVars : M (gmap string value) := fun s => (Ok (bindVars s), s).

(** [bv[name] = v] *)
Definition setBindVar (name : string) (v : value) : M unit :=
  fun s =>
    (Ok tt, {| bindVars := <[name := v]> (bindVars s); world := world s; log := log s |}).

(** [l[i]] *)
Definition index {A} (l : list A) (i : nat) : M A :=
  match l !! i with
  | Some a => ret a
  | None => panic "runtime error: index out of range"
  end.

(** A call [x, y, err := f()] whose [err] is not read afterwards: the
    caller goes on with the values returned beside the error, [zero]. *)
Definition discard_err {A} (m : M A) (zero : A) : M A :=
  fun s =>
    match m s with
    | (Err _, s') => (Ok zero, s')
    | r => r
    end.

End Types.

(** An entry that sends nothing to the shards. *)
Abbreviation quiet := (fun ev => is_dispatch ev = false).

(** ** Collaborators

    What the router calls and router.go does not define. *)
Class Collaborators `{World} : Type := {
  (** [rtr.cell] *)
  cell : string;
  (** [rtr.planner.GetPlan] *)
  GetPlan : string -> Plan;
  (** [planbuilder.ListVarName] *)
  ListVarName : string;
  ShardName : SrvShard -> string;
  getKeyspaceShards : string -> string -> string -> reply (string * list SrvShard);
  getShardForKeyspaceId : list SrvShard -> KeyspaceId -> error + string;
  mapExactShards : string -> string -> string -> KeyRange -> reply (string * list string);
  scatterConn_Execute :
    string -> gmap string value -> string -> list string -> string -> reply QueryResult;
  scatterConn_ExecuteMulti :
    string -> string -> gmap string (gmap string value) -> string -> reply QueryResult;
  (** [mproto.Convert] *)
  Convert : Z -> SqlValue -> error + value;
  (** The text [fmt] prints for the verbs "%v" and "%+v": of an
      interface value, of a keyspace id, of a shard list, of a plan. *)
  fmt_value : value -> string;
  fmt_ksid : KeyspaceId -> string;
  fmt_shards : list SrvShard -> string;
  fmt_plan : Plan -> string;
  (** The order in which [range] walks a Go map is not specified: any
      arrangement of the keys can come out. *)
  rangeOrder : list value -> list value
}.

(** ** The router *)

Section Router.

Context `{Collaborators}.

(** [fmt.Sprintf(dmlPostfix, ksid)] *)
Definition dmlPostfix (ksid : KeyspaceId) : string :=
  " /* _routing keyspace_id:" +:+ fmt_ksid ksid +:+ " */".

Notation "x <- m ;; k" := (bind m (fun x => k))
  (at level 100, m at next level, right associativity).
Notation "'let*' pat := m 'in' k" := (bind m (fun x => match x with pat => k end))
  (at level 10, pat pattern, m at level 100, k at level 200).

(** *** Calls to the topology server and to the scatter connection *)

Definition call_getKeyspaceShards (keyspace tabletType : string)
  : M (string * list SrvShard) :=
  call (fun _ => EvGetKeyspaceShards cell keyspace tabletType)
       (getKeyspaceShards cell keyspace tabletType).

Definition call_mapExactShards (keyspace tabletType : string) (kr : KeyRange)
  : M (string * list string) :=
  call (fun _ => EvMapExactShards cell keyspace tabletType kr)
       (mapExactShards cell keyspace tabletType kr).

(** [rtr.scatterConn.Execute(ctx, sql, vcursor.query.BindVariables, ks,
    shards, tabletType, session)] *)
Definition call_Execute (sql ks : string) (shards : list string) (tabletType : string)
  : M QueryResult :=
  bv <- getBindVars ;;
  call (EvExecute sql bv ks shards tabletType)
       (scatterConn_Execute sql bv ks shards tabletType).

Definition call_ExecuteMulti (sql ks : string)
    (shardVars : gmap string (gmap string value)) (tabletType : string)
  : M QueryResult :=
  call (EvExecuteMulti sql ks shardVars tabletType)
       (scatterConn_ExecuteMulti sql ks shardVars tabletType).

Definition plan_keyspace (plan : Plan) : string :=
  Keyspace_Name (Table_Keyspace (Plan_Table plan)).

(** [plan.Values.([]interface{})] *)
Definition values_list (plan : Plan) : M (list value) :=
  match Plan_Values plan with
  | VList l => ret l
  | _ => panic "interface conversion: interface {} is not []interface {}"
  end.

(** *** execUnsharded *)

Definition execUnsharded (query : Query) (plan : Plan) : M QueryResult :=
  let* (ks, allShards) := call_getKeyspaceShards (plan_keyspace plan) (Query_TabletType query) in
  match allShards with
  | [shard] =>
      call_Execute (Query_Sql query) ks [ShardName shard] (Query_TabletType query)
  | _ =>
      fail ("unsharded keyspace " +:+ ks +:+ " has multiple shards: " +:+ fmt_shards allShards)
  end.

(** *** resolveShards *)

Fixpoint resolveShards_unique (allShards : list SrvShard) (vindexKeys : list value)
    (ksids : list KeyspaceId) (i : nat) (routing : routingMap) : outcome routingMap :=
  match ksids with
  | [] => Ok routing
  | ksid :: rest =>
      if decide (ksid = MinKey) then
        resolveShards_unique allShards vindexKeys rest (S i) routing
      else
        match getShardForKeyspaceId allShards ksid with
        | inl err => Err err
        | inr shard =>
            match vindexKeys !! i with
            | None => Panic "runtime error: index out of range"
            | Some k =>
                resolveShards_unique allShards vindexKeys rest (S i)
                  (routingMap_Add routing shard k)
            end
        end
  end.

Fixpoint resolveShards_ksids (allShards : list SrvShard) (vindexKeys : list value)
    (ksids : list KeyspaceId) (i : nat) (routing : routingMap) : outcome routingMap :=
  match ksids with
  | [] => Ok routing
  | ksid :: rest =>
      if decide (ksid = MinKey) then
        resolveShards_ksids allShards vindexKeys rest i routing
      else
        match getShardForKeyspaceId allShards ksid with
        | inl err => Err err
        | inr shard =>
            match vindexKeys !! i with
            | None => Panic "runtime error: index out of range"
            | Some k =>
                resolveShards_ksids allShards vindexKeys rest i
                  (routingMap_Add routing shard k)
            end
        end
  end.

Fixpoint resolveShards_nonunique (allShards : list SrvShard) (vindexKeys : list value)
    (ksidss : list (list KeyspaceId)) (i : nat) (routing : routingMap)
  : outcome routingMap :=
  match ksidss with
  | [] => Ok routing
  | ksids :: rest =>
      match resolveShards_ksids allShards vindexKeys ksids i routing with
      | Ok routing' => resolveShards_nonunique allShards vindexKeys rest (S i) routing'
      | other => other
      end
  end.

Definition resolveShards (query : Query) (vindexKeys : list value) (plan : Plan)
  : M (string * routingMap) :=
  let* (newKeyspace, allShards) := call_getKeyspaceShards (plan_keyspace plan) (Query_TabletType query) in
  match Vindex_Mapper (ColVindex_Vindex (Plan_ColVindex plan)) with
  | Unique Map =>
      ksids <- call (EvMap (Col (Plan_ColVindex plan)) vindexKeys) (Map vindexKeys) ;;
      routing <- lift (resolveShards_unique allShards vindexKeys ksids 0 ∅) ;;
      ret (newKeyspace, routing)
  | NonUnique Map =>
      ksidss <- call (EvMapNonUnique (Col (Plan_ColVindex plan)) vindexKeys)
                     (Map vindexKeys) ;;
      routing <- lift (resolveShards_nonunique allShards vindexKeys ksidss 0 ∅) ;;
      ret (newKeyspace, routing)
  | NoMapper => panic "unexpected"
  end.

(** *** resolveSingleShard *)

Definition resolveSingleShard (query : Query) (vindexKey : value) (plan : Plan)
  : M (string * string * KeyspaceId) :=
  let* (newKeyspace, allShards) := call_getKeyspaceShards (plan_keyspace plan) (Query_TabletType query) in
  match Vindex_Mapper (ColVindex_Vindex (Plan_ColVindex plan)) with
  | Unique Map =>
      ksids <- call (EvMap (Col (Plan_ColVindex plan)) [vindexKey]) (Map [vindexKey]) ;;
      match ksids with
      | [ksid] =>
          if decide (ksid = MinKey) then ret ("", "", ksid)
          else
            shard <- check (getShardForKeyspaceId allShards ksid) ;;
            ret (newKeyspace, shard, ksid)
      | _ => panic "unexpected"
      end
  | _ => panic "unexpected"
  end.

(** *** The select arms *)

Definition execSelectEqual (query : Query) (plan : Plan) : M QueryResult :=
  bv <- getBindVars ;;
  keys <- lift (resolveKeys [Plan_Values plan] bv) ;;
  let* (ks, routing) := discard_err (resolveShards query keys plan) ("", ∅) in
  call_Execute (Plan_Rewritten plan) ks (routingMap_Shards routing) (Query_TabletType query).

Definition execSelectIN (query : Query) (plan : Plan) : M QueryResult :=
  vals <- values_list plan ;;
  bv <- getBindVars ;;
  keys <- lift (resolveKeys vals bv) ;;
  let* (ks, routing) := discard_err (resolveShards query keys plan) ("", ∅) in
  let shardVars := (fun vals => <[ListVarName := VList vals]> bv) <$> routing in
  call_ExecuteMulti (Plan_Rewritten plan) ks shardVars (Query_TabletType query).

Fixpoint getKeyRange_loop (keys todo : list value) (ksids : list KeyspaceId)
  : outcome (list KeyspaceId) :=
  match todo with
  | [] => Ok ksids
  | VStr k :: rest => getKeyRange_loop keys rest (ksids ++ [k])
  | _ :: _ => Err ("expecting strings for keyrange: " +:+ fmt_value (VList keys))
  end.

Definition getKeyRange (keys : list value) : outcome KeyRange :=
  match getKeyRange_loop keys keys [] with
  | Ok ksids =>
      match ksids !! 0%nat, ksids !! 1%nat with
      | Some ksid0, Some ksid1 => Ok {| Start := ksid0; End := ksid1 |}
      | _, _ => Panic "runtime error: index out of range"
      end
  | Err e => Err e
  | Panic msg => Panic msg
  end.

Definition execSelectKeyrange (query : Query) (plan : Plan) : M QueryResult :=
  vals <- values_list plan ;;
  bv <- getBindVars ;;
  keys <- lift (resolveKeys vals bv) ;;
  kr <- lift (getKeyRange keys) ;;
  let* (ks, shards) := call_mapExactShards (plan_keyspace plan) (Query_TabletType query) kr in
  if decide (length shards = 1%nat) then
    call_Execute (Plan_Rewritten plan) ks shards (Query_TabletType query)
  else
    fail ("keyrange must match exactly one shard: " +:+ fmt_value (VList keys)).

Definition execSelectScatter (query : Query) (plan : Plan) : M QueryResult :=
  let* (ks, allShards) := call_getKeyspaceShards (plan_keyspace plan) (Query_TabletType query) in
  call_Execute (Plan_Rewritten plan) ks (ShardName <$> allShards) (Query_TabletType query).

(** *** The equal-predicate DML arms *)

(** [keys[0]] *)
Definition first_key (keys : list value) : M value := index keys 0.

Definition execUpdateEqual (query : Query) (plan : Plan) : M QueryResult :=
  bv <- getBindVars ;;
  keys <- lift (resolveKeys [Plan_Values plan] bv) ;;
  key0 <- first_key keys ;;
  let* (ks, shard, ksid) := resolveSingleShard query key0 plan in
  if decide (ksid = MinKey) then ret emptyResult
  else
    _ <- setBindVar ksidName (VStr ksid) ;;
    let rewritten := Plan_Rewritten plan +:+ dmlPostfix ksid in
    call_Execute rewritten ks [shard] (Query_TabletType query).

(** The key set of the Go map [keys] of deleteVindexEntries, as the list
    of its distinct keys: [keys[k] = true]. *)
Definition keys_set (keys : list value) (k : value) : list value :=
  if decide (k ∈ keys) then keys else keys ++ [k].

(** The loop over [result.Rows] for column [i]. A [[]interface{}] is
    not a legal map key. *)
Fixpoint deleteVindexEntries_rows (fields : list Field) (i : nat)
    (rows : list (list SqlValue)) (keys : list value) : outcome (list value) :=
  match rows with
  | [] => Ok keys
  | row :: rest =>
      match fields !! i with
      | None => Panic "runtime error: index out of range"
      | Some field =>
          match row !! i with
          | None => Panic "runtime error: index out of range"
          | Some cell =>
              match Convert (Field_Type field) cell with
              | inl err => Err err
              | inr (VBytes k) =>
                  deleteVindexEntries_rows fields i rest
                    (keys_set keys (VStr (string_of_list_byte k)))
              | inr (VList _) => Panic "runtime error: hash of unhashable type"
              | inr k => deleteVindexEntries_rows fields i rest (keys_set keys k)
              end
          end
      end
  end.

(** The loop over [plan.Table.Owned], from index [i] on. *)
Fixpoint deleteVindexEntries_owned (result : QueryResult) (ksid : KeyspaceId)
    (owned : list ColVindex) (i : nat) : M unit :=
  match owned with
  | [] => ret tt
  | colVindex :: rest =>
      keys <- lift (deleteVindexEntries_rows (Fields result) i (Rows result) []) ;;
      let ids := rangeOrder keys in
      _ <- match Vindex_Writer (ColVindex_Vindex colVindex) with
           | Functional _ Delete _ =>
               call (EvDelete (Col colVindex) ids ksid) (Delete ids ksid)
           | Lookup _ Delete _ =>
               call (EvDelete (Col colVindex) ids ksid) (Delete ids ksid)
           | NoWriter => panic "unexpceted"
           end ;;
      deleteVindexEntries_owned result ksid rest (S i)
  end.

Definition deleteVindexEntries (query : Query) (plan : Plan) (ks shard : string)
    (ksid : KeyspaceId) : M unit :=
  result <- call_Execute (Plan_Subquery plan) ks [shard] (Query_TabletType query) ;;
  match Rows result with
  | [] => ret tt
  | row0 :: _ =>
      if decide (length row0 = length (Table_Owned (Plan_Table plan))) then
        deleteVindexEntries_owned result ksid (Table_Owned (Plan_Table plan)) 0
      else panic "unexpected"
  end.

Definition execDeleteEqual (query : Query) (plan : Plan) : M QueryResult :=
  bv <- getBindVars ;;
  keys <- lift (resolveKeys [Plan_Values plan] bv) ;;
  key0 <- first_key keys ;;
  let* (ks, shard, ksid) := resolveSingleShard query key0 plan in
  if decide (ksid = MinKey) then ret emptyResult
  else
    _ <- (if decide (Plan_Subquery plan = "") then ret tt
          else deleteVindexEntries query plan ks shard ksid) ;;
    _ <- setBindVar ksidName (VStr ksid) ;;
    let rewritten := Plan_Rewritten plan +:+ dmlPostfix ksid in
    call_Execute rewritten ks [shard] (Query_TabletType query).

(** *** The deletion protocol as the specification words it

    "For each column i with owned ColVindex cv_i: collect the distinct
    column values across all returned rows (de-duplicated by natural
    equality; byte-strings are interned as text); call
    cv_i.Delete(values, ksid)." *)

Definition normalize_key (k : value) : value :=
  match k with
  | VBytes b => VStr (string_of_list_byte b)
  | _ => k
  end.

Definition row_key (fields : list Field) (i : nat) (row : list SqlValue) : option value :=
  match fields !! i, row !! i with
  | Some field, Some cell =>
      match Convert (Field_Type field) cell with
      | inr k => Some (normalize_key k)
      | inl _ => None
      end
  | _, _ => None
  end.

(** The values of column [i], one for every row; there are none when
    some row has no such cell or a cell that does not convert. *)
Definition column_keys (result : QueryResult) (i : nat) : option (list value) :=
  mapM (row_key (Fields result) i) (Rows result).

(** [ids] holds each value of column [i] once, and every row gave its
    value. *)
Definition deduplicated_column (result : QueryResult) (i : nat) (ids : list value) : Prop :=
  exists vals,
    column_keys result i = Some vals
    /\ NoDup ids
    /\ forall v, v ∈ ids <-> v ∈ vals.

(** [ids] is what [range] made of a map whose keys are the values of
    column [i]. *)
Definition arranged_column (result : QueryResult) (i : nat) (ids : list value) : Prop :=
  exists keys, ids = rangeOrder keys /\ deduplicated_column result i keys.

(** One Delete per owned ColVindex, in the order of the list, from
    column [i] on, and each of them went through; [P i ids] says what
    the ids of column [i] are. *)
Inductive vindex_deletes (P : nat -> list value -> Prop) (ksid : KeyspaceId)
  : nat -> list ColVindex -> list event -> Prop :=
| vindex_deletes_nil i : vindex_deletes P ksid i [] []
| vindex_deletes_cons i colVindex owned ids evs :
    P i ids ->
    vindex_deletes P ksid (S i) owned evs ->
    vindex_deletes P ksid i (colVindex :: owned)
      (EvDelete (Col colVindex) ids ksid (inr tt) :: evs).

(** The protocol ran to its end: the subquery was read on the shard of
    the delete, and either it returned no row, or every owned ColVindex
    got its Delete, which went through. *)
Definition delete_protocol (P : QueryResult -> nat -> list value -> Prop) (plan : Plan)
    (ks shard : string) (ksid : KeyspaceId) (bv : gmap string value)
    (tabletType : string) (evs : list event) : Prop :=
  exists result deletes,
    evs = EvExecute (Plan_Subquery plan) bv ks [shard] tabletType (inr result) :: deletes
    /\ ((Rows result = [] /\ deletes = [])
        \/ (Rows result <> []
            /\ vindex_deletes (P result) ksid 0 (Table_Owned (Plan_Table plan)) deletes)).

(** A Delete of the protocol that went through, and one that did not:
    its error is how the statement ended. *)
Definition delete_went_through (ksid : KeyspaceId) (ev : event) : Prop :=
  match ev with
  | EvDelete _ _ k (inr _) => k = ksid
  | _ => False
  end.

Definition delete_failed {A} (ksid : KeyspaceId) (out : outcome A) (ev : event)
  : Prop :=
  match ev with
  | EvDelete _ _ k (inl e) => k = ksid /\ out = Err e
  | _ => False
  end.

(** The Deletes of a protocol that did not reach its end: all went
    through but possibly the last, and a Delete that failed is the last
    call of the statement. *)
Definition deletes_cut_short {A} (ksid : KeyspaceId) (out : outcome A)
    (deletes : list event) : Prop :=
  exists done last,
    deletes = done ++ last
    /\ Forall (delete_went_through ksid) done
    /\ (last = [] \/ exists ev, last = [ev] /\ delete_failed ksid out ev).

(** How the shard resolution of an equal-predicate DML found the
    keyspace id [ksid]: the one value of the plan resolved to [key], the
    topology was looked up, and the Map of the plan's vindex answered
    [key] with [ksid] alone. *)
Definition resolved_to (plan : Plan) (bv : gmap string value) (tabletType : string)
    (ksid : KeyspaceId) (lookups : list event) : Prop :=
  exists key,
    resolveKeys [Plan_Values plan] bv = Ok [key]
    /\ lookups = [EvGetKeyspaceShards cell (plan_keyspace plan) tabletType;
                  EvMap (Col (Plan_ColVindex plan)) [key] (inr [ksid])].

(** The three ways the log of a DeleteEqual can look, after the lookups
    of resolveSingleShard. The statement ended there (an error, a panic,
    or the keyspace id was MinKey); or the protocol was started and
    failed, and nothing follows it; or the base delete was sent, last,
    after the whole protocol when the plan has a subquery. *)
Definition delete_stopped (out : outcome QueryResult) (evs : list event) : Prop :=
  evs = [] /\ (out = Ok emptyResult \/ forall result, out <> Ok result).

(** The protocol failed: the subquery read failed, and its error is how
    the statement ended, with no Delete made; or it was answered and the
    Deletes were cut short. In neither case is there a result. *)
Definition delete_aborted (plan : Plan) (ksid : KeyspaceId) (bv : gmap string value)
    (tabletType : string) (out : outcome QueryResult) (evs : list event) : Prop :=
  Plan_Subquery plan <> ""
  /\ (forall result, out <> Ok result)
  /\ exists ks shard reply deletes,
      evs = EvExecute (Plan_Subquery plan) bv ks [shard] tabletType reply :: deletes
      /\ match reply with
         | inl e => out = Err e /\ deletes = []
         | inr _ => deletes_cut_short ksid out deletes
         end.

Definition delete_sent (P : QueryResult -> nat -> list value -> Prop) (plan : Plan)
    (ksid : KeyspaceId) (bv : gmap string value) (tabletType : string)
    (out : outcome QueryResult) (evs : list event) : Prop :=
  exists ks shard protocol reply,
    evs = protocol ++ [EvExecute (Plan_Rewritten plan +:+ dmlPostfix ksid)
                         (<[ksidName := VStr ksid]> bv) ks [shard] tabletType reply]
    /\ out = match reply with inl e => Err e | inr result => Ok result end
    /\ (if decide (Plan_Subquery plan = "") then protocol = []
        else delete_protocol P plan ks shard ksid bv tabletType protocol).

(** How a DeleteEqual went on once the shard resolution had found a
    keyspace id for it. *)
Definition delete_routed (P : QueryResult -> nat -> list value -> Prop) (plan : Plan)
    (bv : gmap string value) (tabletType : string) (out : outcome QueryResult)
    (lookups evs : list event) : Prop :=
  exists ksid,
    ksid <> MinKey
    /\ resolved_to plan bv tabletType ksid lookups
    /\ (delete_aborted plan ksid bv tabletType out evs
        \/ delete_sent P plan ksid bv tabletType out evs).

(** *** The insert arm *)

(** The first block of handlePrimary: the value of the primary column,
    supplied or generated, with the vindex entry an owned vindex gets. *)
Definition handlePrimary_value (vindexKey : value) (colVindex : ColVindex)
  : M (value * Z) :=
  if ColVindex_Owned colVindex then
    if decide (vindexKey = VNil) then
      match Vindex_Writer (ColVindex_Vindex colVindex) with
      | Functional _ _ (Some Generate) =>
          generated <- call (EvGenerate (Col colVindex) None) Generate ;;
          ret (VInt generated, generated)
      | _ => fail ("value must be supplied for column " +:+ Col colVindex)
      end
    else
      match Vindex_Writer (ColVindex_Vindex colVindex) with
      | Functional Create _ _ =>
          _ <- call (fun _ => EvCreate (Col colVindex) vindexKey None) (Create vindexKey) ;;
          ret (vindexKey, 0)
      | _ => panic "interface conversion: planbuilder.Vindex is not planbuilder.Functional"
      end
  else ret (vindexKey, 0).

Definition handlePrimary (vindexKey : value) (colVindex : ColVindex)
  : M (KeyspaceId * Z) :=
  let* (vindexKey, generated) := handlePrimary_value vindexKey colVindex in
  if decide (vindexKey = VNil) then
    fail ("value must be supplied for column " +:+ Col colVindex)
  else
    match Vindex_Mapper (ColVindex_Vindex colVindex) with
    | Unique Map =>
        ksids <- call (EvMap (Col colVindex) [vindexKey]) (Map [vindexKey]) ;;
        ksid <- index ksids 0 ;;
        if decide (ksid = MinKey) then
          fail ("could not map " +:+ fmt_value vindexKey +:+ " to a keyspace id")
        else
          _ <- setBindVar ("_" +:+ Col colVindex) vindexKey ;;
          ret (ksid, generated)
    | _ => panic "interface conversion: planbuilder.Vindex is not planbuilder.Unique"
    end.

Definition handleNonPrimary (vindexKey : value) (colVindex : ColVindex)
    (ksid : KeyspaceId) : M Z :=
  let* (vindexKey, generated) :=
    (if ColVindex_Owned colVindex then
       if decide (vindexKey = VNil) then
         match Vindex_Writer (ColVindex_Vindex colVindex) with
         | Lookup _ _ (Some Generate) =>
             generated <- call (EvGenerate (Col colVindex) (Some ksid)) (Generate ksid) ;;
             ret (VInt generated, generated)
         | _ => fail ("value must be supplied for column " +:+ Col colVindex)
         end
       else
         match Vindex_Writer (ColVindex_Vindex colVindex) with
         | Lookup Create _ _ =>
             _ <- call (fun _ => EvCreate (Col colVindex) vindexKey (Some ksid))
                       (Create vindexKey ksid) ;;
             ret (vindexKey, 0)
         | _ => panic "interface conversion: planbuilder.Vindex is not planbuilder.Lookup"
         end
     else
       if decide (vindexKey = VNil) then
         match Vindex_Reversible (ColVindex_Vindex colVindex) with
         | Some ReverseMap =>
             v <- call (fun _ => EvReverseMap (Col colVindex) ksid) (ReverseMap ksid) ;;
             if decide (v = VNil) then
               fail ("could not compute value for column " +:+ Col colVindex)
             else ret (v, 0)
         | None => fail ("value must be supplied for column " +:+ Col colVindex)
         end
       else
         ok <- call (fun _ => EvVerify (Col colVindex) vindexKey ksid)
                    (Verify (ColVindex_Vindex colVindex) vindexKey ksid) ;;
         if ok : bool then ret (vindexKey, 0)
         else
           fail ("value " +:+ fmt_value vindexKey +:+ " for column " +:+ Col colVindex
                 +:+ " does not map to keyspace id " +:+ fmt_ksid ksid)) in
  _ <- setBindVar ("_" +:+ Col colVindex) vindexKey ;;
  ret generated.

Definition getRouting (keyspace tabletType : string) (ksid : KeyspaceId)
  : M (string * string) :=
  let* (newKeyspace, allShards) := call_getKeyspaceShards keyspace tabletType in
  shard <- check (getShardForKeyspaceId allShards ksid) ;;
  ret (newKeyspace, shard).

(** [for i := 1; i < len(keys); i++], with [keys[i:]] as [todo]. *)
Fixpoint execInsertSharded_loop (plan : Plan) (ksid : KeyspaceId)
    (todo : list value) (i : nat) (generated : Z) : M Z :=
  match todo with
  | [] => ret generated
  | key :: rest =>
      colVindex <- index (Table_ColVindexes (Plan_Table plan)) i ;;
      newgen <- handleNonPrimary key colVindex ksid ;;
      if decide (newgen = 0) then execInsertSharded_loop plan ksid rest (S i) generated
      else if decide (generated = 0) then execInsertSharded_loop plan ksid rest (S i) newgen
      else fail "insert generated more than one value"
  end.

(** [uint64(generated)] *)
Definition uint64 (n : Z) : Z := n mod 2 ^ 64.

Definition set_InsertId (result : QueryResult) (id : Z) : QueryResult :=
  {| Fields := Fields result; RowsAffected := RowsAffected result;
     InsertId := id; Rows := Rows result |}.

Definition execInsertSharded (query : Query) (plan : Plan) : M QueryResult :=
  input <- values_list plan ;;
  bv <- getBindVars ;;
  keys <- lift (resolveKeys input bv) ;;
  key0 <- first_key keys ;;
  colVindex0 <- index (Table_ColVindexes (Plan_Table plan)) 0 ;;
  let* (ksid, generated) := handlePrimary key0 colVindex0 in
  let* (ks, shard) := getRouting (plan_keyspace plan) (Query_TabletType query) ksid in
  generated <- execInsertSharded_loop plan ksid (drop 1 keys) 1 generated ;;
  _ <- setBindVar ksidName (VStr ksid) ;;
  let rewritten := Plan_Rewritten plan +:+ dmlPostfix ksid in
  result <- call_Execute rewritten ks [shard] (Query_TabletType query) ;;
  if decide (generated = 0) then ret result
  else if decide (InsertId result = 0) then ret (set_InsertId result (uint64 generated))
  else fail "vindex and db generated a value each for insert".

(** How an insert ends once the backend has answered: the generated
    value, when there is one, becomes the insert id, unless the backend
    made one of its own. *)
Definition insert_verdict (generated : Z) (reply : error + QueryResult)
  : outcome QueryResult :=
  match reply with
  | inl e => Err e
  | inr backend =>
      if decide (generated = 0) then Ok backend
      else if decide (InsertId backend = 0)
           then Ok (set_InsertId backend (uint64 generated))
           else Err "vindex and db generated a value each for insert"
  end.

(** The two ways the log of an insert can look. Either nothing was
    sent to the scatter connection and the insert did not succeed; two
    generated values then mean the error that says so. Or the last entry
    is the dispatch of the rewritten insert with its routing comment. *)
Definition insert_stopped (out : outcome QueryResult) (evs : list event) : Prop :=
  Forall (fun ev => is_dispatch ev = false) evs
  /\ (length (generated_values evs) <= 2)%nat
  /\ match out with
     | Ok _ => False
     | Err e =>
         length (generated_values evs) = 2%nat ->
         e = "insert generated more than one value"
     | Panic _ => (length (generated_values evs) <= 1)%nat
     end.

Definition insert_sent (plan : Plan) (out : outcome QueryResult) (evs : list event)
  : Prop :=
  exists pre ksid bv ks shard tabletType reply generated,
    evs = pre ++ [EvExecute (Plan_Rewritten plan +:+ dmlPostfix ksid) bv ks [shard]
                    tabletType reply]
    /\ Forall (fun ev => is_dispatch ev = false) pre
    /\ bv !! ksidName = Some (VStr ksid)
    /\ generated_values pre = gen_list generated
    /\ out = insert_verdict generated reply.

(** *** Execute *)

Definition dispatch (query : Query) (plan : Plan) : M QueryResult :=
  match Plan_ID plan with
  | SelectUnsharded | UpdateUnsharded | DeleteUnsharded | InsertUnsharded =>
      execUnsharded query plan
  | SelectEqual => execSelectEqual query plan
  | SelectIN => execSelectIN query plan
  | SelectKeyrange => execSelectKeyrange query plan
  | SelectScatter => execSelectScatter query plan
  | UpdateEqual => execUpdateEqual query plan
  | DeleteEqual => execDeleteEqual query plan
  | InsertSharded => execInsertSharded query plan
  | NoPlan => fail ("plan " +:+ fmt_plan plan +:+ " unimplemented")
  end.

(** A statement starts from the bind variables of the query (an empty
    map when the query has none), the world as it is, and an empty
    log. *)
Definition Execute (query : Query) (w : W) : outcome QueryResult * state :=
  dispatch query (GetPlan (Query_Sql query))
    {| bindVars := default ∅ (Query_BindVariables query); world := w; log := [] |}.

End Router.

(** ** Shapes of replies and of log entries, for the statements below *)

(** [(T, error)] as the caller reads it. *)
Definition result_of {A} (r : error + A) : outcome A :=
  match r with
  | inl e => Err e
  | inr a => Ok a
  end.

Definition is_string (k : value) : Prop := exists s, k = VStr s.

(** *** Which keys a shard is sent *)

(** A key paired with one keyspace id of it goes to [shard] when the
    keyspace id is not MinKey and [shardOf] finds it in [shard]. *)
Definition routed_to (shardOf : KeyspaceId -> error + string) (shard : string)
    (p : value * KeyspaceId) : bool :=
  if decide (p.2 = MinKey) then false
  else match shardOf p.2 with
       | inr shard' => bool_decide (shard' = shard)
       | inl _ => false
       end.

(** The keys of the pairs that go to [shard], in the order of the pairs. *)
Definition keys_of_shard (shardOf : KeyspaceId -> error + string) (shard : string)
    (pairs : list (value * KeyspaceId)) : list value :=
  (List.filter (routed_to shardOf shard) pairs).*1.

(** Each key with every keyspace id a non-unique vindex gave for it. *)
Definition nonunique_pairs (keys : list value) (ksidss : list (list KeyspaceId))
  : list (value * KeyspaceId) :=
  concat (zip_with (fun k ksids => (fun ksid => (k, ksid)) <$> ksids) keys ksidss).

(** A routing map has an entry for a shard only when it has keys for it. *)
Definition nonempty {A} (l : list A) : option (list A) :=
  match l with
  | [] => None
  | _ => Some l
  end.

Section Shapes.

Context {wt : World}.

(** What the scatter connection answered, for an entry that is a
    dispatch. *)
Definition dispatch_reply (ev : event) : option (error + QueryResult) :=
  match ev with
  | EvExecute _ _ _ _ _ reply | EvExecuteMulti _ _ _ _ reply => Some reply
  | _ => None
  end.

Definition is_map (ev : event) : bool :=
  match ev with
  | EvMap _ _ _ | EvMapNonUnique _ _ _ => true
  | _ => false
  end.

(** The column whose vindex gives a DML its keyspace id: the first
    ColVindex of the table for an insert, the ColVindex of the plan
    otherwise. *)
Definition primary_column (plan : Plan) : option string :=
  match Plan_ID plan with
  | InsertSharded => Col <$> Table_ColVindexes (Plan_Table plan) !! 0%nat
  | _ => Some (Col (Plan_ColVindex plan))
  end.

(** [ksid] is the keyspace id of the statement whose log is [evs]: the
    log has one Map call, of the vindex of column [col] and for one key,
    and [ksid] is the first keyspace id of its answer. *)
Definition statement_ksid (col : string) (evs : list event) (ksid : KeyspaceId) : Prop :=
  exists pre key ksids post,
    evs = pre ++ EvMap col [key] (inr ksids) :: post
    /\ ksids !! 0%nat = Some ksid
    /\ Forall (fun ev => is_map ev = false) pre
    /\ Forall (fun ev => is_map ev = false) post.

(** The calls handlePrimary makes before it maps: they make the value
    of the column or its vindex entry. *)
Definition value_event (ev : event) : Prop :=
  match ev with
  | EvGenerate _ None _ | EvCreate _ _ None => True
  | _ => False
  end.

(** The calls of the primary column of an insert that got [ksid] for
    it: after the calls that made the value, the Map of the vindex of
    the first ColVindex of the table, for that one value, which answered
    with [ksid] first. *)
Definition insert_mapped (plan : Plan) (ksid : KeyspaceId) (primary : list event) : Prop :=
  exists colVindex0 values key ksids,
    Table_ColVindexes (Plan_Table plan) !! 0%nat = Some colVindex0
    /\ primary = values ++ [EvMap (Col colVindex0) [key] (inr ksids)]
    /\ Forall value_event values
    /\ ksids !! 0%nat = Some ksid.

(** The calls handlePrimary makes: they know of no keyspace id yet. *)
Definition primary_event (ev : event) : Prop :=
  match ev with
  | EvGenerate _ None _ | EvCreate _ _ None | EvMap _ _ _ => True
  | _ => False
  end.

(** The calls handleNonPrimary makes, each with the keyspace id of the
    row. *)
Definition secondary_event (ksid : KeyspaceId) (ev : event) : Prop :=
  match ev with
  | EvGenerate _ (Some k) _ | EvCreate _ _ (Some k) | EvVerify _ _ k
  | EvReverseMap _ k => k = ksid
  | _ => False
  end.

(** [bv'] differs from [bv] at most at the variables "_" + column of
    the ColVindexes of the plan's table. *)
Definition untouched (plan : Plan) (bv bv' : gmap string value) : Prop :=
  forall name,
    (forall colVindex,
        colVindex ∈ Table_ColVindexes (Plan_Table plan) -> name <> "_" +:+ Col colVindex) ->
    bv' !! name = bv !! name.

(** How an equal-predicate DML leaves the statement: with the bind
    variables as they were, and then an Ok is the empty result after
    lookups only; or with keyspace_id bound to a keyspace id that is not
    MinKey, after a dispatch whose reply is the answer. *)
Definition equal_dml_post (bv : gmap string value) (out : outcome QueryResult)
    (bv' : gmap string value) (evs : list event) : Prop :=
  (bv' = bv
   /\ forall result, out = Ok result ->
        result = emptyResult /\ Forall (fun ev => is_lookup ev = true) evs)
  \/ (exists ksid pre ev reply,
         ksid <> MinKey
         /\ bv' = <[ksidName := VStr ksid]> bv
         /\ evs = pre ++ [ev]
         /\ dispatch_reply ev = Some reply
         /\ out = result_of reply).

End Shapes.

(** ** The key resolver as the specification words it

    "a bind-var reference, encoded as a string whose first byte is a
    sentinel and the remainder is the bind-var name: substitute the
    corresponding bind-var value; a raw byte string: normalise to text;
    anything else: pass through." *)
Inductive item_resolves (bindVars : gmap string value) : value -> value -> Prop :=
| resolves_reference sentinel name v :
    bindVars !! name = Some v ->
    item_resolves bindVars (VStr (String sentinel name)) v
| resolves_bytes b :
    item_resolves bindVars (VBytes b) (VStr (string_of_list_byte b))
| resolves_nil : item_resolves bindVars VNil VNil
| resolves_int n : item_resolves bindVars (VInt n) (VInt n)
| resolves_list l : item_resolves bindVars (VList l) (VList l).

(** ** A fixture

    The schema of data/test/vtgate/router_test.json in small: keyspace
    TestRouter with two shards, the vindexes user_index (unique,
    functional, generating, reversible), music_user_map (unique lookup,
    generating) and name_user_map (non-unique lookup), and one plan per
    statement text. The world is the next id a generator hands out. *)
Module Fixture.

#[export] Instance world_types : World :=
  {| W := nat; SqlValue := string; SrvShard := string |}.

Definition ksid_of (id : value) : KeyspaceId :=
  match id with
  | VStr s => s
  | VInt _ => "i"
  | _ => ""
  end.

(** The world in which the generators hand out [n] next. *)
Definition next_id (n : nat) : W := n.

Definition generate : reply Z := fun w => (inr (Z.of_nat w), S w).
Definition accept {A} (a : A) : reply A := fun w => (inr a, w).

Definition user_index : Vindex :=
  {| Verify := fun id ksid => accept (bool_decide (ksid_of id = ksid));
     Vindex_Mapper := Unique (fun ids => accept (ksid_of <$> ids));
     Vindex_Writer := Functional (fun _ => accept tt) (fun _ _ => accept tt) (Some generate);
     Vindex_Reversible := Some (fun ksid => accept (VStr ksid)) |}.

Definition music_user_map : Vindex :=
  {| Verify := fun id ksid => accept (bool_decide (ksid_of id = ksid));
     Vindex_Mapper := Unique (fun ids => accept (ksid_of <$> ids));
     Vindex_Writer := Lookup (fun _ _ => accept tt) (fun _ _ => accept tt)
                        (Some (fun _ => generate));
     Vindex_Reversible := None |}.

Definition name_user_map : Vindex :=
  {| Verify := fun id ksid => accept true;
     Vindex_Mapper := NonUnique (fun ids => accept ((fun id => [ksid_of id; "zz"]) <$> ids));
     Vindex_Writer := Lookup (fun _ _ => accept tt) (fun _ _ => accept tt) None;
     Vindex_Reversible := None |}.

(** A vindex that can do nothing but verify. *)
Definition bare_index : Vindex :=
  {| Verify := fun id ksid => accept true;
     Vindex_Mapper := NoMapper;
     Vindex_Writer := NoWriter;
     Vindex_Reversible := None |}.

Definition TestRouter : Keyspace := {| Keyspace_Name := "TestRouter"; Keyspace_Sharded := true |}.
Definition TestDown : Keyspace := {| Keyspace_Name := "TestDown"; Keyspace_Sharded := true |}.
Definition TestUnsharded : Keyspace :=
  {| Keyspace_Name := "TestUnsharded"; Keyspace_Sharded := false |}.

Definition user_id_col : ColVindex :=
  {| Col := "id"; ColVindex_Vindex := user_index; ColVindex_Owned := true |}.
Definition user_name_col : ColVindex :=
  {| Col := "name"; ColVindex_Vindex := name_user_map; ColVindex_Owned := true |}.
Definition music_user_id_col : ColVindex :=
  {| Col := "user_id"; ColVindex_Vindex := user_index; ColVindex_Owned := false |}.
Definition music_id_col : ColVindex :=
  {| Col := "id"; ColVindex_Vindex := music_user_map; ColVindex_Owned := true |}.

Definition ticket_id_col : ColVindex :=
  {| Col := "id"; ColVindex_Vindex := user_index; ColVindex_Owned := true |}.
Definition ticket_music_col : ColVindex :=
  {| Col := "music_id"; ColVindex_Vindex := music_user_map; ColVindex_Owned := true |}.
Definition user_note_col : ColVindex :=
  {| Col := "note"; ColVindex_Vindex := bare_index; ColVindex_Owned := false |}.

Definition user : Table :=
  {| Table_Keyspace := TestRouter;
     Table_ColVindexes := [user_id_col; user_name_col];
     Table_Owned := [user_name_col] |}.
Definition user_down : Table :=
  {| Table_Keyspace := TestDown;
     Table_ColVindexes := [user_id_col; user_name_col];
     Table_Owned := [user_name_col] |}.
Definition music : Table :=
  {| Table_Keyspace := TestRouter;
     Table_ColVindexes := [music_user_id_col; music_id_col];
     Table_Owned := [music_id_col] |}.
Definition user_idx : Table :=
  {| Table_Keyspace := TestUnsharded; Table_ColVindexes := []; Table_Owned := [] |}.
(** A table whose two columns both generate. *)
Definition ticket : Table :=
  {| Table_Keyspace := TestRouter;
     Table_ColVindexes := [ticket_id_col; ticket_music_col];
     Table_Owned := [ticket_id_col; ticket_music_col] |}.

Definition plans : list (string * Plan) :=
  [ ("select * from user where id = :id",
     mkPlan SelectEqual user user_id_col (VStr ":id")
       "select * from user where id = :id" "");
    ("select * from user_down where id = :id",
     mkPlan SelectEqual user_down user_id_col (VStr ":id")
       "select * from user_down where id = :id" "");
    ("select * from user_down where id in ::ids",
     mkPlan SelectIN user_down user_id_col (VList [VStr ":a"; VStr ":b"])
       "select * from user_down where id in ::_vals" "");
    ("update user_idx set v = 1",
     mkPlan UpdateUnsharded user_idx user_id_col VNil "update user_idx set v = 1" "");
    ("delete from ticket where note = :note",
     mkPlan DeleteEqual ticket user_note_col (VStr ":note")
       "delete from ticket where note = :note"
       "select name from user where id = :id for update");
    ("select * from user where keyrange(:a, :b)",
     mkPlan SelectKeyrange user user_id_col (VList [VStr ":a"; VStr ":b"])
       "select * from user" "");
    ("select * from user where name = :name",
     mkPlan SelectEqual user user_name_col (VStr ":name")
       "select * from user where name = :name" "");
    ("update user set v = 1 where id = :id",
     mkPlan UpdateEqual user user_id_col (VStr ":id")
       "update user set v = 1 where id = :id" "");
    ("update user set v = 1 where name = :name",
     mkPlan UpdateEqual user user_name_col (VStr ":name")
       "update user set v = 1 where name = :name" "");
    ("delete from user where id = :id",
     mkPlan DeleteEqual user user_id_col (VStr ":id")
       "delete from user where id = :id"
       "select name from user where id = :id for update");
    ("insert into music(user_id, id) values (:uid, null)",
     mkPlan InsertSharded music music_user_id_col (VList [VStr ":uid"; VNil])
       "insert into music(user_id, id) values (:_user_id, :_id)" "");
    ("insert into ticket(id, music_id) values (null, null)",
     mkPlan InsertSharded ticket ticket_id_col (VList [VNil; VNil])
       "insert into ticket(id, music_id) values (:_id, :_music_id)" "") ].

Definition no_plan : Plan := mkPlan NoPlan user user_id_col VNil "" "".

Fixpoint plan_of (plans : list (string * Plan)) (sql : string) : Plan :=
  match plans with
  | [] => no_plan
  | (text, plan) :: rest => if decide (text = sql) then plan else plan_of rest sql
  end.

Definition names : QueryResult :=
  {| Fields := [mkField "name" 253]; RowsAffected := 0; InsertId := 0;
     Rows := [["alice"]; ["bob"]; ["alice"]] |}.

#[export] Instance collaborators : Collaborators :=
  {| cell := "aa";
     GetPlan := plan_of plans;
     ListVarName := "_vals";
     ShardName := fun shard => shard;
     getKeyspaceShards := fun _ keyspace _ =>
       if decide (keyspace = "TestDown") then (fun w => (inl "topology is down", w))
       else if decide (keyspace = "TestUnsharded") then accept (keyspace, ["0"])
       else accept (keyspace, ["-80"; "80-"]);
     getShardForKeyspaceId := fun _ ksid =>
       match ksid with
       | String c _ => inr (if decide (c = "z"%char) then "80-" else "-80")
       | EmptyString => inl "no shard for keyspace id"
       end;
     mapExactShards := fun _ keyspace _ kr =>
       accept (keyspace, if decide (End kr = "") then ["-80"; "80-"] else ["-80"]);
     scatterConn_Execute := fun sql _ _ _ _ =>
       accept (if decide (sql = "select name from user where id = :id for update")
               then names else emptyResult);
     scatterConn_ExecuteMulti := fun _ _ _ _ => accept emptyResult;
     Convert := fun _ cell => inr (VBytes (list_byte_of_string cell));
     fmt_value := fun v => match v with VStr s => s | _ => "?" end;
     fmt_ksid := fun ksid => ksid;
     fmt_shards := fun shards => String.concat " " shards;
     fmt_plan := fun plan => Plan_Rewritten plan;
     rangeOrder := reverse |}.

(** The statement before anything ran, and after one topology lookup. *)
Definition start : state := {| bindVars := ∅; world := 0%nat; log := [] |}.
Definition after_lookup : state :=
  {| bindVars := ∅; world := 0%nat;
     log := [EvGetKeyspaceShards "aa" "TestRouter" "master"] |}.

Definition delete_ticket : Query :=
  mkQuery "delete from ticket where note = :note" None "master".
Definition delete_ticket_plan : Plan :=
  plan_of plans "delete from ticket where note = :note".

Definition update_unroutable : Query :=
  mkQuery "update user set v = 1 where id = :id" (Some {["id" := VStr ""]}) "master".
Definition insert_unroutable : Query :=
  mkQuery "insert into music(user_id, id) values (:uid, null)"
    (Some {["uid" := VStr ""]}) "master".
Definition insert_music : Query :=
  mkQuery "insert into music(user_id, id) values (:uid, null)"
    (Some {["uid" := VStr "bob"]}) "master".
Definition insert_ticket : Query :=
  mkQuery "insert into ticket(id, music_id) values (null, null)" None "master".
Definition update_bob : Query :=
  mkQuery "update user set v = 1 where id = :id" (Some {["id" := VStr "bob"]}) "master".
Definition delete_bob : Query :=
  mkQuery "delete from user where id = :id" (Some {["id" := VStr "bob"]}) "master".
Definition keyrange_one : Query :=
  mkQuery "select * from user where keyrange(:a, :b)"
    (Some {["a" := VStr "a"; "b" := VStr "m"]}) "master".
Definition keyrange_all : Query :=
  mkQuery "select * from user where keyrange(:a, :b)"
    (Some {["a" := VStr "a"; "b" := VStr ""]}) "master".

Definition run (sql : string) (bv : gmap string value) (w : W) : outcome QueryResult * state :=
  Execute (mkQuery sql (Some bv) "master") w.

End Fixture.

(** ** The fixture with the read plans

    The same world and collaborators, with three more statements: a
    scatter select, a SelectIN on the keyspace that is up, and a select
    of the unsharded table. *)
Module Reads.

Import Fixture.

Definition plans : list (string * Plan) :=
  [ ("select * from user",
     mkPlan SelectScatter user user_id_col VNil "select * from user" "");
    ("select * from user where id in ::ids",
     mkPlan SelectIN user user_id_col (VList [VStr ":a"; VStr ":b"; VStr ":c"; VStr ":d"])
       "select * from user where id in ::_vals" "");
    ("select * from user_idx",
     mkPlan SelectUnsharded user_idx user_id_col VNil "select * from user_idx" "") ]
  ++ Fixture.plans.

Definition collaborators : Collaborators :=
  {| cell := @cell _ Fixture.collaborators;
     GetPlan := plan_of plans;
     ListVarName := @ListVarName _ Fixture.collaborators;
     ShardName := @ShardName _ Fixture.collaborators;
     getKeyspaceShards := @getKeyspaceShards _ Fixture.collaborators;
     getShardForKeyspaceId := @getShardForKeyspaceId _ Fixture.collaborators;
     mapExactShards := @mapExactShards _ Fixture.collaborators;
     scatterConn_Execute := @scatterConn_Execute _ Fixture.collaborators;
     scatterConn_ExecuteMulti := @scatterConn_ExecuteMulti _ Fixture.collaborators;
     Convert := @Convert _ Fixture.collaborators;
     fmt_value := @fmt_value _ Fixture.collaborators;
     fmt_ksid := @fmt_ksid _ Fixture.collaborators;
     fmt_shards := @fmt_shards _ Fixture.collaborators;
     fmt_plan := @fmt_plan _ Fixture.collaborators;
     rangeOrder := @rangeOrder _ Fixture.collaborators |}.

Definition plan (query : Query) : Plan := @GetPlan _ collaborators (Query_Sql query).

Definition run (query : Query) (w : W) : outcome QueryResult * state :=
  @Execute _ collaborators query w.

Definition select_all : Query := mkQuery "select * from user" None "master".
Definition select_in : Query :=
  mkQuery "select * from user where id in ::ids"
    (Some {["a" := VStr "bob"; "b" := VStr "zed"; "c" := VStr ""; "d" := VStr "bill"]})
    "master".
Definition select_idx : Query := mkQuery "select * from user_idx" None "master".
Definition select_bob : Query :=
  mkQuery "select * from user where id = :id" (Some {["id" := VStr "bob"]}) "master".
Definition select_unroutable : Query :=
  mkQuery "select * from user where id = :id" (Some {["id" := VStr ""]}) "master".
Definition select_by_name : Query :=
  mkQuery "select * from user where name = :name" (Some {["name" := VStr "bob"]}) "master".

End Reads.

(** ** Properties *)

Section Properties.

Context `{Collaborators}.

Implicit Types (s : state) (query : Query) (plan : Plan) (bv : gmap string value).

(** *** Running the state monad *)

Lemma bind_Ok {A B} (m : M A) (k : A -> M B) s a s1 :
  m s = (Ok a, s1) -> bind m k s = k a s1.
Proof. intros Hm. unfold bind. now rewrite Hm. Qed.

Lemma bind_Err {A B} (m : M A) (k : A -> M B) s e s1 :
  m s = (Err e, s1) -> bind m k s = (Err e, s1).
Proof. intros Hm. unfold bind. now rewrite Hm. Qed.

Lemma bind_Panic {A B} (m : M A) (k : A -> M B) s msg s1 :
  m s = (Panic msg, s1) -> bind m k s = (Panic msg, s1).
Proof. intros Hm. unfold bind. now rewrite Hm. Qed.

Lemma bind_ret {A B} (a : A) (k : A -> M B) s : bind (ret a) k s = k a s.
Proof. reflexivity. Qed.

Lemma bind_lift_Ok {A B} (a : A) (k : A -> M B) s : bind (lift (Ok a)) k s = k a s.
Proof. reflexivity. Qed.

Lemma bind_getBindVars {B} (k : gmap string value -> M B) s :
  bind getBindVars k s = k (bindVars s) s.
Proof. reflexivity. Qed.

Lemma bind_setBindVar {B} name v (k : unit -> M B) s :
  bind (setBindVar name v) k s
  = k tt {| bindVars := <[name := v]> (bindVars s); world := world s; log := log s |}.
Proof. reflexivity. Qed.

Lemma index_head {A} (a : A) (l : list A) : index (a :: l) 0 = ret a.
Proof. reflexivity. Qed.

Lemma bind_inv {A B} (m : M A) (k : A -> M B) s out s' :
  bind m k s = (out, s') ->
  (exists a s1, m s = (Ok a, s1) /\ k a s1 = (out, s'))
  \/ (exists e, m s = (Err e, s') /\ out = Err e)
  \/ (exists msg, m s = (Panic msg, s') /\ out = Panic msg).
Proof.
  unfold bind. destruct (m s) as [[a|e|msg] s1]; intros Hrun.
  - left. eauto.
  - right. left. injection Hrun as <- <-. eauto.
  - right. right. injection Hrun as <- <-. eauto.
Qed.

Lemma call_run {A} (mk : error + A -> event) (f : reply A) s r w :
  f (world s) = (r, w) ->
  call mk f s =
    (match r with inl e => Err e | inr a => Ok a end, after_call mk r w s).
Proof. intros Hf. unfold call. rewrite Hf. now destruct r. Qed.

Lemma call_run_Ok {A} (mk : error + A -> event) (f : reply A) s a w :
  f (world s) = (inr a, w) -> call mk f s = (Ok a, after_call mk (inr a) w s).
Proof. intros Hf. now rewrite (call_run _ _ _ _ _ Hf). Qed.

Lemma call_run_Err {A} (mk : error + A -> event) (f : reply A) s e w :
  f (world s) = (inl e, w) -> call mk f s = (Err e, after_call mk (inl e) w s).
Proof. intros Hf. now rewrite (call_run _ _ _ _ _ Hf). Qed.

Lemma call_inv {A} (mk : error + A -> event) (f : reply A) s out s' :
  call mk f s = (out, s') ->
  exists r w, f (world s) = (r, w) /\ s' = after_call mk r w s
              /\ out = match r with inl e => Err e | inr a => Ok a end.
Proof.
  intros Hrun. destruct (f (world s)) as [r w] eqn:Hf.
  rewrite (call_run _ _ _ _ _ Hf) in Hrun. injection Hrun as <- <-. eauto.
Qed.

Lemma call_Execute_run sql ks shards tabletType s r w :
  scatterConn_Execute sql (bindVars s) ks shards tabletType (world s) = (r, w) ->
  call_Execute sql ks shards tabletType s =
    (match r with inl e => Err e | inr result => Ok result end,
     after_call (EvExecute sql (bindVars s) ks shards tabletType) r w s).
Proof. intros Hreply. unfold call_Execute, bind, getBindVars. now apply call_run. Qed.

Lemma call_Execute_run_Ok sql ks shards tabletType s result w :
  scatterConn_Execute sql (bindVars s) ks shards tabletType (world s) = (inr result, w) ->
  call_Execute sql ks shards tabletType s =
    (Ok result, after_call (EvExecute sql (bindVars s) ks shards tabletType) (inr result) w s).
Proof. intros Hreply. now rewrite (call_Execute_run _ _ _ _ _ _ _ Hreply). Qed.

(** *** resolveKeys *)

Lemma resolveKeys_loop_app vals1 vals2 bv keys :
  resolveKeys_loop (vals1 ++ vals2) bv keys =
    match resolveKeys_loop vals1 bv keys with
    | Ok keys1 => resolveKeys_loop vals2 bv keys1
    | other => other
    end.
Proof.
  revert keys. induction vals1 as [|val vals1 IH]; intros keys; simpl; [done|].
  destruct val as [| |[|c name]| |]; try apply IH; [done|].
  destruct (bv !! name); [apply IH | done].
Qed.

Lemma resolveKeys_loop_spec vals bv keys :
  VStr "" ∉ vals ->
  (exists sentinel name,
      VStr (String sentinel name) ∈ vals /\ bv !! name = None
      /\ resolveKeys_loop vals bv keys
         = Err ("could not find bind var " +:+ String sentinel name))
  \/ (exists out,
         resolveKeys_loop vals bv keys = Ok (keys ++ out)
         /\ Forall2 (item_resolves bv) vals out).
Proof.
  revert keys. induction vals as [|val vals IH]; intros keys Hne.
  - right. exists []. simpl. rewrite app_nil_r. split; [done | constructor].
  - assert (Hne' : VStr "" ∉ vals) by (intros Hin; apply Hne; now right).
    assert (Hpass : forall k, item_resolves bv val k ->
              resolveKeys_loop (val :: vals) bv keys
              = resolveKeys_loop vals bv (keys ++ [k]) ->
              (exists sentinel name,
                  VStr (String sentinel name) ∈ val :: vals /\ bv !! name = None
                  /\ resolveKeys_loop (val :: vals) bv keys
                     = Err ("could not find bind var " +:+ String sentinel name))
              \/ (exists out,
                     resolveKeys_loop (val :: vals) bv keys = Ok (keys ++ out)
                     /\ Forall2 (item_resolves bv) (val :: vals) out)).
    { intros k Hk ->. destruct (IH (keys ++ [k]) Hne') as [(c & name & Hin & Hnone & Herr)|(out & Hok & Hall)].
      - left. exists c, name. split; [now right | done].
      - right. exists (k :: out). rewrite Hok, <- app_assoc. split; [done | now constructor]. }
    destruct val as [|n|[|c name]|b|l].
    + apply (Hpass VNil); [constructor | done].
    + apply (Hpass (VInt n)); [constructor | done].
    + exfalso. apply Hne. now left.
    + destruct (bv !! name) as [v|] eqn:Hlook.
      * apply (Hpass v); [now constructor | simpl; now rewrite Hlook].
      * left. exists c, name. split; [now left | split; [done | simpl; now rewrite Hlook]].
    + apply (Hpass (VStr (string_of_list_byte b))); [constructor | done].
    + apply (Hpass (VList l)); [constructor | done].
Qed.

(** C8, as amended: on a list with no empty-string item, resolveKeys
    returns either the error of a reference whose bind variable is
    missing, or a list of the same length and order in which each
    reference is replaced by the bind variable named by the string minus
    its first byte, each byte string is turned into text and every other
    item is passed through. *)
Theorem resolveKeys_arity_and_order vals bv :
  VStr "" ∉ vals ->
  (exists sentinel name,
      VStr (String sentinel name) ∈ vals /\ bv !! name = None
      /\ resolveKeys vals bv = Err ("could not find bind var " +:+ String sentinel name))
  \/ (exists keys,
         resolveKeys vals bv = Ok keys
         /\ length keys = length vals
         /\ Forall2 (item_resolves bv) vals keys).
Proof.
  intros Hne. destruct (resolveKeys_loop_spec vals bv [] Hne) as [Herr|(out & Hok & Hall)].
  - now left.
  - right. exists out. split; [exact Hok|]. split; [|exact Hall].
    symmetry. exact (Forall2_length _ _ _ Hall).
Qed.

(** C8 as it was stated fails: on an empty-string item resolveKeys
    neither returns an error nor a list. *)
Lemma resolveKeys_total_counterexample :
  ~ (forall vals bv,
        (exists e, resolveKeys vals bv = Err e)
        \/ (exists keys, resolveKeys vals bv = Ok keys /\ length keys = length vals)).
Proof.
  intros Hall. destruct (Hall [VStr ""] ∅) as [[e He]|(keys & Hk & _)]; discriminate.
Qed.

(** C10: a string item is always read as a reference. Whatever its
    first byte is, the byte is dropped and the rest is looked up in the
    bind variables; the empty string makes the slice expression panic. *)
Theorem resolveKeys_no_sentinel_check bv done keys rest :
  resolveKeys done bv = Ok keys ->
  (forall first name,
      resolveKeys (done ++ VStr (String first name) :: rest) bv =
        match bv !! name with
        | Some v => resolveKeys_loop rest bv (keys ++ [v])
        | None => Err ("could not find bind var " +:+ String first name)
        end)
  /\ resolveKeys (done ++ VStr "" :: rest) bv
     = Panic "runtime error: slice bounds out of range".
Proof.
  unfold resolveKeys. intros Hdone. split; [intros first name|];
    rewrite resolveKeys_loop_app, Hdone; reflexivity.
Qed.

Lemma resolveKeys_no_sentinel_check_witness :
  resolveKeys [VBytes []] {["id" := VInt 1]} = Ok [VStr ""]
  /\ (forall first name,
         resolveKeys ([VBytes []] ++ VStr (String first name) :: [VInt 7]) {["id" := VInt 1]} =
           match ({["id" := VInt 1]} : gmap string value) !! name with
           | Some v => resolveKeys_loop [VInt 7] {["id" := VInt 1]} ([VStr ""] ++ [v])
           | None => Err ("could not find bind var " +:+ String first name)
           end)
  /\ resolveKeys ([VBytes []] ++ VStr "" :: [VInt 7]) {["id" := VInt 1]}
     = Panic "runtime error: slice bounds out of range".
Proof.
  split; [reflexivity|].
  apply (resolveKeys_no_sentinel_check {["id" := VInt 1]} [VBytes []] [VStr ""] [VInt 7]).
  reflexivity.
Defined.

(** *** The equal-predicate DML arms on MinKey *)

Ltac run_call Hreply :=
  erewrite bind_Ok by (apply call_run_Ok; simpl; exact Hreply); simpl.

Lemma resolveSingleShard_run_Unique query plan vindexKey s Map newKeyspace allShards w1 r w2 :
  getKeyspaceShards cell (plan_keyspace plan) (Query_TabletType query) (world s)
    = (inr (newKeyspace, allShards), w1) ->
  Vindex_Mapper (ColVindex_Vindex (Plan_ColVindex plan)) = Unique Map ->
  Map [vindexKey] w1 = (r, w2) ->
  resolveSingleShard query vindexKey plan s =
    (match r with
     | inl e => Err e
     | inr [ksid] =>
         if decide (ksid = MinKey) then Ok ("", "", ksid)
         else match getShardForKeyspaceId allShards ksid with
              | inl e => Err e
              | inr shard => Ok (newKeyspace, shard, ksid)
              end
     | inr _ => Panic "unexpected"
     end,
     {| bindVars := bindVars s; world := w2;
        log := log s ++ [EvGetKeyspaceShards cell (plan_keyspace plan) (Query_TabletType query);
                         EvMap (Col (Plan_ColVindex plan)) [vindexKey] r] |}).
Proof.
  intros Htopo Hmapper Hmap. unfold resolveSingleShard, call_getKeyspaceShards.
  run_call Htopo. rewrite Hmapper.
  unfold bind at 1. erewrite call_run by (simpl; exact Hmap).
  unfold after_call; simpl. rewrite <- app_assoc; simpl.
  destruct r as [e|[|ksid [|]]]; try reflexivity.
  destruct (decide (ksid = MinKey)); [reflexivity|].
  unfold bind, check. now destruct (getShardForKeyspaceId allShards ksid).
Qed.

(** C3: an UpdateEqual or DeleteEqual whose primary vindex maps the
    resolved key to MinKey returns the empty result without an error.
    The bind variables are what the query brought (no keyspace_id is
    written), and the only calls made are the topology lookup and the
    Map itself: no vindex Delete, nothing sent to the scatter
    connection. *)
Theorem equal_dml_MinKey_is_noop query w key Map newKeyspace allShards w1 w2 :
  let plan := GetPlan (Query_Sql query) in
  let bv := default ∅ (Query_BindVariables query) in
  Plan_ID plan = UpdateEqual \/ Plan_ID plan = DeleteEqual ->
  resolveKeys [Plan_Values plan] bv = Ok [key] ->
  getKeyspaceShards cell (plan_keyspace plan) (Query_TabletType query) w
    = (inr (newKeyspace, allShards), w1) ->
  Vindex_Mapper (ColVindex_Vindex (Plan_ColVindex plan)) = Unique Map ->
  Map [key] w1 = (inr [MinKey], w2) ->
  Execute query w =
    (Ok emptyResult,
     {| bindVars := bv; world := w2;
        log := [EvGetKeyspaceShards cell (plan_keyspace plan) (Query_TabletType query);
                EvMap (Col (Plan_ColVindex plan)) [key] (inr [MinKey])] |}).
Proof.
  intros plan bv Hid Hkeys Htopo Hmapper Hmap.
  unfold Execute, dispatch. fold plan. fold bv.
  assert (Hsingle := resolveSingleShard_run_Unique query plan key
            {| bindVars := bv; world := w; log := [] |} Map newKeyspace allShards
            w1 _ w2 Htopo Hmapper Hmap).
  simpl in Hsingle.
  destruct Hid as [-> | ->].
  - unfold execUpdateEqual, bind at 1, getBindVars; simpl.
    unfold bind at 1, lift. rewrite Hkeys.
    unfold bind at 1, first_key, index; simpl. unfold ret at 1.
    unfold bind. rewrite Hsingle. reflexivity.
  - unfold execDeleteEqual, bind at 1, getBindVars; simpl.
    unfold bind at 1, lift. rewrite Hkeys.
    unfold bind at 1, first_key, index; simpl. unfold ret at 1.
    unfold bind. rewrite Hsingle. reflexivity.
Qed.

(** *** The select arms when shard resolution fails *)

Lemma routingMap_Shards_nil : routingMap_Shards ∅ = [].
Proof. unfold routingMap_Shards. now rewrite map_to_list_empty. Qed.

Lemma discard_err_Err {A} (m : M A) (zero : A) s e s1 :
  m s = (Err e, s1) -> discard_err m zero s = (Ok zero, s1).
Proof. intros Hm. unfold discard_err. now rewrite Hm. Qed.

(** What execSelectEqual does with an error of resolveShards: it goes on
    and sends the query to no shard of the keyspace with the empty name. *)
Lemma execSelectEqual_drops_resolution_error query plan s keys e s1 :
  resolveKeys [Plan_Values plan] (bindVars s) = Ok keys ->
  resolveShards query keys plan s = (Err e, s1) ->
  execSelectEqual query plan s
  = call_Execute (Plan_Rewritten plan) "" [] (Query_TabletType query) s1.
Proof.
  intros Hkeys Hresolve. unfold execSelectEqual.
  unfold bind at 1, getBindVars. unfold bind at 1, lift. rewrite Hkeys.
  erewrite bind_Ok by (eapply discard_err_Err; exact Hresolve).
  cbv beta iota. now rewrite routingMap_Shards_nil.
Qed.

(** The same for execSelectIN, with no per-shard bind variables. *)
Lemma execSelectIN_drops_resolution_error query plan s vals keys e s1 :
  Plan_Values plan = VList vals ->
  resolveKeys vals (bindVars s) = Ok keys ->
  resolveShards query keys plan s = (Err e, s1) ->
  execSelectIN query plan s
  = call_ExecuteMulti (Plan_Rewritten plan) "" ∅ (Query_TabletType query) s1.
Proof.
  intros Hvals Hkeys Hresolve. unfold execSelectIN, values_list. rewrite Hvals.
  unfold bind at 1, ret. unfold bind at 1, getBindVars. unfold bind at 1, lift.
  rewrite Hkeys.
  erewrite bind_Ok by (eapply discard_err_Err; exact Hresolve).
  cbv beta iota. now rewrite fmap_empty.
Qed.

Lemma resolveShards_topology_error query keys plan s e w1 :
  getKeyspaceShards cell (plan_keyspace plan) (Query_TabletType query) (world s) = (inl e, w1) ->
  resolveShards query keys plan s
  = (Err e,
     {| bindVars := bindVars s; world := w1;
        log := log s ++ [EvGetKeyspaceShards cell (plan_keyspace plan) (Query_TabletType query)] |}).
Proof.
  intros Htopo. unfold resolveShards, call_getKeyspaceShards.
  erewrite bind_Err by (apply call_run_Err; exact Htopo). reflexivity.
Qed.

(** *** Unexpected plan shapes *)

(** C2, as amended: on an unexpected plan shape the router panics with
    the text "unexpected" and returns nothing. After a topology lookup
    that succeeded, resolveSingleShard panics on every vindex that is not
    Unique, and resolveShards on a vindex that is neither Unique nor
    NonUnique; deleteVindexEntries panics when the subquery returned rows
    and the first one is not as wide as the list of owned ColVindexes. *)
Theorem unexpected_plan_shape_panics query plan s newKeyspace allShards w1 :
  getKeyspaceShards cell (plan_keyspace plan) (Query_TabletType query) (world s)
    = (inr (newKeyspace, allShards), w1) ->
  let s1 := {| bindVars := bindVars s; world := w1;
               log := log s ++ [EvGetKeyspaceShards cell (plan_keyspace plan)
                                  (Query_TabletType query)] |} in
  (forall vindexKey,
      (forall Map, Vindex_Mapper (ColVindex_Vindex (Plan_ColVindex plan)) <> Unique Map) ->
      resolveSingleShard query vindexKey plan s = (Panic "unexpected", s1))
  /\ (forall vindexKeys,
         Vindex_Mapper (ColVindex_Vindex (Plan_ColVindex plan)) = NoMapper ->
         resolveShards query vindexKeys plan s = (Panic "unexpected", s1))
  /\ (forall ks shard ksid result row0 rows w2,
         scatterConn_Execute (Plan_Subquery plan) (bindVars s) ks [shard]
           (Query_TabletType query) (world s) = (inr result, w2) ->
         Rows result = row0 :: rows ->
         length row0 <> length (Table_Owned (Plan_Table plan)) ->
         deleteVindexEntries query plan ks shard ksid s
         = (Panic "unexpected",
            {| bindVars := bindVars s; world := w2;
               log := log s ++ [EvExecute (Plan_Subquery plan) (bindVars s) ks [shard]
                                  (Query_TabletType query) (inr result)] |})).
Proof.
  intros Htopo s1. split; [|split].
  - intros vindexKey Hmapper. unfold resolveSingleShard, call_getKeyspaceShards.
    run_call Htopo.
    destruct (Vindex_Mapper (ColVindex_Vindex (Plan_ColVindex plan))) as [Map| |];
      [now destruct (Hmapper Map) | reflexivity | reflexivity].
  - intros vindexKeys Hmapper. unfold resolveShards, call_getKeyspaceShards.
    run_call Htopo. now rewrite Hmapper.
  - intros ks shard ksid result row0 rows w2 Hsub Hrows Hwidth.
    unfold deleteVindexEntries.
    erewrite bind_Ok by (apply call_Execute_run_Ok; exact Hsub). rewrite Hrows.
    now rewrite decide_False by exact Hwidth.
Qed.

(** *** SelectKeyrange *)

(** C9: the two resolved keys become the start and the end of the key
    range handed to mapExactShards. When that names exactly one shard the
    query goes to this shard; when it names none or several, the router
    returns the error "keyrange must match exactly one shard" (followed
    by the keys) and sends nothing. *)
Theorem keyrange_must_match_one_shard query w vals lo hi ks shards w1 :
  let plan := GetPlan (Query_Sql query) in
  let bv := default ∅ (Query_BindVariables query) in
  let tabletType := Query_TabletType query in
  let lookup :=
    EvMapExactShards cell (plan_keyspace plan) tabletType {| Start := lo; End := hi |} in
  Plan_ID plan = SelectKeyrange ->
  Plan_Values plan = VList vals ->
  resolveKeys vals bv = Ok [VStr lo; VStr hi] ->
  mapExactShards cell (plan_keyspace plan) tabletType {| Start := lo; End := hi |} w
    = (inr (ks, shards), w1) ->
  (forall shard r w2,
      shards = [shard] ->
      scatterConn_Execute (Plan_Rewritten plan) bv ks [shard] tabletType w1 = (r, w2) ->
      Execute query w =
        (match r with inl e => Err e | inr result => Ok result end,
         {| bindVars := bv; world := w2;
            log := [lookup; EvExecute (Plan_Rewritten plan) bv ks [shard] tabletType r] |}))
  /\ (length shards <> 1%nat ->
      Execute query w =
        (Err ("keyrange must match exactly one shard: " +:+ fmt_value (VList [VStr lo; VStr hi])),
         {| bindVars := bv; world := w1; log := [lookup] |})).
Proof.
  intros plan bv tabletType lookup Hid Hvals Hkeys Hmap.
  assert (Hrun : Execute query w =
            (if decide (length shards = 1%nat)
             then call_Execute (Plan_Rewritten plan) ks shards tabletType
             else fail ("keyrange must match exactly one shard: "
                        +:+ fmt_value (VList [VStr lo; VStr hi])))
              {| bindVars := bv; world := w1; log := [lookup] |}).
  { unfold Execute, dispatch. fold plan. rewrite Hid.
    unfold execSelectKeyrange, values_list. rewrite Hvals.
    unfold bind at 1, ret. unfold bind at 1, getBindVars; simpl.
    unfold bind at 1, lift. fold bv. rewrite Hkeys.
    unfold bind at 1; simpl. unfold call_mapExactShards.
    erewrite bind_Ok by (apply call_run_Ok; simpl; exact Hmap). reflexivity. }
  split.
  - intros shard r w2 -> Hreply. rewrite Hrun; simpl.
    now rewrite (call_Execute_run _ _ _ _
                   {| bindVars := bv; world := w1; log := [lookup] |} _ _ Hreply).
  - intros Hlen. rewrite Hrun. now rewrite decide_False by exact Hlen.
Qed.

(** *** InsertSharded: the primary column *)

Ltac run_cases Hrun :=
  unfold call, index in Hrun; unfold check in Hrun;
  unfold bind, ret, fail, panic, lift, setBindVar, getBindVars in Hrun;
  repeat case_match; simplify_eq/=.

Ltac decide_zero :=
  repeat match goal with
         | |- context [decide (?x = 0)] => destruct (decide (x = 0))
         end.

Ltac no_events := exists []; rewrite app_nil_r; split; [reflexivity|].
Ltac some_events :=
  eexists; split;
  [simpl;
   repeat match goal with
          | |- (?l ++ ?m) ++ ?n = _ => rewrite <- (app_assoc l m n)
          end; reflexivity|].

Lemma handlePrimary_value_trace vindexKey colVindex s out s1 :
  handlePrimary_value vindexKey colVindex s = (out, s1) ->
  bindVars s1 = bindVars s
  /\ exists evs,
      log s1 = log s ++ evs /\ Forall quiet evs
      /\ generated_values evs = match out with Ok (_, g) => gen_list g | _ => [] end.
Proof.
  unfold handlePrimary_value. intros Hrun. run_cases Hrun.
  all: split; [reflexivity|].
  all: try (no_events; split; [constructor | reflexivity]).
  all: some_events; (split; [repeat constructor|]).
  all: try reflexivity.
  unfold generated_values, gen_list; simpl. now decide_zero.
Qed.

(** C4: when the primary vindex maps the primary value, supplied or
    generated, to MinKey, the insert fails with an error and nothing was
    or is sent to the scatter connection. *)
Theorem insert_MinKey_is_error query w input key0 keys colVindex0 colVindexes
    vindexKey generated s1 Map more w2 :
  let plan := GetPlan (Query_Sql query) in
  let bv := default ∅ (Query_BindVariables query) in
  Plan_ID plan = InsertSharded ->
  Plan_Values plan = VList input ->
  resolveKeys input bv = Ok (key0 :: keys) ->
  Table_ColVindexes (Plan_Table plan) = colVindex0 :: colVindexes ->
  handlePrimary_value key0 colVindex0 {| bindVars := bv; world := w; log := [] |}
    = (Ok (vindexKey, generated), s1) ->
  vindexKey <> VNil ->
  Vindex_Mapper (ColVindex_Vindex colVindex0) = Unique Map ->
  Map [vindexKey] (world s1) = (inr (MinKey :: more), w2) ->
  Execute query w =
    (Err ("could not map " +:+ fmt_value vindexKey +:+ " to a keyspace id"),
     {| bindVars := bv; world := w2;
        log := log s1 ++ [EvMap (Col colVindex0) [vindexKey] (inr (MinKey :: more))] |})
  /\ Forall (fun ev => is_dispatch ev = false)
            (log s1 ++ [EvMap (Col colVindex0) [vindexKey] (inr (MinKey :: more))]).
Proof.
  intros plan bv Hid Hvals Hkeys Hcols Hvalue Hnil Hmapper Hmap.
  destruct (handlePrimary_value_trace _ _ _ _ _ Hvalue) as (Hbv & evs & Hlog & Hquiet & _).
  simpl in Hbv, Hlog. split.
  - unfold Execute, dispatch. fold plan. rewrite Hid.
    unfold execInsertSharded, values_list. rewrite Hvals.
    rewrite bind_ret, bind_getBindVars. simpl bindVars. fold bv. rewrite Hkeys.
    rewrite bind_lift_Ok. unfold first_key. rewrite index_head, bind_ret.
    rewrite Hcols, index_head, bind_ret.
    erewrite bind_Err; [reflexivity|].
    unfold handlePrimary. erewrite bind_Ok by exact Hvalue. cbv beta iota.
    rewrite decide_False by exact Hnil. rewrite Hmapper.
    erewrite bind_Ok by (apply call_run_Ok; exact Hmap).
    rewrite index_head, bind_ret. simpl.
    unfold fail, after_call; simpl. now rewrite Hbv.
  - rewrite Hlog. apply Forall_app. split; [exact Hquiet | now repeat constructor].
Qed.

(** *** InsertSharded: generated values *)

Lemma handleNonPrimary_trace vindexKey colVindex ksid s out s' :
  handleNonPrimary vindexKey colVindex ksid s = (out, s') ->
  exists evs,
    log s' = log s ++ evs /\ Forall quiet evs
    /\ generated_values evs = match out with Ok g => gen_list g | _ => [] end.
Proof.
  unfold handleNonPrimary. intros Hrun. run_cases Hrun.
  all: try (no_events; split; [constructor | reflexivity]).
  all: some_events; (split; [repeat constructor|]).
  all: try reflexivity.
  unfold generated_values, gen_list; simpl. now decide_zero.
Qed.

Lemma generated_values_app evs1 evs2 :
  generated_values (evs1 ++ evs2) = generated_values evs1 ++ generated_values evs2.
Proof. apply omap_app. Qed.

Lemma gen_list_length g : (length (gen_list g) <= 1)%nat.
Proof. unfold gen_list. case_decide; simpl; lia. Qed.

Lemma handlePrimary_trace vindexKey colVindex s out s' :
  handlePrimary vindexKey colVindex s = (out, s') ->
  exists evs,
    log s' = log s ++ evs /\ Forall quiet evs
    /\ match out with
       | Ok (_, g) => generated_values evs = gen_list g
       | _ => (length (generated_values evs) <= 1)%nat
       end.
Proof.
  unfold handlePrimary. intros Hrun.
  apply bind_inv in Hrun
    as [([key g] & s1 & Hvalue & Hrun)|[(e & Hvalue & ->)|(msg & Hvalue & ->)]];
    apply handlePrimary_value_trace in Hvalue as (_ & evs1 & Hlog1 & Hq1 & Hg1).
  2,3: exists evs1; rewrite Hg1; (split; [exact Hlog1|]); split; [exact Hq1 | simpl; lia].
  pose proof (gen_list_length g) as Hlen.
  assert (Hrest : exists evs2, log s' = log s1 ++ evs2 /\ Forall quiet evs2
                               /\ generated_values evs2 = []
                               /\ match out with Ok (_, g') => g' = g | _ => True end).
  { clear Hlog1. run_cases Hrun.
    all: try (no_events; split; [constructor | split; reflexivity]).
    all: some_events; (split; [repeat constructor|]); split; reflexivity. }
  destruct Hrest as (evs2 & Hlog2 & Hq2 & Hg2 & Hout).
  exists (evs1 ++ evs2). rewrite Hlog2, Hlog1, <- app_assoc. split; [reflexivity|].
  split; [rewrite Forall_app; now split|].
  rewrite generated_values_app, Hg1, Hg2, app_nil_r.
  destruct out as [[ksid g']| |]; [now subst g' | exact Hlen | exact Hlen].
Qed.

Lemma getRouting_trace keyspace tabletType ksid s out s' :
  getRouting keyspace tabletType ksid s = (out, s') ->
  exists evs, log s' = log s ++ evs /\ Forall quiet evs /\ generated_values evs = [].
Proof.
  unfold getRouting, call_getKeyspaceShards. intros Hrun. run_cases Hrun.
  all: some_events; (split; [repeat constructor | reflexivity]).
Qed.

Lemma execInsertSharded_loop_trace plan ksid todo i generated s out s' :
  execInsertSharded_loop plan ksid todo i generated s = (out, s') ->
  exists evs,
    log s' = log s ++ evs /\ Forall quiet evs
    /\ match out with
       | Ok g => gen_list generated ++ generated_values evs = gen_list g
       | Err e =>
           (length (gen_list generated ++ generated_values evs) <= 2)%nat
           /\ (length (gen_list generated ++ generated_values evs) = 2%nat ->
               e = "insert generated more than one value")
       | Panic _ => (length (gen_list generated ++ generated_values evs) <= 1)%nat
       end.
Proof.
  revert i generated s. induction todo as [|key todo IH]; intros i generated s Hrun.
  - injection Hrun as <- <-. no_events. split; [constructor|]. simpl. now rewrite app_nil_r.
  - simpl in Hrun. pose proof (gen_list_length generated) as Hlen.
    destruct (Table_ColVindexes (Plan_Table plan) !! i) as [colVindex|] eqn:Hcol.
    2:{ unfold bind, index in Hrun. rewrite Hcol in Hrun. injection Hrun as <- <-.
        no_events. split; [constructor|]. simpl. now rewrite app_nil_r. }
    unfold index in Hrun. rewrite Hcol, bind_ret in Hrun.
    apply bind_inv in Hrun
      as [(newgen & s1 & Hnon & Hrest)|[(e & Hnon & ->)|(msg & Hnon & ->)]];
      apply handleNonPrimary_trace in Hnon as (evs1 & Hlog1 & Hquiet1 & Hgen1).
    + destruct (decide (newgen = 0)) as [->|Hnew].
      * apply IH in Hrest as (evs2 & Hlog2 & Hquiet2 & Hgen2).
        exists (evs1 ++ evs2). rewrite Hlog2, Hlog1, <- app_assoc.
        split; [reflexivity|]. split; [now apply Forall_app|].
        rewrite generated_values_app, Hgen1. exact Hgen2.
      * destruct (decide (generated = 0)) as [->|Hgen].
        -- apply IH in Hrest as (evs2 & Hlog2 & Hquiet2 & Hgen2).
           exists (evs1 ++ evs2). rewrite Hlog2, Hlog1, <- app_assoc.
           split; [reflexivity|]. split; [now apply Forall_app|].
           rewrite generated_values_app, Hgen1. exact Hgen2.
        -- injection Hrest as <- <-. exists evs1.
           split; [exact Hlog1|]. split; [exact Hquiet1|].
           rewrite Hgen1. unfold gen_list.
           rewrite !decide_False by assumption. simpl. split; [lia | reflexivity].
    + exists evs1. split; [exact Hlog1|]. split; [exact Hquiet1|].
      rewrite Hgen1, app_nil_r. split; lia.
    + exists evs1. split; [exact Hlog1|]. split; [exact Hquiet1|].
      now rewrite Hgen1, app_nil_r.
Qed.

Lemma call_Execute_inv sql ks shards tabletType s out s' :
  call_Execute sql ks shards tabletType s = (out, s') ->
  exists reply w,
    s' = after_call (EvExecute sql (bindVars s) ks shards tabletType) reply w s
    /\ out = match reply with inl e => Err e | inr result => Ok result end.
Proof.
  unfold call_Execute. rewrite bind_getBindVars. intros Hrun.
  apply call_inv in Hrun as (reply & w & _ & -> & ->). eauto.
Qed.

Lemma insert_stopped_nil {A} (o : outcome A) out :
  match o with Ok _ => False | _ => True end ->
  out = match o with Ok _ => Panic "" | Err e => Err e | Panic msg => Panic msg end ->
  insert_stopped out [].
Proof.
  intros Ho ->. split; [constructor|]. split; [simpl; lia|].
  destruct o; [done | simpl; lia | simpl; lia].
Qed.

Lemma execInsertSharded_trace query plan s out s' :
  execInsertSharded query plan s = (out, s') ->
  exists evs, log s' = log s ++ evs /\ (insert_stopped out evs \/ insert_sent plan out evs).
Proof.
  unfold execInsertSharded, values_list. intros Hrun.
  assert (Hstop : forall o : outcome QueryResult,
            match o with Ok _ => False | _ => True end ->
            (o, s) = (out, s') ->
            exists evs, log s' = log s ++ evs
                        /\ (insert_stopped out evs \/ insert_sent plan out evs)).
  { intros o Ho [= <- <-]. exists []. rewrite app_nil_r. split; [done|]. left.
    apply (insert_stopped_nil o); [done | now destruct o]. }
  destruct (Plan_Values plan) as [| | | |input];
    try (apply (Hstop (Panic "interface conversion: interface {} is not []interface {}"));
         [done | exact Hrun]).
  rewrite bind_ret, bind_getBindVars in Hrun.
  destruct (resolveKeys input (bindVars s)) as [keys|e|msg];
    [| apply (Hstop (Err e)); [done | exact Hrun]
     | apply (Hstop (Panic msg)); [done | exact Hrun]].
  rewrite bind_lift_Ok in Hrun. unfold first_key in Hrun.
  destruct keys as [|key0 keys];
    [apply (Hstop (Panic "runtime error: index out of range")); [done | exact Hrun]|].
  rewrite index_head, bind_ret in Hrun.
  destruct (Table_ColVindexes (Plan_Table plan)) as [|colVindex0 colVindexes] eqn:Hcols;
    [apply (Hstop (Panic "runtime error: index out of range")); [done | exact Hrun]|].
  rewrite index_head, bind_ret in Hrun. clear Hstop.
  apply bind_inv in Hrun
    as [([ksid g0] & s1 & Hprim & Hrun)|[(e & Hprim & ->)|(msg & Hprim & ->)]];
    apply handlePrimary_trace in Hprim as (evs1 & Hlog1 & Hq1 & Hg1).
  2,3: exists evs1; (split; [exact Hlog1|]); left; (split; [exact Hq1|]);
       (split; [lia|]); first [lia | intros; lia].
  pose proof (gen_list_length g0) as Hlen0.
  apply bind_inv in Hrun
    as [([ks shard] & s2 & Hroute & Hrun)|[(e & Hroute & ->)|(msg & Hroute & ->)]];
    apply getRouting_trace in Hroute as (evs2 & Hlog2 & Hq2 & Hg2).
  2,3: exists (evs1 ++ evs2); rewrite Hlog2, Hlog1, <- app_assoc; (split; [done|]);
       left; (split; [rewrite ?Forall_app; repeat split; assumption|]);
       rewrite generated_values_app, Hg2, app_nil_r, Hg1;
       (split; [lia|]); first [lia | intros; lia].
  apply bind_inv in Hrun
    as [(g & s3 & Hloop & Hrun)|[(e & Hloop & ->)|(msg & Hloop & ->)]];
    apply execInsertSharded_loop_trace in Hloop as (evs3 & Hlog3 & Hq3 & Hg3).
  2,3: exists (evs1 ++ evs2 ++ evs3); rewrite Hlog3, Hlog2, Hlog1, <- !app_assoc;
       (split; [done|]); left; (split; [rewrite ?Forall_app; repeat split; assumption|]);
       rewrite !generated_values_app, Hg2, Hg1; simpl.
  2: { destruct Hg3 as [Hle Htwo]. split; [exact Hle | exact Htwo]. }
  2: { split; [lia | exact Hg3]. }
  rewrite bind_setBindVar in Hrun.
  apply bind_inv in Hrun
    as [(result & s4 & Hsend & Hrun)|[(e & Hsend & ->)|(msg & Hsend & ->)]];
    apply call_Execute_inv in Hsend as (reply & w4 & Hs4 & Hreply).
  all: exists ((evs1 ++ evs2 ++ evs3) ++
               [EvExecute (Plan_Rewritten plan +:+ dmlPostfix ksid)
                  (<[ksidName := VStr ksid]> (bindVars s3)) ks [shard]
                  (Query_TabletType query) reply]).
  all: assert (Hpre : Forall quiet (evs1 ++ evs2 ++ evs3)) by (rewrite ?Forall_app; repeat split; assumption).
  all: assert (Hgens : generated_values (evs1 ++ evs2 ++ evs3) = gen_list g)
         by (now rewrite !generated_values_app, Hg2, Hg1).
  - destruct reply as [e|backend]; [discriminate|]. injection Hreply as ->.
    assert (Hout : out = insert_verdict g (inr backend) /\ s' = s4).
    { unfold insert_verdict. destruct (decide (g = 0)); [now injection Hrun as <- <-|].
      destruct (decide (InsertId backend = 0)); now injection Hrun as <- <-. }
    destruct Hout as [-> ->]. subst s4. split.
    { simpl. now rewrite Hlog3, Hlog2, Hlog1, <- !app_assoc. }
    right. exists (evs1 ++ evs2 ++ evs3), ksid. do 5 eexists. exists g.
    split; [reflexivity|]. split; [exact Hpre|]. split; [apply lookup_insert_eq|].
    split; [exact Hgens | reflexivity].
  - split.
    { subst s'. simpl. now rewrite Hlog3, Hlog2, Hlog1, <- !app_assoc. }
    right. exists (evs1 ++ evs2 ++ evs3), ksid. do 5 eexists. exists g.
    split; [reflexivity|]. split; [exact Hpre|]. split; [apply lookup_insert_eq|].
    split; [exact Hgens|].
    destruct reply as [e'|backend]; [|discriminate]. now injection Hreply as ->.
  - destruct reply; discriminate.
Qed.

Lemma gen_list_cases g :
  (g = 0 /\ gen_list g = []) \/ (g <> 0 /\ gen_list g = [g]).
Proof. unfold gen_list. destruct (decide (g = 0)); [now left | now right]. Qed.

Lemma generated_values_sent pre sql bv ks shards tabletType reply :
  generated_values (pre ++ [EvExecute sql bv ks shards tabletType reply])
  = generated_values pre.
Proof. rewrite generated_values_app. simpl. apply app_nil_r. Qed.

(** C5, as amended: a ColVindex counts as having generated a value when
    its generator returned a value other than zero. If two such values
    were generated the insert fails with "insert generated more than one
    value" and nothing was dispatched. The insert succeeds exactly when
    the backend answered the dispatch of the statement, which is then
    the last call, and either no value was generated, and the result is
    the reply of the backend as it came, or exactly one value was
    generated and the backend returned insert id zero, and the result is
    the reply of the backend with the generated value as its insert id.
    If one value was generated and the backend returned an insert id
    too, the insert fails with "vindex and db generated a value each for
    insert". *)
Theorem insert_generates_at_most_one query w out s' :
  let plan := GetPlan (Query_Sql query) in
  let gens := generated_values (log s') in
  Plan_ID plan = InsertSharded ->
  Execute query w = (out, s') ->
  ((2 <= length gens)%nat ->
   out = Err "insert generated more than one value"
   /\ Forall (fun ev => is_dispatch ev = false) (log s'))
  /\ (forall result,
         out = Ok result <->
         exists pre sql bv ks shards tabletType backend,
           log s' = pre ++ [EvExecute sql bv ks shards tabletType (inr backend)]
           /\ ((gens = [] /\ result = backend)
               \/ (exists g, gens = [g] /\ InsertId backend = 0
                             /\ result = set_InsertId backend (uint64 g))))
  /\ (forall pre sql bv ks shards tabletType backend g,
         log s' = pre ++ [EvExecute sql bv ks shards tabletType (inr backend)] ->
         gens = [g] ->
         InsertId backend <> 0 ->
         out = Err "vindex and db generated a value each for insert").
Proof.
  intros plan gens Hid Hrun. unfold Execute, dispatch in Hrun. fold plan in Hrun.
  rewrite Hid in Hrun.
  apply execInsertSharded_trace in Hrun as (evs & Hlog & Htrace).
  simpl in Hlog. subst evs. fold gens in Htrace.
  destruct Htrace as [(Hquiet & Hle & Hout)
                     |(pre & ksid & bv & ks & shard & tabletType & reply & g0
                       & Hlog & Hpre & Hbv & Hgens & Hout)].
  - fold gens in Hle, Hout.
    assert (Hnone : forall pre sql bv ks shards tabletType backend,
               log s' = pre ++ [EvExecute sql bv ks shards tabletType (inr backend)] ->
               False).
    { intros pre sql bv ks shards tabletType backend Hlog.
      rewrite Hlog, Forall_app in Hquiet. destruct Hquiet as [_ Hlast].
      now inversion Hlast. }
    split; [|split].
    + intros Htwo. split; [|exact Hquiet].
      destruct out as [result|e|msg]; [done | | lia].
      f_equal. apply Hout. lia.
    + intros result. split; [intros ->; destruct Hout|].
      intros (pre & sql & bv & ks & shards & tabletType & backend & Hlog & _).
      destruct (Hnone _ _ _ _ _ _ _ Hlog).
    + intros pre sql bv ks shards tabletType backend g Hlog _ _.
      destruct (Hnone _ _ _ _ _ _ _ Hlog).
  - assert (Hgens' : gens = gen_list g0).
    { unfold gens. now rewrite Hlog, generated_values_sent. }
    assert (Hlast : forall pre' sql bv' ks' shards tabletType' backend,
               log s' = pre' ++ [EvExecute sql bv' ks' shards tabletType' (inr backend)] ->
               reply = inr backend).
    { intros pre' sql bv' ks' shards tabletType' backend Hlog'.
      rewrite Hlog in Hlog'. apply app_inj_tail in Hlog' as [_ Hev].
      now injection Hev as _ _ _ _ _ ->. }
    split; [|split].
    + intros Htwo. pose proof (gen_list_length g0). rewrite Hgens' in Htwo. lia.
    + intros result. split.
      * intros Hok. rewrite Hok in Hout. destruct reply as [e|backend]; [discriminate|].
        exists pre. do 5 eexists. exists backend. split; [exact Hlog|].
        unfold insert_verdict in Hout. rewrite Hgens'.
        destruct (gen_list_cases g0) as [[Hz ->]|[Hnz ->]].
        -- left. rewrite decide_True in Hout by exact Hz. now injection Hout as ->.
        -- right. exists g0. rewrite decide_False in Hout by exact Hnz.
           destruct (decide (InsertId backend = 0)); [|discriminate].
           now injection Hout as ->.
      * intros (pre' & sql & bv' & ks' & shards & tabletType' & backend & Hlog' & Hcases).
        rewrite (Hlast _ _ _ _ _ _ _ Hlog') in Hout. unfold insert_verdict in Hout.
        rewrite Hgens' in Hcases.
        destruct (gen_list_cases g0) as [[Hz Hg]|[Hnz Hg]]; rewrite Hg in Hcases.
        -- destruct Hcases as [[_ ->]|(g & [=] & _)].
           now rewrite decide_True in Hout by exact Hz.
        -- destruct Hcases as [[[=] _]|(g & [= <-] & Hzero & ->)].
           rewrite decide_False in Hout by exact Hnz.
           now rewrite decide_True in Hout by exact Hzero.
    + intros pre' sql bv' ks' shards tabletType' backend g Hlog' Hone Hid'.
      rewrite (Hlast _ _ _ _ _ _ _ Hlog') in Hout. rewrite Hgens' in Hone.
      destruct (gen_list_cases g0) as [[_ Hnil]|[Hnz _]];
        [rewrite Hnil in Hone; discriminate|].
      unfold insert_verdict in Hout. rewrite decide_False in Hout by exact Hnz.
      now rewrite decide_False in Hout by exact Hid'.
Qed.

(** *** DeleteEqual: the deletion protocol *)

Lemma keys_set_NoDup keys k : NoDup keys -> NoDup (keys_set keys k).
Proof.
  intros Hnd. unfold keys_set. destruct (decide (k ∈ keys)) as [Hin|Hout]; [exact Hnd|].
  apply NoDup_app. split; [exact Hnd|]. split; [|apply NoDup_singleton].
  intros v Hv Hk. apply list_elem_of_singleton in Hk. now subst v.
Qed.

Lemma keys_set_elem_of keys k v : v ∈ keys_set keys k <-> v ∈ keys \/ v = k.
Proof.
  unfold keys_set. destruct (decide (k ∈ keys)) as [Hin|Hout].
  - split; [now left | intros [Hv| ->]; assumption].
  - rewrite elem_of_app, list_elem_of_singleton. reflexivity.
Qed.

Lemma deleteVindexEntries_rows_step fields i row rest keys field cell k :
  fields !! i = Some field ->
  row !! i = Some cell ->
  Convert (Field_Type field) cell = inr k ->
  (forall l, k <> VList l) ->
  deleteVindexEntries_rows fields i (row :: rest) keys
  = deleteVindexEntries_rows fields i rest (keys_set keys (normalize_key k))
  /\ row_key fields i row = Some (normalize_key k).
Proof.
  intros Hfield Hcell Hconv Hlist. unfold row_key. simpl.
  rewrite Hfield, Hcell, Hconv. split; [|reflexivity].
  destruct k as [| | | |l]; try reflexivity. now destruct (Hlist l).
Qed.

Lemma deleteVindexEntries_rows_spec fields i rows keys0 keys :
  deleteVindexEntries_rows fields i rows keys0 = Ok keys ->
  NoDup keys0 ->
  exists vals,
    mapM (row_key fields i) rows = Some vals
    /\ NoDup keys
    /\ forall v, v ∈ keys <-> v ∈ keys0 \/ v ∈ vals.
Proof.
  revert keys0. induction rows as [|row rest IH]; intros keys0 Hrun Hnd.
  - injection Hrun as <-. exists []. split; [reflexivity|]. split; [exact Hnd|].
    intros v. rewrite elem_of_nil. tauto.
  - destruct (fields !! i) as [field|] eqn:Hfield;
      [|simpl in Hrun; rewrite Hfield in Hrun; discriminate].
    destruct (row !! i) as [cell|] eqn:Hcell;
      [|simpl in Hrun; rewrite Hfield, Hcell in Hrun; discriminate].
    destruct (Convert (Field_Type field) cell) as [e|k] eqn:Hconv;
      [simpl in Hrun; rewrite Hfield, Hcell, Hconv in Hrun; discriminate|].
    assert (Hlist : forall l, k <> VList l).
    { intros l ->. simpl in Hrun. rewrite Hfield, Hcell, Hconv in Hrun. discriminate. }
    destruct (deleteVindexEntries_rows_step fields i row rest keys0 field cell k
                Hfield Hcell Hconv Hlist) as [Hstep Hkey].
    rewrite Hstep in Hrun.
    apply IH in Hrun as (vals & Hvals & Hnd' & Hmem); [|now apply keys_set_NoDup].
    exists (normalize_key k :: vals). split; [|split; [exact Hnd'|]].
    + simpl. rewrite Hkey. simpl. now rewrite Hvals.
    + intros v. rewrite Hmem, keys_set_elem_of, elem_of_cons. tauto.
Qed.

Lemma deletes_cut_short_nil {A} ksid (out : outcome A) : deletes_cut_short ksid out [].
Proof. exists [], []. split; [reflexivity|]. split; [constructor | now left]. Qed.

Lemma deletes_cut_short_cons {A} ksid (out : outcome A) col ids u deletes :
  deletes_cut_short ksid out deletes ->
  deletes_cut_short ksid out (EvDelete col ids ksid (inr u) :: deletes).
Proof.
  intros (done & last & -> & Hdone & Hlast).
  exists (EvDelete col ids ksid (inr u) :: done), last.
  split; [reflexivity|]. split; [now constructor | exact Hlast].
Qed.

Lemma deletes_cut_short_result {A B} ksid (o : outcome A) (o' : outcome B) deletes :
  (forall e, o = Err e -> o' = Err e) ->
  deletes_cut_short ksid o deletes -> deletes_cut_short ksid o' deletes.
Proof.
  intros Herr (done & last & -> & Hdone & Hlast). exists done, last.
  split; [reflexivity|]. split; [exact Hdone|].
  destruct Hlast as [->|(ev & -> & Hfailed)]; [now left|]. right. exists ev.
  split; [reflexivity|]. destruct ev; try done. destruct reply0; [|done].
  destruct Hfailed as [-> Ho]. split; [reflexivity | now apply Herr].
Qed.

Lemma deleteVindexEntries_owned_trace result ksid owned i s out s' :
  deleteVindexEntries_owned result ksid owned i s = (out, s') ->
  bindVars s' = bindVars s
  /\ exists deletes,
      log s' = log s ++ deletes
      /\ Forall (fun ev => is_vindex_delete ev = true) deletes
      /\ (forall u, out = Ok u ->
          vindex_deletes (arranged_column result) ksid i owned deletes)
      /\ ((forall u, out <> Ok u) -> deletes_cut_short ksid out deletes).
Proof.
  revert i s. induction owned as [|colVindex owned IH]; intros i s Hrun.
  - injection Hrun as <- <-. split; [reflexivity|]. exists [].
    rewrite app_nil_r. split; [reflexivity|]. split; [constructor|].
    split; [intros _ _; constructor | intros _; apply deletes_cut_short_nil].
  - simpl in Hrun.
    assert (Hstop : forall o : outcome unit,
              (forall u, o <> Ok u) -> (o, s) = (out, s') ->
              bindVars s' = bindVars s
              /\ exists deletes,
                  log s' = log s ++ deletes
                  /\ Forall (fun ev => is_vindex_delete ev = true) deletes
                  /\ (forall u, out = Ok u ->
                      vindex_deletes (arranged_column result) ksid i
                        (colVindex :: owned) deletes)
                  /\ ((forall u, out <> Ok u) -> deletes_cut_short ksid out deletes)).
    { intros o Ho [= <- <-]. split; [reflexivity|]. exists []. rewrite app_nil_r.
      split; [reflexivity|]. split; [constructor|].
      split; [intros u Hu; now destruct (Ho u) | intros _; apply deletes_cut_short_nil]. }
    destruct (deleteVindexEntries_rows (Fields result) i (Rows result) [])
      as [keys|e|msg] eqn:Hrows;
      [| now apply (Hstop (Err e)) | now apply (Hstop (Panic msg))].
    rewrite bind_lift_Ok in Hrun.
    apply deleteVindexEntries_rows_spec in Hrows as (vals & Hvals & Hnd & Hmem);
      [|constructor].
    assert (Harranged : arranged_column result i (rangeOrder keys)).
    { exists keys. split; [reflexivity|]. exists vals. split; [exact Hvals|].
      split; [exact Hnd|]. intros v. rewrite Hmem, elem_of_nil. tauto. }
    assert (Hcall : forall Delete : list value -> KeyspaceId -> reply unit,
              bind (call (EvDelete (Col colVindex) (rangeOrder keys) ksid)
                         (Delete (rangeOrder keys) ksid))
                   (fun _ => deleteVindexEntries_owned result ksid owned (S i)) s
              = (out, s') ->
              bindVars s' = bindVars s
              /\ exists deletes,
                  log s' = log s ++ deletes
                  /\ Forall (fun ev => is_vindex_delete ev = true) deletes
                  /\ (forall u, out = Ok u ->
                      vindex_deletes (arranged_column result) ksid i
                        (colVindex :: owned) deletes)
                  /\ ((forall u, out <> Ok u) -> deletes_cut_short ksid out deletes)).
    { clear Hrun Hstop. intros Delete Hrun.
      apply bind_inv in Hrun
        as [(u & s1 & Hdel & Hrest)|[(e & Hdel & ->)|(msg & Hdel & ->)]];
        apply call_inv in Hdel as (r & w & _ & -> & Hr).
      - destruct r as [e|u']; [discriminate|]. destruct u'.
        apply IH in Hrest as (Hbv & deletes & Hlog & Hall & Hdone & Hcut).
        split; [exact Hbv|].
        exists (EvDelete (Col colVindex) (rangeOrder keys) ksid (inr tt) :: deletes).
        split; [rewrite Hlog; simpl; now rewrite <- app_assoc|].
        split; [now constructor|]. split.
        + intros u' Hu'. constructor; [exact Harranged | exact (Hdone u' Hu')].
        + intros Hfail. apply deletes_cut_short_cons. exact (Hcut Hfail).
      - destruct r as [e'|u']; [|discriminate]. injection Hr as ->.
        split; [reflexivity|]. eexists. split; [reflexivity|].
        split; [now repeat constructor|]. split; [discriminate|]. intros _.
        exists [], [EvDelete (Col colVindex) (rangeOrder keys) ksid (inl e')].
        split; [reflexivity|]. split; [constructor|]. right. eexists.
        split; [reflexivity|]. now split.
      - destruct r; discriminate. }
    destruct (Vindex_Writer (ColVindex_Vindex colVindex)) as [? Delete ?|? Delete ?|].
    + now apply (Hcall Delete).
    + now apply (Hcall Delete).
    + now apply (Hstop (Panic "unexpceted")).
Qed.

Lemma deleteVindexEntries_trace query plan ks shard ksid s out s' :
  deleteVindexEntries query plan ks shard ksid s = (out, s') ->
  bindVars s' = bindVars s
  /\ exists reply deletes,
      log s' = log s ++ EvExecute (Plan_Subquery plan) (bindVars s) ks [shard]
                          (Query_TabletType query) reply :: deletes
      /\ Forall (fun ev => is_vindex_delete ev = true) deletes
      /\ (forall u, out = Ok u ->
          delete_protocol arranged_column plan ks shard ksid (bindVars s)
            (Query_TabletType query)
            (EvExecute (Plan_Subquery plan) (bindVars s) ks [shard]
               (Query_TabletType query) reply :: deletes))
      /\ ((forall u, out <> Ok u) ->
          match reply with
          | inl e => out = Err e /\ deletes = []
          | inr _ => deletes_cut_short ksid out deletes
          end).
Proof.
  unfold deleteVindexEntries. intros Hrun.
  apply bind_inv in Hrun
    as [(result & s1 & Hsub & Hrun)|[(e & Hsub & ->)|(msg & Hsub & ->)]];
    apply call_Execute_inv in Hsub as (reply & w & -> & Hreply).
  2: { destruct reply as [e'|result]; [|discriminate]. injection Hreply as ->.
       split; [reflexivity|]. exists (inl e'), []. split; [reflexivity|].
       split; [constructor|]. split; [discriminate | now intros _]. }
  2: { destruct reply; discriminate. }
  destruct reply as [e|result']; [discriminate|]. injection Hreply as <-.
  destruct (Rows result) as [|row0 rows] eqn:Hrows.
  - injection Hrun as <- <-. split; [reflexivity|]. exists (inr result), [].
    split; [reflexivity|]. split; [constructor|]. split.
    + intros _ _. exists result, []. split; [reflexivity|]. now left.
    + intros _. apply deletes_cut_short_nil.
  - destruct (decide (length row0 = length (Table_Owned (Plan_Table plan)))).
    + apply deleteVindexEntries_owned_trace in Hrun
        as (Hbv & deletes & Hlog & Hall & Hdone & Hcut).
      split; [exact Hbv|]. exists (inr result), deletes.
      split; [rewrite Hlog; simpl; now rewrite <- app_assoc|]. split; [exact Hall|].
      split; [|exact Hcut].
      intros u Hu. exists result, deletes. split; [reflexivity|]. right.
      split; [now rewrite Hrows | exact (Hdone u Hu)].
    + injection Hrun as <- <-. split; [reflexivity|]. exists (inr result), [].
      split; [reflexivity|]. split; [constructor|].
      split; [discriminate | intros _; apply deletes_cut_short_nil].
Qed.

Lemma resolveSingleShard_trace query vindexKey plan s out s' :
  resolveSingleShard query vindexKey plan s = (out, s') ->
  bindVars s' = bindVars s
  /\ exists lookups,
      log s' = log s ++ lookups /\ Forall (fun ev => is_lookup ev = true) lookups.
Proof.
  unfold resolveSingleShard, call_getKeyspaceShards. intros Hrun. run_cases Hrun.
  all: split; [reflexivity|]; some_events; now repeat constructor.
Qed.

(** A shard resolution that succeeded looked up the topology and asked
    Map once, which answered with the keyspace id alone. *)
Lemma resolveSingleShard_mapped query vindexKey plan s ks shard ksid s' :
  resolveSingleShard query vindexKey plan s = (Ok (ks, shard, ksid), s') ->
  log s' = log s ++ [EvGetKeyspaceShards cell (plan_keyspace plan) (Query_TabletType query);
                     EvMap (Col (Plan_ColVindex plan)) [vindexKey] (inr [ksid])].
Proof.
  unfold resolveSingleShard, call_getKeyspaceShards. intros Hrun. run_cases Hrun.
  all: now rewrite <- app_assoc.
Qed.

Lemma resolveKeys_singleton val bv keys :
  resolveKeys [val] bv = Ok keys -> exists key, keys = [key].
Proof.
  unfold resolveKeys. simpl. intros Hrun.
  repeat case_match; simplify_eq/=; now eexists.
Qed.

Lemma resolved_to_run query plan s key keys s1 ks shard ksid lookups :
  resolveKeys [Plan_Values plan] (bindVars s) = Ok (key :: keys) ->
  resolveSingleShard query key plan s = (Ok (ks, shard, ksid), s1) ->
  log s1 = log s ++ lookups ->
  resolved_to plan (bindVars s) (Query_TabletType query) ksid lookups.
Proof.
  intros Hkeys Hres Hlog. apply resolveSingleShard_mapped in Hres.
  rewrite Hres in Hlog. apply app_inv_head in Hlog as <-.
  destruct (resolveKeys_singleton _ _ _ Hkeys) as [key' [= -> ->]].
  now exists key'.
Qed.

Lemma execDeleteEqual_trace query plan s out s' :
  execDeleteEqual query plan s = (out, s') ->
  exists lookups evs,
    log s' = log s ++ lookups ++ evs
    /\ Forall (fun ev => is_lookup ev = true) lookups
    /\ (delete_stopped out evs
        \/ delete_routed arranged_column plan (bindVars s) (Query_TabletType query) out
             lookups evs).
Proof.
  unfold execDeleteEqual. rewrite bind_getBindVars. intros Hrun.
  assert (Hstop : forall (o : outcome QueryResult) lookups s1,
            (o = Ok emptyResult \/ forall result, o <> Ok result) ->
            log s1 = log s ++ lookups ->
            Forall (fun ev => is_lookup ev = true) lookups ->
            (o, s1) = (out, s') ->
            exists lookups evs,
              log s' = log s ++ lookups ++ evs
              /\ Forall (fun ev => is_lookup ev = true) lookups
              /\ (delete_stopped out evs
                  \/ delete_routed arranged_column plan (bindVars s)
                       (Query_TabletType query) out lookups evs)).
  { intros o lookups s1 Ho Hlog Hall [= <- <-]. exists lookups, [].
    rewrite app_nil_r. split; [exact Hlog|]. split; [exact Hall|]. now left. }
  assert (Hnil : log s = log s ++ []) by now rewrite app_nil_r.
  destruct (resolveKeys [Plan_Values plan] (bindVars s)) as [keys|e|msg] eqn:Hkeys;
    [| apply (Hstop (Err e) [] s); [now right | exact Hnil | constructor | exact Hrun]
     | apply (Hstop (Panic msg) [] s); [now right | exact Hnil | constructor | exact Hrun]].
  rewrite bind_lift_Ok in Hrun. unfold first_key in Hrun.
  destruct keys as [|key0 keys];
    [apply (Hstop (Panic "runtime error: index out of range") [] s);
     [now right | exact Hnil | constructor | exact Hrun]|].
  rewrite index_head, bind_ret in Hrun.
  apply bind_inv in Hrun
    as [([[ks shard] ksid] & s1 & Hres & Hrun)|[(e & Hres & ->)|(msg & Hres & ->)]];
    pose proof Hres as Hmapped;
    apply resolveSingleShard_trace in Hres as (Hbv1 & lookups & Hlog1 & Hall1).
  2: now apply (Hstop (Err e) lookups s'); [right| | |].
  2: now apply (Hstop (Panic msg) lookups s'); [right| | |].
  destruct (decide (ksid = MinKey)) as [Hmin|Hmin];
    [now apply (Hstop (Ok emptyResult) lookups s1); [left| | |]|].
  clear Hstop Hnil. exists lookups.
  pose proof (resolved_to_run _ _ _ _ _ _ _ _ _ _ Hkeys Hmapped Hlog1) as Hresolved.
  assert (Hsend : forall s2 protocol,
            bindVars s2 = bindVars s ->
            log s2 = log s1 ++ protocol ->
            (if decide (Plan_Subquery plan = "") then protocol = []
             else delete_protocol arranged_column plan ks shard ksid (bindVars s)
                    (Query_TabletType query) protocol) ->
            bind (setBindVar ksidName (VStr ksid))
                 (fun _ => call_Execute (Plan_Rewritten plan +:+ dmlPostfix ksid) ks [shard]
                             (Query_TabletType query)) s2 = (out, s') ->
            exists evs,
              log s' = log s ++ lookups ++ evs
              /\ Forall (fun ev => is_lookup ev = true) lookups
              /\ (delete_stopped out evs
                  \/ delete_routed arranged_column plan (bindVars s)
                       (Query_TabletType query) out lookups evs)).
  { intros s2 protocol Hbv2 Hlog2 Hproto Hsent. rewrite bind_setBindVar in Hsent.
    apply call_Execute_inv in Hsent as (reply & w & -> & ->). simpl.
    eexists. split; [rewrite Hlog2, Hlog1, <- !app_assoc; reflexivity|].
    split; [exact Hall1|]. right. exists ksid. split; [exact Hmin|].
    split; [exact Hresolved|]. right.
    exists ks, shard, protocol, reply. rewrite Hbv2. now repeat split. }
  destruct (decide (Plan_Subquery plan = "")) as [Hsub|Hsub].
  - rewrite bind_ret in Hrun. apply (Hsend s1 []); [exact Hbv1 | | | exact Hrun].
    + now rewrite app_nil_r.
    + rewrite ?decide_True by exact Hsub. reflexivity.
  - assert (Habort : forall (o : outcome unit) reply deletes,
              (forall u, o <> Ok u) ->
              log s' = log s1 ++ EvExecute (Plan_Subquery plan) (bindVars s) ks [shard]
                                   (Query_TabletType query) reply :: deletes ->
              (forall e, o = Err e -> out = Err e) ->
              (forall result, out <> Ok result) ->
              match reply with
              | inl e => o = Err e /\ deletes = []
              | inr _ => deletes_cut_short ksid o deletes
              end ->
              exists evs,
                log s' = log s ++ lookups ++ evs
                /\ Forall (fun ev => is_lookup ev = true) lookups
                /\ (delete_stopped out evs
                    \/ delete_routed arranged_column plan (bindVars s)
                         (Query_TabletType query) out lookups evs)).
    { intros o reply deletes Ho Hlog2 Herr Hout Hcut.
      eexists. split; [rewrite Hlog2, Hlog1, <- app_assoc; reflexivity|].
      split; [exact Hall1|]. right. exists ksid. split; [exact Hmin|].
      split; [exact Hresolved|]. left. split; [exact Hsub|]. split; [exact Hout|].
      exists ks, shard, reply, deletes. split; [reflexivity|].
      destruct reply as [e|result].
      - destruct Hcut as [Ho' ->]. split; [now apply Herr | reflexivity].
      - now apply (deletes_cut_short_result ksid o out). }
    apply bind_inv in Hrun
      as [(u & s2 & Hdel & Hrun)|[(e & Hdel & ->)|(msg & Hdel & ->)]];
      apply deleteVindexEntries_trace in Hdel
        as (Hbv2 & reply & deletes & Hlog2 & Hall2 & Hdone & Hcut);
      rewrite Hbv1 in Hlog2, Hdone.
    + apply (Hsend s2 _ (eq_trans Hbv2 Hbv1) Hlog2); [|exact Hrun].
      rewrite ?decide_False by exact Hsub. exact (Hdone u eq_refl).
    + apply (Habort (Err e) reply deletes); [discriminate | exact Hlog2 | | discriminate|].
      * now intros e' [= ->].
      * apply Hcut. discriminate.
    + apply (Habort (Panic msg) reply deletes);
        [discriminate | exact Hlog2 | discriminate | discriminate|].
      apply Hcut. discriminate.
Qed.


Lemma vindex_deletes_Forall P ksid i owned evs :
  vindex_deletes P ksid i owned evs ->
  Forall (fun ev => is_vindex_delete ev = true) evs.
Proof. intros Hdel. induction Hdel; now constructor. Qed.

Lemma deletes_cut_short_Forall {A} ksid (out : outcome A) deletes :
  deletes_cut_short ksid out deletes ->
  Forall (fun ev => is_vindex_delete ev = true) deletes.
Proof.
  intros (done & last & -> & Hdone & Hlast). apply Forall_app. split.
  - eapply Forall_impl; [exact Hdone|]. intros ev Hev. destruct ev; try done.
  - destruct Hlast as [->|(ev & -> & Hev)]; [constructor|].
    constructor; [|constructor]. destruct ev; try done.
Qed.



(** *** The trace of an UpdateEqual *)

Lemma execUpdateEqual_trace query plan s out s' :
  execUpdateEqual query plan s = (out, s') ->
  exists lookups evs,
    log s' = log s ++ lookups ++ evs
    /\ Forall (fun ev => is_lookup ev = true) lookups
    /\ (evs = []
        \/ exists ksid ks shard reply,
            resolved_to plan (bindVars s) (Query_TabletType query) ksid lookups
            /\ evs = [EvExecute (Plan_Rewritten plan +:+ dmlPostfix ksid)
                        (<[ksidName := VStr ksid]> (bindVars s)) ks [shard]
                        (Query_TabletType query) reply]).
Proof.
  unfold execUpdateEqual. rewrite bind_getBindVars. intros Hrun.
  assert (Hstop : forall (o : outcome QueryResult) lookups s1,
            log s1 = log s ++ lookups ->
            Forall (fun ev => is_lookup ev = true) lookups ->
            (o, s1) = (out, s') ->
            exists lookups evs,
              log s' = log s ++ lookups ++ evs
              /\ Forall (fun ev => is_lookup ev = true) lookups
              /\ (evs = []
                  \/ exists ksid ks shard reply,
                      resolved_to plan (bindVars s) (Query_TabletType query) ksid lookups
                      /\ evs = [EvExecute (Plan_Rewritten plan +:+ dmlPostfix ksid)
                                  (<[ksidName := VStr ksid]> (bindVars s)) ks [shard]
                                  (Query_TabletType query) reply])).
  { intros o lookups s1 Hlog Hall [= <- <-]. exists lookups, [].
    rewrite app_nil_r. split; [exact Hlog|]. split; [exact Hall|]. now left. }
  assert (Hnil : log s = log s ++ []) by now rewrite app_nil_r.
  destruct (resolveKeys [Plan_Values plan] (bindVars s)) as [keys|e|msg] eqn:Hkeys;
    [| apply (Hstop (Err e) [] s); [exact Hnil | constructor | exact Hrun]
     | apply (Hstop (Panic msg) [] s); [exact Hnil | constructor | exact Hrun]].
  rewrite bind_lift_Ok in Hrun. unfold first_key in Hrun.
  destruct keys as [|key0 keys];
    [apply (Hstop (Panic "runtime error: index out of range") [] s);
     [exact Hnil | constructor | exact Hrun]|].
  rewrite index_head, bind_ret in Hrun.
  apply bind_inv in Hrun
    as [([[ks shard] ksid] & s1 & Hres & Hrun)|[(e & Hres & ->)|(msg & Hres & ->)]];
    pose proof Hres as Hmapped;
    apply resolveSingleShard_trace in Hres as (Hbv1 & lookups & Hlog1 & Hall1).
  2: now apply (Hstop (Err e) lookups s').
  2: now apply (Hstop (Panic msg) lookups s').
  destruct (decide (ksid = MinKey)) as [Hmin|Hmin];
    [now apply (Hstop (Ok emptyResult) lookups s1)|].
  pose proof (resolved_to_run _ _ _ _ _ _ _ _ _ _ Hkeys Hmapped Hlog1) as Hresolved.
  rewrite bind_setBindVar in Hrun.
  apply call_Execute_inv in Hrun as (reply & w & -> & ->). simpl.
  exists lookups. eexists. split; [rewrite Hlog1, <- app_assoc; reflexivity|].
  split; [exact Hall1|]. right. exists ksid, ks, shard, reply.
  split; [exact Hresolved | now rewrite Hbv1].
Qed.

Lemma is_lookup_quiet ev : is_lookup ev = true -> is_dispatch ev = false.
Proof. now destruct ev. Qed.

Lemma is_vindex_delete_quiet ev : is_vindex_delete ev = true -> is_dispatch ev = false.
Proof. now destruct ev. Qed.

Lemma Forall_quiet_not_dispatch (P : event -> Prop) evs ev :
  (forall ev, P ev -> is_dispatch ev = false) ->
  Forall P evs -> ev ∈ evs -> is_dispatch ev = true -> False.
Proof.
  intros HP Hall Hin Hdisp. rewrite Forall_forall in Hall.
  specialize (HP ev (Hall ev Hin)). congruence.
Qed.

End Properties.

(** ** More properties of the code *)

Section Coverage.

Context `{Collaborators}.

Implicit Types (s : state) (query : Query) (plan : Plan) (bv : gmap string value).

(** *** resolveKeys *)

(** X1: What resolveKeys answers depends on the bind variables only through
    the names the string items refer to. *)
Theorem resolveKeys_frame vals bv bv' :
  (forall first name, VStr (String first name) ∈ vals -> bv !! name = bv' !! name) ->
  resolveKeys vals bv = resolveKeys vals bv'.
Proof.
  unfold resolveKeys. generalize (@nil value) as keys.
  induction vals as [|val vals IH]; intros keys Hagree; [reflexivity|].
  assert (Hrest : forall keys', resolveKeys_loop vals bv keys'
                                = resolveKeys_loop vals bv' keys').
  { intros keys'. apply IH. intros first name Hin. apply (Hagree first name). now right. }
  destruct val as [| |[|first name]| |]; simpl; try apply Hrest; [reflexivity|].
  rewrite <- (Hagree first name) by now left.
  destruct (bv !! name); [apply Hrest | reflexivity].
Qed.

Lemma resolveKeys_loop_extends vals bv keys0 keys :
  resolveKeys_loop vals bv keys0 = Ok keys ->
  exists out, keys = keys0 ++ out /\ Forall2 (item_resolves bv) vals out.
Proof.
  revert keys0. induction vals as [|val vals IH]; intros keys0 Hrun.
  - injection Hrun as <-. exists []. now rewrite app_nil_r.
  - assert (Hpass : forall k, item_resolves bv val k ->
              resolveKeys_loop vals bv (keys0 ++ [k]) = Ok keys ->
              exists out, keys = keys0 ++ out /\ Forall2 (item_resolves bv) (val :: vals) out).
    { intros k Hk Hrest. apply IH in Hrest as (out & -> & Hall).
      exists (k :: out). rewrite <- app_assoc. split; [reflexivity | now constructor]. }
    destruct val as [|n|[|first name]|b|l]; simpl in Hrun.
    + now apply (Hpass VNil); [constructor|].
    + now apply (Hpass (VInt n)); [constructor|].
    + discriminate.
    + destruct (bv !! name) as [v|] eqn:Hlook; [|discriminate].
      now apply (Hpass v); [constructor|].
    + now apply (Hpass (VStr (string_of_list_byte b))); [constructor|].
    + now apply (Hpass (VList l)); [constructor|].
Qed.

(** A list that resolveKeys returns has the items of the input resolved
    one by one, in order, whatever the input was. *)
Theorem resolveKeys_Ok_resolves vals bv keys :
  resolveKeys vals bv = Ok keys ->
  length keys = length vals /\ Forall2 (item_resolves bv) vals keys.
Proof.
  intros Hrun. apply resolveKeys_loop_extends in Hrun as (out & -> & Hall).
  split; [|exact Hall]. symmetry. exact (Forall2_length _ _ _ Hall).
Qed.

Lemma resolveKeys_loop_split vals bv keys0 :
  match resolveKeys_loop vals bv keys0 with
  | Ok _ => True
  | Err e =>
      exists done first name rest keys,
        vals = done ++ VStr (String first name) :: rest
        /\ resolveKeys_loop done bv keys0 = Ok keys
        /\ bv !! name = None
        /\ e = "could not find bind var " +:+ String first name
  | Panic msg =>
      exists done rest keys,
        vals = done ++ VStr "" :: rest
        /\ resolveKeys_loop done bv keys0 = Ok keys
        /\ msg = "runtime error: slice bounds out of range"
  end.
Proof.
  revert keys0. induction vals as [|val vals IH]; intros keys0; [exact I|].
  assert (Hpass : forall k,
            resolveKeys_loop (val :: vals) bv keys0
            = resolveKeys_loop vals bv (keys0 ++ [k]) ->
            resolveKeys_loop [val] bv keys0 = Ok (keys0 ++ [k]) ->
            match resolveKeys_loop (val :: vals) bv keys0 with
            | Ok _ => True
            | Err e =>
                exists done first name rest keys,
                  val :: vals = done ++ VStr (String first name) :: rest
                  /\ resolveKeys_loop done bv keys0 = Ok keys
                  /\ bv !! name = None
                  /\ e = "could not find bind var " +:+ String first name
            | Panic msg =>
                exists done rest keys,
                  val :: vals = done ++ VStr "" :: rest
                  /\ resolveKeys_loop done bv keys0 = Ok keys
                  /\ msg = "runtime error: slice bounds out of range"
            end).
  { intros k -> Hone. specialize (IH (keys0 ++ [k])).
    destruct (resolveKeys_loop vals bv (keys0 ++ [k])) as [keys|e|msg]; [exact I| |].
    - destruct IH as (done & first & name & rest & keys & -> & Hdone & Hnone & ->).
      exists (val :: done), first, name, rest, keys. split; [reflexivity|].
      split; [|now split]. change (val :: done) with ([val] ++ done).
      now rewrite resolveKeys_loop_app, Hone.
    - destruct IH as (done & rest & keys & -> & Hdone & ->).
      exists (val :: done), rest, keys. split; [reflexivity|].
      split; [|reflexivity]. change (val :: done) with ([val] ++ done).
      now rewrite resolveKeys_loop_app, Hone. }
  destruct val as [|n|[|first name]|b|l].
  - now apply (Hpass VNil).
  - now apply (Hpass (VInt n)).
  - simpl. now exists [], vals, keys0.
  - destruct (bv !! name) as [v|] eqn:Hlook.
    + apply (Hpass v); simpl; now rewrite Hlook.
    + simpl. rewrite Hlook. now exists [], first, name, vals, keys0.
  - now apply (Hpass (VStr (string_of_list_byte b))).
  - now apply (Hpass (VList l)).
Qed.

(** X2: the first item that cannot be resolved decides: resolveKeys returns
    an error exactly when, after items that all resolved, it meets a
    reference whose bind variable is missing, and the error names that
    reference; it panics exactly when, after items that all resolved, it
    meets the empty string. *)
Theorem resolveKeys_first_failure vals bv :
  (forall e,
      resolveKeys vals bv = Err e <->
      exists done first name rest keys,
        vals = done ++ VStr (String first name) :: rest
        /\ resolveKeys done bv = Ok keys
        /\ bv !! name = None
        /\ e = "could not find bind var " +:+ String first name)
  /\ (forall msg,
         resolveKeys vals bv = Panic msg <->
         exists done rest keys,
           vals = done ++ VStr "" :: rest
           /\ resolveKeys done bv = Ok keys
           /\ msg = "runtime error: slice bounds out of range").
Proof.
  pose proof (resolveKeys_loop_split vals bv []) as Hsplit. fold (resolveKeys vals bv) in Hsplit.
  split.
  - intros e. split.
    + intros Hrun. rewrite Hrun in Hsplit. exact Hsplit.
    + intros (done & first & name & rest & keys & -> & Hdone & Hnone & ->).
      unfold resolveKeys in *. rewrite resolveKeys_loop_app, Hdone. simpl. now rewrite Hnone.
  - intros msg. split.
    + intros Hrun. rewrite Hrun in Hsplit. exact Hsplit.
    + intros (done & rest & keys & -> & Hdone & ->).
      unfold resolveKeys in *. now rewrite resolveKeys_loop_app, Hdone.
Qed.

(** *** getKeyRange *)

Lemma getKeyRange_loop_spec keys todo ksids :
  (exists strs, todo = VStr <$> strs /\ getKeyRange_loop keys todo ksids = Ok (ksids ++ strs))
  \/ (~ Forall is_string todo
      /\ getKeyRange_loop keys todo ksids
         = Err ("expecting strings for keyrange: " +:+ fmt_value (VList keys))).
Proof.
  revert ksids. induction todo as [|k todo IH]; intros ksids.
  - left. exists []. now rewrite app_nil_r.
  - assert (Hbad : (forall str, k <> VStr str) ->
              ~ Forall is_string (k :: todo)).
    { intros Hk Hall. inversion Hall as [|? ? [str ->] _]. now destruct (Hk str). }
    destruct k as [| |str| |]; try (right; split; [now apply Hbad | reflexivity]).
    simpl. destruct (IH (ksids ++ [str])) as [(strs & -> & Hok)|[Hnot Herr]].
    + left. exists (str :: strs). rewrite Hok, <- app_assoc. now split.
    + right. split; [|exact Herr]. intros Hall. apply Hnot. now inversion Hall.
Qed.

Lemma Forall_is_string_fmap (strs : list string) : Forall is_string (VStr <$> strs).
Proof. induction strs; constructor; [now eexists | assumption]. Qed.

(** X3: getKeyRange in full: it returns a range exactly when every key is a
    string and there are at least two, the first being the start and the
    second the end (further keys are dropped); one key that is not a
    string, wherever it stands, gives the error; and fewer than two
    keys, all strings, make it panic on the index. *)
Theorem getKeyRange_cases keys :
  match getKeyRange keys with
  | Ok kr =>
      exists lo hi rest,
        keys = VStr lo :: VStr hi :: rest /\ Forall is_string rest
        /\ kr = {| Start := lo; End := hi |}
  | Err e =>
      ~ Forall is_string keys
      /\ e = "expecting strings for keyrange: " +:+ fmt_value (VList keys)
  | Panic _ => Forall is_string keys /\ (length keys < 2)%nat
  end.
Proof.
  unfold getKeyRange.
  destruct (getKeyRange_loop_spec keys keys []) as [(strs & Hkeys & ->)|[Hnot ->]];
    [|now split].
  simpl. destruct strs as [|lo [|hi rest]]; simpl.
  - subst keys. split; [constructor | simpl; lia].
  - subst keys. split; [apply (Forall_is_string_fmap [lo]) | simpl; lia].
  - exists lo, hi, (VStr <$> rest). split; [exact Hkeys|].
    split; [apply Forall_is_string_fmap | reflexivity].
Qed.

(** *** resolveShards *)

Lemma resolveShards_unique_in_bounds allShards keys ksids i routing msg :
  (i + length ksids <= length keys)%nat ->
  resolveShards_unique allShards keys ksids i routing <> Panic msg.
Proof.
  revert i routing. induction ksids as [|ksid ksids IH]; intros i routing Hlen; [discriminate|].
  simpl in *. destruct (decide (ksid = MinKey)); [apply IH; lia|].
  destruct (getShardForKeyspaceId allShards ksid); [discriminate|].
  destruct (keys !! i) as [k|] eqn:Hk; [apply IH; lia|].
  apply lookup_ge_None in Hk. lia.
Qed.

Lemma resolveShards_ksids_in_bounds allShards keys ksids i routing msg :
  (i < length keys)%nat ->
  resolveShards_ksids allShards keys ksids i routing <> Panic msg.
Proof.
  intros Hlen. revert routing. induction ksids as [|ksid ksids IH]; intros routing; [discriminate|].
  simpl. destruct (decide (ksid = MinKey)); [apply IH|].
  destruct (getShardForKeyspaceId allShards ksid); [discriminate|].
  destruct (keys !! i) as [k|] eqn:Hk; [apply IH|].
  apply lookup_ge_None in Hk. lia.
Qed.

Lemma resolveShards_nonunique_in_bounds allShards keys ksidss i routing msg :
  (i + length ksidss <= length keys)%nat ->
  resolveShards_nonunique allShards keys ksidss i routing <> Panic msg.
Proof.
  revert i routing. induction ksidss as [|ksids ksidss IH]; intros i routing Hlen; [discriminate|].
  simpl in *.
  pose proof (resolveShards_ksids_in_bounds allShards keys ksids i routing msg) as Hone.
  destruct (resolveShards_ksids allShards keys ksids i routing);
    [apply IH; lia | discriminate | apply Hone; lia].
Qed.

(** X4: resolveShards does not panic on a plan whose vindex is Unique or
    NonUnique, as long as Map answers with no more entries than it was
    given keys: each key it adds to the routing map is then in range. *)
Theorem resolveShards_no_panic query keys plan s out s' :
  Vindex_Mapper (ColVindex_Vindex (Plan_ColVindex plan)) <> NoMapper ->
  (forall Map w ksids w',
      Vindex_Mapper (ColVindex_Vindex (Plan_ColVindex plan)) = Unique Map ->
      Map keys w = (inr ksids, w') -> (length ksids <= length keys)%nat) ->
  (forall Map w ksidss w',
      Vindex_Mapper (ColVindex_Vindex (Plan_ColVindex plan)) = NonUnique Map ->
      Map keys w = (inr ksidss, w') -> (length ksidss <= length keys)%nat) ->
  resolveShards query keys plan s = (out, s') ->
  forall msg, out <> Panic msg.
Proof.
  intros Hmapper Hunique Hnonunique Hrun msg ->.
  unfold resolveShards, call_getKeyspaceShards in Hrun.
  apply bind_inv in Hrun
    as [([ks allShards] & s1 & _ & Hrun)|[(e & _ & [=])|(msg' & Htopo & _)]].
  2: { apply call_inv in Htopo as (r & w & _ & _ & Hout). now destruct r. }
  destruct (Vindex_Mapper (ColVindex_Vindex (Plan_ColVindex plan))) as [Map|Map|] eqn:Hm;
    [| |now destruct Hmapper].
  - apply bind_inv in Hrun
      as [(ksids & s2 & Hmap & Hrun)|[(e & _ & [=])|(msg' & Hmap & _)]].
    2: { apply call_inv in Hmap as (r & w & _ & _ & Hout). now destruct r. }
    apply call_inv in Hmap as (r & w & Hreply & _ & Hout).
    destruct r as [e|ksids']; [discriminate|]. injection Hout as <-.
    specialize (Hunique Map _ _ _ eq_refl Hreply).
    pose proof (resolveShards_unique_in_bounds allShards keys ksids 0 ∅ msg Hunique) as Hin.
    unfold bind, lift in Hrun.
    destruct (resolveShards_unique allShards keys ksids 0 ∅); [discriminate..|].
    injection Hrun as -> _. now destruct Hin.
  - apply bind_inv in Hrun
      as [(ksidss & s2 & Hmap & Hrun)|[(e & _ & [=])|(msg' & Hmap & _)]].
    2: { apply call_inv in Hmap as (r & w & _ & _ & Hout). now destruct r. }
    apply call_inv in Hmap as (r & w & Hreply & _ & Hout).
    destruct r as [e|ksidss']; [discriminate|]. injection Hout as <-.
    specialize (Hnonunique Map _ _ _ eq_refl Hreply).
    pose proof (resolveShards_nonunique_in_bounds allShards keys ksidss 0 ∅ msg Hnonunique) as Hin.
    unfold bind, lift in Hrun.
    destruct (resolveShards_nonunique allShards keys ksidss 0 ∅); [discriminate..|].
    injection Hrun as -> _. now destruct Hin.
Qed.

(** *** The unsharded arm and the scatter arm *)

(** X7: the four unsharded plans go one way. A failed topology lookup is
    the answer. A keyspace with exactly one shard gets the text of the
    query as it came, not the rewritten one, with the bind variables as
    they came, on that shard, and the reply of the scatter connection is
    the answer. Any other number of shards, none included, is the error
    "unsharded keyspace ... has multiple shards" and nothing is sent. *)
Theorem unsharded_sends_query_as_is query w r w1 :
  let plan := GetPlan (Query_Sql query) in
  let bv := default ∅ (Query_BindVariables query) in
  let tabletType := Query_TabletType query in
  let lookup := EvGetKeyspaceShards cell (plan_keyspace plan) tabletType in
  Plan_ID plan = SelectUnsharded \/ Plan_ID plan = UpdateUnsharded
  \/ Plan_ID plan = DeleteUnsharded \/ Plan_ID plan = InsertUnsharded ->
  getKeyspaceShards cell (plan_keyspace plan) tabletType w = (r, w1) ->
  match r with
  | inl e => Execute query w = (Err e, {| bindVars := bv; world := w1; log := [lookup] |})
  | inr (ks, [shard]) =>
      forall reply w2,
        scatterConn_Execute (Query_Sql query) bv ks [ShardName shard] tabletType w1
        = (reply, w2) ->
        Execute query w =
          (result_of reply,
           {| bindVars := bv; world := w2;
              log := [lookup; EvExecute (Query_Sql query) bv ks [ShardName shard]
                                tabletType reply] |})
  | inr (ks, allShards) =>
      Execute query w =
        (Err ("unsharded keyspace " +:+ ks +:+ " has multiple shards: "
              +:+ fmt_shards allShards),
         {| bindVars := bv; world := w1; log := [lookup] |})
  end.
Proof.
  intros plan bv tabletType lookup Hid Htopo.
  assert (Hrun : Execute query w
                 = execUnsharded query plan {| bindVars := bv; world := w; log := [] |}).
  { unfold Execute, dispatch. fold plan bv.
    destruct Hid as [->|[->|[->| ->]]]; reflexivity. }
  rewrite Hrun. unfold execUnsharded, call_getKeyspaceShards.
  destruct r as [e|[ks allShards]].
  - erewrite bind_Err by (apply call_run_Err; exact Htopo). reflexivity.
  - erewrite bind_Ok by (apply call_run_Ok; exact Htopo). cbv beta iota.
    destruct allShards as [|shard [|shard' more]]; try reflexivity.
    intros reply w2 Hreply.
    now erewrite call_Execute_run by (simpl; exact Hreply).
Qed.

(** X8: a scatter select goes, rewritten, to all the shards the topology
    lookup returned, in their order, however many they are; a failed
    lookup is the answer. *)
Theorem scatter_sends_to_all_shards query w r w1 :
  let plan := GetPlan (Query_Sql query) in
  let bv := default ∅ (Query_BindVariables query) in
  let tabletType := Query_TabletType query in
  let lookup := EvGetKeyspaceShards cell (plan_keyspace plan) tabletType in
  Plan_ID plan = SelectScatter ->
  getKeyspaceShards cell (plan_keyspace plan) tabletType w = (r, w1) ->
  match r with
  | inl e => Execute query w = (Err e, {| bindVars := bv; world := w1; log := [lookup] |})
  | inr (ks, allShards) =>
      forall reply w2,
        scatterConn_Execute (Plan_Rewritten plan) bv ks (ShardName <$> allShards)
          tabletType w1 = (reply, w2) ->
        Execute query w =
          (result_of reply,
           {| bindVars := bv; world := w2;
              log := [lookup; EvExecute (Plan_Rewritten plan) bv ks
                                (ShardName <$> allShards) tabletType reply] |})
  end.
Proof.
  intros plan bv tabletType lookup Hid Htopo.
  unfold Execute, dispatch. fold plan bv. rewrite Hid.
  unfold execSelectScatter, call_getKeyspaceShards.
  destruct r as [e|[ks allShards]].
  - erewrite bind_Err by (apply call_run_Err; exact Htopo). reflexivity.
  - erewrite bind_Ok by (apply call_run_Ok; exact Htopo). cbv beta iota.
    intros reply w2 Hreply.
    now erewrite call_Execute_run by (simpl; exact Hreply).
Qed.

(** *** The select arms on keys that map to MinKey *)

Lemma resolveShards_unique_all_MinKey allShards keys ksids i routing :
  Forall (fun ksid => ksid = MinKey) ksids ->
  resolveShards_unique allShards keys ksids i routing = Ok routing.
Proof.
  intros Hall. revert i. induction Hall as [|ksid ksids -> _ IH]; intros i; [reflexivity|].
  simpl. apply IH.
Qed.

(** X9: a SelectEqual whose key the unique vindex maps to MinKey is not cut
    short the way the DML arms are: the scatter connection is still
    called, with the rewritten query and no shard at all, and its reply
    is the answer. *)
Theorem select_equal_MinKey_sends_to_no_shard query w key Map ks allShards w1 ksids w2
    reply w3 :
  let plan := GetPlan (Query_Sql query) in
  let bv := default ∅ (Query_BindVariables query) in
  let tabletType := Query_TabletType query in
  Plan_ID plan = SelectEqual ->
  resolveKeys [Plan_Values plan] bv = Ok [key] ->
  getKeyspaceShards cell (plan_keyspace plan) tabletType w = (inr (ks, allShards), w1) ->
  Vindex_Mapper (ColVindex_Vindex (Plan_ColVindex plan)) = Unique Map ->
  Map [key] w1 = (inr ksids, w2) ->
  Forall (fun ksid => ksid = MinKey) ksids ->
  scatterConn_Execute (Plan_Rewritten plan) bv ks [] tabletType w2 = (reply, w3) ->
  Execute query w =
    (result_of reply,
     {| bindVars := bv; world := w3;
        log := [EvGetKeyspaceShards cell (plan_keyspace plan) tabletType;
                EvMap (Col (Plan_ColVindex plan)) [key] (inr ksids);
                EvExecute (Plan_Rewritten plan) bv ks [] tabletType reply] |}).
Proof.
  intros plan bv tabletType Hid Hkeys Htopo Hmapper Hmap Hmin Hreply.
  unfold Execute, dispatch. fold plan bv. rewrite Hid.
  unfold execSelectEqual. rewrite bind_getBindVars. simpl bindVars. rewrite Hkeys.
  rewrite bind_lift_Ok.
  assert (Hres : resolveShards query [key] plan {| bindVars := bv; world := w; log := [] |}
                 = (Ok (ks, ∅),
                    {| bindVars := bv; world := w2;
                       log := [EvGetKeyspaceShards cell (plan_keyspace plan) tabletType;
                               EvMap (Col (Plan_ColVindex plan)) [key] (inr ksids)] |})).
  { unfold resolveShards, call_getKeyspaceShards.
    erewrite bind_Ok by (apply call_run_Ok; exact Htopo). cbv beta iota.
    rewrite Hmapper.
    erewrite bind_Ok by (apply call_run_Ok; exact Hmap).
    now rewrite resolveShards_unique_all_MinKey by exact Hmin. }
  unfold bind at 1, discard_err. rewrite Hres. cbv beta iota.
  rewrite routingMap_Shards_nil.
  now erewrite call_Execute_run by (simpl; exact Hreply).
Qed.

(** *** What the arms that only read do to the statement *)

Ltac run_cases Hrun :=
  unfold call, index in Hrun; unfold check in Hrun;
  unfold bind, ret, fail, panic, lift, setBindVar, getBindVars in Hrun;
  repeat case_match; simplify_eq/=.

Ltac some_events :=
  eexists; split;
  [simpl;
   repeat match goal with
          | |- (?l ++ ?m) ++ ?n = _ => rewrite <- (app_assoc l m n)
          end; reflexivity|].

Ltac no_events := exists []; rewrite app_nil_r; split; [reflexivity|].

Ltac read_arm_done :=
  split; [reflexivity|]; intros result' Hok;
  first [discriminate Hok
        | injection Hok as <-; eexists _, _; split; [reflexivity | reflexivity]].

Lemma execUnsharded_post query plan s out s' :
  execUnsharded query plan s = (out, s') ->
  bindVars s' = bindVars s
  /\ forall result, out = Ok result ->
       exists pre ev, log s' = pre ++ [ev] /\ dispatch_reply ev = Some (inr result).
Proof.
  unfold execUnsharded, call_Execute, call_getKeyspaceShards. intros Hrun.
  run_cases Hrun; read_arm_done.
Qed.

Lemma execSelectScatter_post query plan s out s' :
  execSelectScatter query plan s = (out, s') ->
  bindVars s' = bindVars s
  /\ forall result, out = Ok result ->
       exists pre ev, log s' = pre ++ [ev] /\ dispatch_reply ev = Some (inr result).
Proof.
  unfold execSelectScatter, call_Execute, call_getKeyspaceShards. intros Hrun.
  run_cases Hrun; read_arm_done.
Qed.

Lemma execSelectKeyrange_post query plan s out s' :
  execSelectKeyrange query plan s = (out, s') ->
  bindVars s' = bindVars s
  /\ forall result, out = Ok result ->
       exists pre ev, log s' = pre ++ [ev] /\ dispatch_reply ev = Some (inr result).
Proof.
  unfold execSelectKeyrange, values_list, call_Execute, call_mapExactShards. intros Hrun.
  run_cases Hrun; read_arm_done.
Qed.

Lemma resolveShards_trace query keys plan s out s' :
  resolveShards query keys plan s = (out, s') ->
  bindVars s' = bindVars s
  /\ exists lookups,
      log s' = log s ++ lookups /\ Forall (fun ev => is_lookup ev = true) lookups.
Proof.
  unfold resolveShards, call_getKeyspaceShards. intros Hrun. run_cases Hrun.
  all: split; [reflexivity|]; some_events; now repeat constructor.
Qed.

Lemma discard_err_inv {A} (m : M A) (zero : A) s out s' :
  discard_err m zero s = (out, s') ->
  exists out0, m s = (out0, s') /\ forall msg, out <> Err msg.
Proof.
  unfold discard_err. destruct (m s) as [[a|e|msg] s1]; intros [= <- <-];
    eexists; (split; [reflexivity | discriminate]).
Qed.

Lemma execSelectEqual_post query plan s out s' :
  execSelectEqual query plan s = (out, s') ->
  bindVars s' = bindVars s
  /\ forall result, out = Ok result ->
       exists pre ev, log s' = pre ++ [ev] /\ dispatch_reply ev = Some (inr result).
Proof.
  unfold execSelectEqual. rewrite bind_getBindVars. intros Hrun.
  destruct (resolveKeys [Plan_Values plan] (bindVars s)) as [keys|e|msg];
    [|injection Hrun as <- <-; now split..].
  rewrite bind_lift_Ok in Hrun.
  apply bind_inv in Hrun
    as [([ks routing] & s1 & Hres & Hrun)|[(e & Hres & ->)|(msg & Hres & ->)]];
    apply discard_err_inv in Hres as (out0 & Hres & _);
    apply resolveShards_trace in Hres as (Hbv & _); [|now split..].
  apply call_Execute_inv in Hrun as (reply & w & -> & ->). split; [exact Hbv|].
  intros result Hok. destruct reply as [e|result']; [discriminate|].
  injection Hok as <-. now eexists _, _.
Qed.

Lemma execSelectIN_post query plan s out s' :
  execSelectIN query plan s = (out, s') ->
  bindVars s' = bindVars s
  /\ forall result, out = Ok result ->
       exists pre ev, log s' = pre ++ [ev] /\ dispatch_reply ev = Some (inr result).
Proof.
  unfold execSelectIN, values_list. intros Hrun.
  destruct (Plan_Values plan) as [| | | |vals];
    try (injection Hrun as <- <-; now split).
  rewrite bind_ret, bind_getBindVars in Hrun.
  destruct (resolveKeys vals (bindVars s)) as [keys|e|msg];
    [|injection Hrun as <- <-; now split..].
  rewrite bind_lift_Ok in Hrun.
  apply bind_inv in Hrun
    as [([ks routing] & s1 & Hres & Hrun)|[(e & Hres & ->)|(msg & Hres & ->)]];
    apply discard_err_inv in Hres as (out0 & Hres & _);
    apply resolveShards_trace in Hres as (Hbv & _); [|now split..].
  unfold call_ExecuteMulti in Hrun.
  apply call_inv in Hrun as (reply & w & _ & -> & ->). split; [exact Hbv|].
  intros result Hok. destruct reply as [e|result']; [discriminate|].
  injection Hok as <-. now eexists _, _.
Qed.

(** X11: only UpdateEqual, DeleteEqual and InsertSharded write into the bind
    variables of the query: after any other statement, however it ended,
    they are what they were (the empty map when the query had none). *)
Theorem reads_keep_bind_variables query w out s' :
  let plan := GetPlan (Query_Sql query) in
  Plan_ID plan <> UpdateEqual ->
  Plan_ID plan <> DeleteEqual ->
  Plan_ID plan <> InsertSharded ->
  Execute query w = (out, s') ->
  bindVars s' = default ∅ (Query_BindVariables query).
Proof.
  intros plan Hupdate Hdelete Hinsert Hrun. unfold Execute, dispatch in Hrun.
  fold plan in Hrun. destruct (Plan_ID plan); try done.
  - now injection Hrun as _ <-.
  - now apply execUnsharded_post in Hrun as [-> _].
  - now apply execSelectEqual_post in Hrun as [-> _].
  - now apply execSelectIN_post in Hrun as [-> _].
  - now apply execSelectKeyrange_post in Hrun as [-> _].
  - now apply execSelectScatter_post in Hrun as [-> _].
  - now apply execUnsharded_post in Hrun as [-> _].
  - now apply execUnsharded_post in Hrun as [-> _].
  - now apply execUnsharded_post in Hrun as [-> _].
Qed.

(** *** The columns of an insert *)

Lemma handleNonPrimary_post vindexKey colVindex ksid s out s' :
  handleNonPrimary vindexKey colVindex ksid s = (out, s') ->
  (exists evs, log s' = log s ++ evs /\ Forall (secondary_event ksid) evs)
  /\ match out with
     | Ok generated =>
         exists v,
           v <> VNil
           /\ bindVars s' = <["_" +:+ Col colVindex := v]> (bindVars s)
           /\ (vindexKey <> VNil -> v = vindexKey /\ generated = 0)
           /\ (generated <> 0 ->
               vindexKey = VNil /\ ColVindex_Owned colVindex = true
               /\ v = VInt generated)
     | _ => bindVars s' = bindVars s
     end.
Proof.
  unfold handleNonPrimary. intros Hrun. run_cases Hrun.
  all: split;
    [first [no_events; constructor | some_events; repeat constructor; reflexivity]|].
  all: try reflexivity.
  all: eexists; split; [|split; [reflexivity|split]];
    first [assumption | discriminate | intros; repeat split; congruence].
Qed.

(** X13: What handleNonPrimary leaves behind. When it succeeds it has bound
    a value that is not nil to the variable "_" + column: the supplied
    value whenever one was supplied, and then nothing counts as
    generated; a value counts as generated only for an owned column
    whose value was missing, and it is the value bound. When it fails
    the bind variables are untouched. Each call it makes to the vindex
    carries the keyspace id of the row. *)
Theorem handleNonPrimary_echoes vindexKey colVindex ksid s out s' :
  handleNonPrimary vindexKey colVindex ksid s = (out, s') ->
  (exists evs, log s' = log s ++ evs /\ Forall (secondary_event ksid) evs)
  /\ match out with
     | Ok generated =>
         exists v,
           v <> VNil
           /\ bindVars s' = <["_" +:+ Col colVindex := v]> (bindVars s)
           /\ (vindexKey <> VNil -> v = vindexKey /\ generated = 0)
           /\ (generated <> 0 ->
               vindexKey = VNil /\ ColVindex_Owned colVindex = true
               /\ v = VInt generated)
     | _ => bindVars s' = bindVars s
     end.
Proof. apply handleNonPrimary_post. Qed.

Lemma handlePrimary_value_post vindexKey colVindex s out s1 :
  handlePrimary_value vindexKey colVindex s = (out, s1) ->
  bindVars s1 = bindVars s
  /\ (exists evs, log s1 = log s ++ evs /\ Forall primary_event evs)
  /\ match out with
     | Ok (v, generated) =>
         (vindexKey <> VNil -> v = vindexKey /\ generated = 0)
         /\ (vindexKey = VNil ->
             (ColVindex_Owned colVindex = true /\ v = VInt generated)
             \/ (v = VNil /\ generated = 0))
     | _ => True
     end.
Proof.
  unfold handlePrimary_value. intros Hrun. run_cases Hrun.
  all: split; [reflexivity|].
  all: split;
    [first [no_events; constructor | some_events; repeat constructor; reflexivity]|].
  all: try exact I.
  all: split; intros; first [congruence | split; congruence | left; split; congruence
                            | right; split; congruence].
Qed.

Lemma handlePrimary_post vindexKey colVindex s out s' :
  handlePrimary vindexKey colVindex s = (out, s') ->
  (exists evs, log s' = log s ++ evs /\ Forall primary_event evs)
  /\ match out with
     | Ok (ksid, generated) =>
         ksid <> MinKey
         /\ exists v,
             v <> VNil
             /\ bindVars s' = <["_" +:+ Col colVindex := v]> (bindVars s)
             /\ (vindexKey <> VNil -> v = vindexKey /\ generated = 0)
             /\ (vindexKey = VNil ->
                 ColVindex_Owned colVindex = true /\ v = VInt generated)
     | _ => bindVars s' = bindVars s
     end.
Proof.
  unfold handlePrimary. intros Hrun.
  apply bind_inv in Hrun
    as [([v g] & s1 & Hvalue & Hrun)|[(e & Hvalue & ->)|(msg & Hvalue & ->)]];
    apply handlePrimary_value_post in Hvalue as (Hbv1 & (evs1 & Hlog1 & Hev1) & Hpost).
  2,3: split; [eauto | exact Hbv1].
  destruct Hpost as [Hsupplied Hmissing].
  assert (Hrest :
    (exists evs, log s' = log s1 ++ evs /\ Forall primary_event evs)
    /\ match out with
       | Ok (ksid, generated) =>
           ksid <> MinKey /\ generated = g /\ v <> VNil
           /\ bindVars s' = <["_" +:+ Col colVindex := v]> (bindVars s1)
       | _ => bindVars s' = bindVars s1
       end).
  { clear Hlog1 Hbv1 Hsupplied Hmissing. run_cases Hrun.
    all: split;
      [first [no_events; constructor | some_events; repeat constructor; reflexivity]|].
    all: try reflexivity.
    now repeat split. }
  destruct Hrest as [(evs2 & Hlog2 & Hev2) Hout]. split.
  - exists (evs1 ++ evs2). rewrite Hlog2, Hlog1, <- app_assoc. split; [reflexivity|].
    rewrite Forall_app. now split.
  - destruct out as [[ksid g']| |]; [|congruence..].
    destruct Hout as (Hmin & -> & Hnil & Hbv). split; [exact Hmin|].
    exists v. split; [exact Hnil|]. split; [now rewrite Hbv, Hbv1|].
    split; [exact Hsupplied|]. intros Hkey.
    destruct (Hmissing Hkey) as [Hgen|[Hv _]]; [exact Hgen | now destruct Hnil].
Qed.

(** X12: What handlePrimary leaves behind. When it succeeds the keyspace id
    it returns is not MinKey, and it has bound a value that is not nil
    to the variable "_" + column: the supplied value, with nothing
    generated, or, for an owned column whose value was missing, the
    value the generator returned. When it fails the bind variables are
    untouched. None of its calls carries a keyspace id. *)
Theorem handlePrimary_routes vindexKey colVindex s out s' :
  handlePrimary vindexKey colVindex s = (out, s') ->
  (exists evs, log s' = log s ++ evs /\ Forall primary_event evs)
  /\ match out with
     | Ok (ksid, generated) =>
         ksid <> MinKey
         /\ exists v,
             v <> VNil
             /\ bindVars s' = <["_" +:+ Col colVindex := v]> (bindVars s)
             /\ (vindexKey <> VNil -> v = vindexKey /\ generated = 0)
             /\ (vindexKey = VNil ->
                 ColVindex_Owned colVindex = true /\ v = VInt generated)
     | _ => bindVars s' = bindVars s
     end.
Proof. apply handlePrimary_post. Qed.

Lemma handlePrimary_value_events vindexKey colVindex s out s1 :
  handlePrimary_value vindexKey colVindex s = (out, s1) ->
  exists values, log s1 = log s ++ values /\ Forall value_event values.
Proof.
  unfold handlePrimary_value. intros Hrun. run_cases Hrun.
  all: first [no_events; constructor | some_events; repeat constructor; reflexivity].
Qed.

(** A handlePrimary that succeeded asked Map last, for the one value of
    the column, and returns the first keyspace id of the answer. *)
Lemma handlePrimary_mapped vindexKey colVindex s ksid generated s' :
  handlePrimary vindexKey colVindex s = (Ok (ksid, generated), s') ->
  exists values key ksids,
    log s' = log s ++ values ++ [EvMap (Col colVindex) [key] (inr ksids)]
    /\ Forall value_event values
    /\ ksids !! 0%nat = Some ksid.
Proof.
  unfold handlePrimary. intros Hrun.
  apply bind_inv in Hrun
    as [([v g] & s1 & Hvalue & Hrun)|[(e & _ & [=])|(msg & _ & [=])]].
  apply handlePrimary_value_events in Hvalue as (values & Hlog1 & Hvalues).
  exists values, v.
  assert (Hrest : exists ksids,
            log s' = log s1 ++ [EvMap (Col colVindex) [v] (inr ksids)]
            /\ ksids !! 0%nat = Some ksid).
  { clear Hlog1. run_cases Hrun. now eexists. }
  destruct Hrest as (ksids & Hlog2 & Hksid). exists ksids.
  split; [now rewrite Hlog2, Hlog1, <- app_assoc|]. now split.
Qed.

Lemma getRouting_post keyspace tabletType ksid s out s' :
  getRouting keyspace tabletType ksid s = (out, s') ->
  bindVars s' = bindVars s
  /\ log s' = log s ++ [EvGetKeyspaceShards cell keyspace tabletType].
Proof.
  unfold getRouting, call_getKeyspaceShards. intros Hrun. run_cases Hrun; now split.
Qed.

Lemma execInsertSharded_loop_post plan ksid todo i generated s out s' :
  execInsertSharded_loop plan ksid todo i generated s = (out, s') ->
  (exists evs, log s' = log s ++ evs /\ Forall (secondary_event ksid) evs)
  /\ untouched plan (bindVars s) (bindVars s').
Proof.
  revert i generated s. induction todo as [|key todo IH]; intros i generated s Hrun.
  - injection Hrun as <- <-. split; [|now intros name _]. no_events. constructor.
  - simpl in Hrun.
    destruct (Table_ColVindexes (Plan_Table plan) !! i) as [colVindex|] eqn:Hcol.
    2:{ unfold bind, index in Hrun. rewrite Hcol in Hrun. injection Hrun as <- <-.
        split; [|now intros name _]. no_events. constructor. }
    apply list_elem_of_lookup_2 in Hcol as Hin.
    unfold index in Hrun. rewrite Hcol, bind_ret in Hrun.
    assert (Hone : forall out1 s1,
              handleNonPrimary key colVindex ksid s = (out1, s1) ->
              (exists evs, log s1 = log s ++ evs /\ Forall (secondary_event ksid) evs)
              /\ untouched plan (bindVars s) (bindVars s1)).
    { intros out1 s1 Hnon. apply handleNonPrimary_post in Hnon as [Hevs Hpost].
      split; [exact Hevs|]. intros name Hname.
      destruct out1 as [g| |]; [|now rewrite Hpost..].
      destruct Hpost as (v & _ & -> & _). apply lookup_insert_ne.
      intros Heq. now apply (Hname colVindex Hin). }
    assert (Hnext : forall g s1,
              (exists evs, log s1 = log s ++ evs /\ Forall (secondary_event ksid) evs)
              /\ untouched plan (bindVars s) (bindVars s1) ->
              execInsertSharded_loop plan ksid todo (S i) g s1 = (out, s') ->
              (exists evs, log s' = log s ++ evs /\ Forall (secondary_event ksid) evs)
              /\ untouched plan (bindVars s) (bindVars s')).
    { intros g s1 [(evs1 & Hlog1 & Hev1) Hbv1] Hrest.
      apply IH in Hrest as [(evs2 & Hlog2 & Hev2) Hbv2]. split.
      - exists (evs1 ++ evs2). rewrite Hlog2, Hlog1, <- app_assoc.
        split; [reflexivity|]. rewrite Forall_app. now split.
      - intros name Hname. now rewrite (Hbv2 name Hname), (Hbv1 name Hname). }
    apply bind_inv in Hrun
      as [(newgen & s1 & Hnon & Hrest)|[(e & Hnon & ->)|(msg & Hnon & ->)]];
      [|now apply (Hone _ _ Hnon)..].
    apply Hone in Hnon.
    destruct (decide (newgen = 0)); [now apply (Hnext generated s1)|].
    destruct (decide (generated = 0)); [now apply (Hnext newgen s1)|].
    now injection Hrest as <- <-.
Qed.

Lemma execInsertSharded_shape query plan s out s' :
  execInsertSharded query plan s = (out, s') ->
  (exists primary rest,
      log s' = log s ++ primary ++ rest
      /\ Forall primary_event primary
      /\ (rest = []
          \/ exists ksid secondaries final,
              ksid <> MinKey
              /\ insert_mapped plan ksid primary
              /\ rest = EvGetKeyspaceShards cell (plan_keyspace plan) (Query_TabletType query)
                        :: secondaries ++ final
              /\ Forall (secondary_event ksid) secondaries
              /\ (final = []
                  \/ exists bv ks shard reply,
                      final = [EvExecute (Plan_Rewritten plan +:+ dmlPostfix ksid) bv ks
                                 [shard] (Query_TabletType query) reply]
                      /\ bv !! ksidName = Some (VStr ksid))))
  /\ forall name, name <> ksidName ->
       (forall colVindex,
           colVindex ∈ Table_ColVindexes (Plan_Table plan) ->
           name <> "_" +:+ Col colVindex) ->
       bindVars s' !! name = bindVars s !! name.
Proof.
  unfold execInsertSharded, values_list. intros Hrun.
  assert (Hstop : forall o : outcome QueryResult, (o, s) = (out, s') ->
            (exists primary rest,
                log s' = log s ++ primary ++ rest
                /\ Forall primary_event primary
                /\ (rest = []
                    \/ exists ksid secondaries final,
                        ksid <> MinKey
                        /\ insert_mapped plan ksid primary
                        /\ rest = EvGetKeyspaceShards cell (plan_keyspace plan)
                                    (Query_TabletType query) :: secondaries ++ final
                        /\ Forall (secondary_event ksid) secondaries
                        /\ (final = []
                            \/ exists bv ks shard reply,
                                final = [EvExecute (Plan_Rewritten plan +:+ dmlPostfix ksid)
                                           bv ks [shard] (Query_TabletType query) reply]
                                /\ bv !! ksidName = Some (VStr ksid))))
            /\ forall name, name <> ksidName ->
                 (forall colVindex,
                     colVindex ∈ Table_ColVindexes (Plan_Table plan) ->
                     name <> "_" +:+ Col colVindex) ->
                 bindVars s' !! name = bindVars s !! name).
  { intros o [= <- <-]. split; [|reflexivity]. exists [], [].
    rewrite !app_nil_r. split; [reflexivity|]. split; [constructor | now left]. }
  destruct (Plan_Values plan) as [| | | |input]; try (eapply Hstop; exact Hrun).
  rewrite bind_ret, bind_getBindVars in Hrun.
  destruct (resolveKeys input (bindVars s)) as [keys|e|msg];
    [|eapply Hstop; exact Hrun..].
  rewrite bind_lift_Ok in Hrun. unfold first_key in Hrun.
  destruct keys as [|key0 keys]; [eapply Hstop; exact Hrun|].
  rewrite index_head, bind_ret in Hrun.
  destruct (Table_ColVindexes (Plan_Table plan)) as [|colVindex0 colVindexes] eqn:Hcols;
    [eapply Hstop; exact Hrun|].
  rewrite index_head, bind_ret in Hrun. clear Hstop.
  assert (Hin0 : colVindex0 ∈ colVindex0 :: colVindexes) by now left.
  apply bind_inv in Hrun
    as [([ksid g0] & s1 & Hprim & Hrun)|[(e & Hprim & ->)|(msg & Hprim & ->)]];
    pose proof Hprim as Hprim0;
    apply handlePrimary_post in Hprim as [(evs1 & Hlog1 & Hev1) Hpost1].
  2,3: split; [|intros name _ _; now rewrite Hpost1];
       exists evs1, []; rewrite app_nil_r; split; [exact Hlog1|]; split; [exact Hev1 | now left].
  destruct Hpost1 as (Hmin & v0 & _ & Hbv1 & _).
  assert (Hmapped : insert_mapped plan ksid evs1).
  { apply handlePrimary_mapped in Hprim0 as (values & key & ksids & Hlogm & Hvalues & Hksid).
    rewrite Hlog1 in Hlogm. apply app_inv_head in Hlogm as ->.
    exists colVindex0, values, key, ksids. rewrite Hcols. now repeat split. }
  assert (Hframe1 : forall name,
            (forall colVindex, colVindex ∈ colVindex0 :: colVindexes ->
                               name <> "_" +:+ Col colVindex) ->
            bindVars s1 !! name = bindVars s !! name).
  { intros name Hname. rewrite Hbv1. apply lookup_insert_ne.
    intros Heq. now apply (Hname colVindex0 Hin0). }
  apply bind_inv in Hrun
    as [([ks shard] & s2 & Hroute & Hrun)|[(e & Hroute & ->)|(msg & Hroute & ->)]];
    apply getRouting_post in Hroute as [Hbv2 Hlog2].
  2,3: split; [|intros name _ Hname; rewrite Hbv2; now apply Hframe1];
       exists evs1; eexists; split; [rewrite Hlog2, Hlog1, <- app_assoc; reflexivity|];
       split; [exact Hev1|]; right; exists ksid, [], [];
       split; [exact Hmin|]; split; [exact Hmapped|]; split; [reflexivity|];
       split; [constructor | now left].
  assert (Hloop : forall out3 s3,
            execInsertSharded_loop plan ksid (drop 1 (key0 :: keys)) 1 g0 s2 = (out3, s3) ->
            (exists evs3, log s3 = log s ++ evs1
                                   ++ EvGetKeyspaceShards cell (plan_keyspace plan)
                                        (Query_TabletType query) :: evs3
                          /\ Forall (secondary_event ksid) evs3)
            /\ forall name,
                (forall colVindex, colVindex ∈ colVindex0 :: colVindexes ->
                                   name <> "_" +:+ Col colVindex) ->
                bindVars s3 !! name = bindVars s !! name).
  { intros out3 s3 Hloop. apply execInsertSharded_loop_post in Hloop
      as [(evs3 & Hlog3 & Hev3) Hbv3]. split.
    - exists evs3. rewrite Hlog3, Hlog2, Hlog1, <- !app_assoc. now split.
    - intros name Hname. unfold untouched in Hbv3. rewrite Hcols in Hbv3.
      rewrite (Hbv3 name Hname), Hbv2. now apply Hframe1. }
  apply bind_inv in Hrun
    as [(g & s3 & Hrest & Hrun)|[(e & Hrest & ->)|(msg & Hrest & ->)]];
    apply Hloop in Hrest as [(evs3 & Hlog3 & Hev3) Hframe3].
  2,3: split; [|intros name _ Hname; now apply Hframe3];
       exists evs1; eexists; split; [exact Hlog3|];
       split; [exact Hev1|]; right; exists ksid, evs3, [];
       split; [exact Hmin|]; split; [exact Hmapped|]; split; [now rewrite app_nil_r|];
       split; [exact Hev3 | now left].
  rewrite bind_setBindVar in Hrun.
  assert (Hsent : exists reply w4,
            s' = after_call (EvExecute (Plan_Rewritten plan +:+ dmlPostfix ksid)
                               (<[ksidName := VStr ksid]> (bindVars s3)) ks [shard]
                               (Query_TabletType query)) reply w4
                   {| bindVars := <[ksidName := VStr ksid]> (bindVars s3);
                      world := world s3; log := log s3 |}).
  { apply bind_inv in Hrun
      as [(result & s4 & Hsend & Hrun)|[(e & Hsend & _)|(msg & Hsend & _)]];
      apply call_Execute_inv in Hsend as (reply & w4 & Hs4 & _); [|eauto..].
    exists reply, w4.
    destruct (decide (g = 0)); [injection Hrun as _ <-; exact Hs4|].
    destruct (decide (InsertId result = 0)); injection Hrun as _ <-; exact Hs4. }
  destruct Hsent as (reply & w4 & ->). simpl. split.
  - exists evs1.
    exists (EvGetKeyspaceShards cell (plan_keyspace plan) (Query_TabletType query)
            :: evs3
            ++ [EvExecute (Plan_Rewritten plan +:+ dmlPostfix ksid)
                  (<[ksidName := VStr ksid]> (bindVars s3)) ks [shard]
                  (Query_TabletType query) reply]).
    split; [rewrite Hlog3, <- !app_assoc; reflexivity|].
    split; [exact Hev1|]. right. exists ksid, evs3. eexists.
    split; [exact Hmin|]. split; [exact Hmapped|]. split; [reflexivity|].
    split; [exact Hev3|]. right. eexists _, _, _, _.
    split; [reflexivity | apply lookup_insert_eq].
  - intros name Hksid Hname. rewrite lookup_insert_ne by congruence.
    now apply Hframe3.
Qed.

(** *** What the equal-predicate DML arms do to the statement *)

Lemma equal_dml_send ksid ks shard sql tabletType s0 s2 evs out s' :
  ksid <> MinKey ->
  bindVars s2 = bindVars s0 ->
  log s2 = log s0 ++ evs ->
  bind (setBindVar ksidName (VStr ksid))
       (fun _ => call_Execute sql ks [shard] tabletType) s2 = (out, s') ->
  exists evs', log s' = log s0 ++ evs'
               /\ equal_dml_post (bindVars s0) out (bindVars s') evs'.
Proof.
  intros Hmin Hbv Hlog Hrun. rewrite bind_setBindVar in Hrun.
  apply call_Execute_inv in Hrun as (reply & w & -> & ->). simpl.
  eexists. split; [rewrite Hlog, <- app_assoc; reflexivity|]. right.
  exists ksid, evs. eexists. exists reply. rewrite Hbv. now repeat split.
Qed.

Lemma equal_dml_stop (o : outcome QueryResult) s0 s1 lookups out s' :
  (o = Ok emptyResult \/ forall result, o <> Ok result) ->
  bindVars s1 = bindVars s0 ->
  log s1 = log s0 ++ lookups ->
  Forall (fun ev => is_lookup ev = true) lookups ->
  (o, s1) = (out, s') ->
  exists evs', log s' = log s0 ++ evs'
               /\ equal_dml_post (bindVars s0) out (bindVars s') evs'.
Proof.
  intros Ho Hbv Hlog Hall [= <- <-]. exists lookups. split; [exact Hlog|]. left.
  split; [exact Hbv|]. intros result ->.
  destruct Ho as [[= ->]|Ho]; [now split | now destruct (Ho result)].
Qed.

Lemma execUpdateEqual_post query plan s out s' :
  execUpdateEqual query plan s = (out, s') ->
  exists evs, log s' = log s ++ evs /\ equal_dml_post (bindVars s) out (bindVars s') evs.
Proof.
  unfold execUpdateEqual. rewrite bind_getBindVars. intros Hrun.
  assert (Hnil : log s = log s ++ []) by now rewrite app_nil_r.
  destruct (resolveKeys [Plan_Values plan] (bindVars s)) as [keys|e|msg];
    [| apply (equal_dml_stop (Err e) s s []); [now right | done | done | constructor | done]
     | apply (equal_dml_stop (Panic msg) s s []);
       [now right | done | done | constructor | done]].
  rewrite bind_lift_Ok in Hrun. unfold first_key in Hrun.
  destruct keys as [|key0 keys];
    [apply (equal_dml_stop (Panic "runtime error: index out of range") s s []);
     [now right | done | done | constructor | done]|].
  rewrite index_head, bind_ret in Hrun.
  apply bind_inv in Hrun
    as [([[ks shard] ksid] & s1 & Hres & Hrun)|[(e & Hres & ->)|(msg & Hres & ->)]];
    apply resolveSingleShard_trace in Hres as (Hbv1 & lookups & Hlog1 & Hall1).
  2: now apply (equal_dml_stop (Err e) s s' lookups); [right| | | |].
  2: now apply (equal_dml_stop (Panic msg) s s' lookups); [right| | | |].
  destruct (decide (ksid = MinKey)) as [Hmin|Hmin];
    [now apply (equal_dml_stop (Ok emptyResult) s s1 lookups); [left| | | |]|].
  exact (equal_dml_send _ _ _ _ _ _ _ _ _ _ Hmin Hbv1 Hlog1 Hrun).
Qed.

Lemma execDeleteEqual_post query plan s out s' :
  execDeleteEqual query plan s = (out, s') ->
  exists evs, log s' = log s ++ evs /\ equal_dml_post (bindVars s) out (bindVars s') evs.
Proof.
  unfold execDeleteEqual. rewrite bind_getBindVars. intros Hrun.
  assert (Hnil : log s = log s ++ []) by now rewrite app_nil_r.
  destruct (resolveKeys [Plan_Values plan] (bindVars s)) as [keys|e|msg];
    [| apply (equal_dml_stop (Err e) s s []); [now right | done | done | constructor | done]
     | apply (equal_dml_stop (Panic msg) s s []);
       [now right | done | done | constructor | done]].
  rewrite bind_lift_Ok in Hrun. unfold first_key in Hrun.
  destruct keys as [|key0 keys];
    [apply (equal_dml_stop (Panic "runtime error: index out of range") s s []);
     [now right | done | done | constructor | done]|].
  rewrite index_head, bind_ret in Hrun.
  apply bind_inv in Hrun
    as [([[ks shard] ksid] & s1 & Hres & Hrun)|[(e & Hres & ->)|(msg & Hres & ->)]];
    apply resolveSingleShard_trace in Hres as (Hbv1 & lookups & Hlog1 & Hall1).
  2: now apply (equal_dml_stop (Err e) s s' lookups); [right| | | |].
  2: now apply (equal_dml_stop (Panic msg) s s' lookups); [right| | | |].
  destruct (decide (ksid = MinKey)) as [Hmin|Hmin];
    [now apply (equal_dml_stop (Ok emptyResult) s s1 lookups); [left| | | |]|].
  destruct (decide (Plan_Subquery plan = "")) as [Hsub|Hsub].
  - rewrite bind_ret in Hrun.
    exact (equal_dml_send _ _ _ _ _ _ _ _ _ _ Hmin Hbv1 Hlog1 Hrun).
  - apply bind_inv in Hrun
      as [(u & s2 & Hdel & Hrun)|[(e & Hdel & ->)|(msg & Hdel & ->)]];
      apply deleteVindexEntries_trace in Hdel
        as (Hbv2 & reply & deletes & Hlog2 & _ & _).
    + refine (equal_dml_send _ _ _ _ _ _ _
                (lookups ++ EvExecute (Plan_Subquery plan) (bindVars s1) ks [shard]
                              (Query_TabletType query) reply :: deletes)
                _ _ Hmin (eq_trans Hbv2 Hbv1) _ Hrun).
      now rewrite Hlog2, Hlog1, <- app_assoc.
    + eexists. split; [rewrite Hlog2, Hlog1, <- app_assoc; reflexivity|]. left.
      split; [now rewrite Hbv2|]. discriminate.
    + eexists. split; [rewrite Hlog2, Hlog1, <- app_assoc; reflexivity|]. left.
      split; [now rewrite Hbv2|]. discriminate.
Qed.

(** X16: an UpdateEqual or DeleteEqual writes one bind variable at most,
    keyspace_id, and only on the way to the shard: either the bind
    variables end as they began, and then a success is the empty result
    after lookups only; or keyspace_id is bound to the text of a keyspace
    id that is not MinKey, the last call made is a dispatch, and its
    reply is the answer of the statement. *)
Theorem equal_dml_writes_only_keyspace_id query w out s' :
  let plan := GetPlan (Query_Sql query) in
  Plan_ID plan = UpdateEqual \/ Plan_ID plan = DeleteEqual ->
  Execute query w = (out, s') ->
  equal_dml_post (default ∅ (Query_BindVariables query)) out (bindVars s') (log s').
Proof.
  intros plan Hid Hrun. unfold Execute, dispatch in Hrun. fold plan in Hrun.
  destruct Hid as [Hid|Hid]; rewrite Hid in Hrun.
  - now apply execUpdateEqual_post in Hrun as (evs & -> & Hpost).
  - now apply execDeleteEqual_post in Hrun as (evs & -> & Hpost).
Qed.

(** X15: an insert changes no bind variable other than keyspace_id and the
    variables "_" + column of the ColVindexes of the table, however it
    ends. *)
Theorem insert_writes_only_column_echoes query w out s' name :
  let plan := GetPlan (Query_Sql query) in
  Plan_ID plan = InsertSharded ->
  Execute query w = (out, s') ->
  name <> ksidName ->
  (forall colVindex,
      colVindex ∈ Table_ColVindexes (Plan_Table plan) -> name <> "_" +:+ Col colVindex) ->
  bindVars s' !! name = default ∅ (Query_BindVariables query) !! name.
Proof.
  intros plan Hid Hrun Hksid Hname. unfold Execute, dispatch in Hrun. fold plan in Hrun.
  rewrite Hid in Hrun. apply execInsertSharded_shape in Hrun as [_ Hframe].
  now apply Hframe.
Qed.


(** X17: the result of a statement other than an insert is never made up by
    the router: when such a statement succeeds, either its result is,
    unchanged, the reply of the last call the router made, a dispatch;
    or it is the empty result and nothing but lookups happened, which is
    how an equal-predicate DML ends at MinKey. *)
Theorem success_is_the_last_reply query w result s' :
  Plan_ID (GetPlan (Query_Sql query)) <> InsertSharded ->
  Execute query w = (Ok result, s') ->
  (exists pre ev, log s' = pre ++ [ev] /\ dispatch_reply ev = Some (inr result))
  \/ (result = emptyResult /\ Forall (fun ev => is_lookup ev = true) (log s')).
Proof.
  intros Hinsert Hrun. unfold Execute, dispatch in Hrun.
  assert (Hdml : forall evs bv,
             equal_dml_post bv (Ok result) (bindVars s') evs ->
             (exists pre ev, evs = pre ++ [ev] /\ dispatch_reply ev = Some (inr result))
             \/ (result = emptyResult /\ Forall (fun ev => is_lookup ev = true) evs)).
  { intros evs bv [[_ Hstop]|(ksid & pre & ev & reply & _ & _ & -> & Hev & Hout)].
    - right. now apply Hstop.
    - left. exists pre, ev. split; [reflexivity|].
      destruct reply as [e|result']; [discriminate|]. now injection Hout as ->. }
  destruct (Plan_ID (GetPlan (Query_Sql query))); try done.
  - left. now apply execUnsharded_post in Hrun as [_ Hlast]; apply Hlast.
  - left. now apply execSelectEqual_post in Hrun as [_ Hlast]; apply Hlast.
  - left. now apply execSelectIN_post in Hrun as [_ Hlast]; apply Hlast.
  - left. now apply execSelectKeyrange_post in Hrun as [_ Hlast]; apply Hlast.
  - left. now apply execSelectScatter_post in Hrun as [_ Hlast]; apply Hlast.
  - left. now apply execUnsharded_post in Hrun as [_ Hlast]; apply Hlast.
  - apply execUpdateEqual_post in Hrun as (evs & Hlog & Hpost).
    simpl in Hlog. rewrite Hlog. now apply Hdml in Hpost.
  - left. now apply execUnsharded_post in Hrun as [_ Hlast]; apply Hlast.
  - apply execDeleteEqual_post in Hrun as (evs & Hlog & Hpost).
    simpl in Hlog. rewrite Hlog. now apply Hdml in Hpost.
  - left. now apply execUnsharded_post in Hrun as [_ Hlast]; apply Hlast.
Qed.

(** *** Which keys resolveShards gives to which shard *)

Lemma keys_of_shard_app shardOf shard pairs1 pairs2 :
  keys_of_shard shardOf shard (pairs1 ++ pairs2)
  = keys_of_shard shardOf shard pairs1 ++ keys_of_shard shardOf shard pairs2.
Proof. unfold keys_of_shard. now rewrite List.filter_app, fmap_app. Qed.

Lemma default_nonempty {A} (l : list A) : default [] (nonempty l) = l.
Proof. now destruct l. Qed.

Lemma keys_of_shard_snoc shardOf shard done k ksid sh :
  ksid <> MinKey ->
  shardOf ksid = inr shard ->
  keys_of_shard shardOf sh (done ++ [(k, ksid)])
  = keys_of_shard shardOf sh done ++ (if decide (shard = sh) then [k] else []).
Proof.
  intros Hmin Hshard. rewrite keys_of_shard_app. f_equal.
  unfold keys_of_shard, routed_to. simpl.
  rewrite decide_False by exact Hmin. rewrite Hshard.
  destruct (decide (shard = sh)) as [->|Hne].
  - now rewrite bool_decide_eq_true_2.
  - now rewrite bool_decide_eq_false_2.
Qed.

Lemma routingMap_Add_routes allShards routing shard k ksid done :
  ksid <> MinKey ->
  getShardForKeyspaceId allShards ksid = inr shard ->
  (forall sh, routing !! sh = nonempty (keys_of_shard (getShardForKeyspaceId allShards) sh done)) ->
  forall sh, routingMap_Add routing shard k !! sh
             = nonempty (keys_of_shard (getShardForKeyspaceId allShards) sh
                           (done ++ [(k, ksid)])).
Proof.
  intros Hmin Hshard Hinv sh. unfold routingMap_Add.
  rewrite (keys_of_shard_snoc _ shard) by done.
  destruct (decide (shard = sh)) as [->|Hne].
  - rewrite lookup_insert_eq, Hinv, default_nonempty.
    now destruct (keys_of_shard (getShardForKeyspaceId allShards) sh done).
  - rewrite lookup_insert_ne by exact Hne. now rewrite app_nil_r.
Qed.

Lemma keys_of_shard_MinKey shardOf shard done k :
  keys_of_shard shardOf shard (done ++ [(k, MinKey)]) = keys_of_shard shardOf shard done.
Proof. rewrite keys_of_shard_app. unfold keys_of_shard at 2. simpl. apply app_nil_r. Qed.

Lemma resolveShards_unique_loop_routes allShards keys ksids i routing done routing' :
  (forall sh, routing !! sh = nonempty (keys_of_shard (getShardForKeyspaceId allShards) sh done)) ->
  resolveShards_unique allShards keys ksids i routing = Ok routing' ->
  forall sh, routing' !! sh
             = nonempty (keys_of_shard (getShardForKeyspaceId allShards) sh
                           (done ++ zip (drop i keys) ksids)).
Proof.
  revert i routing done. induction ksids as [|ksid ksids IH]; intros i routing done Hinv Hrun sh.
  - injection Hrun as <-. destruct (drop i keys); simpl; now rewrite app_nil_r.
  - simpl in Hrun. destruct (decide (ksid = MinKey)) as [->|Hmin].
    + destruct (keys !! i) as [k|] eqn:Hk.
      * rewrite (drop_S _ _ _ Hk). simpl. rewrite (cons_middle _ done), app_assoc.
        apply (IH (S i) routing); [|exact Hrun].
        intros sh'. now rewrite keys_of_shard_MinKey.
      * rewrite drop_ge by now apply lookup_ge_None. simpl.
        specialize (IH (S i) routing done Hinv Hrun sh).
        rewrite drop_ge in IH; [exact IH|]. apply lookup_ge_None in Hk. lia.
    + destruct (getShardForKeyspaceId allShards ksid) as [e|shard] eqn:Hshard; [discriminate|].
      destruct (keys !! i) as [k|] eqn:Hk; [|discriminate].
      rewrite (drop_S _ _ _ Hk). simpl. rewrite (cons_middle _ done), app_assoc.
      apply (IH (S i) (routingMap_Add routing shard k)); [|exact Hrun].
      now apply routingMap_Add_routes.
Qed.

Lemma resolveShards_ksids_loop_routes allShards keys ksids i k routing done routing' :
  keys !! i = Some k ->
  (forall sh, routing !! sh = nonempty (keys_of_shard (getShardForKeyspaceId allShards) sh done)) ->
  resolveShards_ksids allShards keys ksids i routing = Ok routing' ->
  forall sh, routing' !! sh
             = nonempty (keys_of_shard (getShardForKeyspaceId allShards) sh
                           (done ++ ((fun ksid => (k, ksid)) <$> ksids))).
Proof.
  intros Hk. revert routing done.
  induction ksids as [|ksid ksids IH]; intros routing done Hinv Hrun sh.
  - injection Hrun as <-. simpl. now rewrite app_nil_r.
  - simpl in Hrun. rewrite fmap_cons, (cons_middle _ done), app_assoc.
    destruct (decide (ksid = MinKey)) as [->|Hmin].
    + apply (IH routing); [|exact Hrun]. intros sh'. now rewrite keys_of_shard_MinKey.
    + destruct (getShardForKeyspaceId allShards ksid) as [e|shard] eqn:Hshard; [discriminate|].
      rewrite Hk in Hrun.
      apply (IH (routingMap_Add routing shard k)); [|exact Hrun].
      now apply routingMap_Add_routes.
Qed.

Lemma resolveShards_ksids_out_of_range allShards keys ksids i routing routing' :
  keys !! i = None ->
  resolveShards_ksids allShards keys ksids i routing = Ok routing' ->
  routing' = routing.
Proof.
  intros Hk. induction ksids as [|ksid ksids IH]; simpl; [congruence|].
  destruct (decide (ksid = MinKey)); [exact IH|].
  destruct (getShardForKeyspaceId allShards ksid); [discriminate|].
  now rewrite Hk.
Qed.

Lemma resolveShards_nonunique_loop_routes allShards keys ksidss i routing done routing' :
  (forall sh, routing !! sh = nonempty (keys_of_shard (getShardForKeyspaceId allShards) sh done)) ->
  resolveShards_nonunique allShards keys ksidss i routing = Ok routing' ->
  forall sh, routing' !! sh
             = nonempty (keys_of_shard (getShardForKeyspaceId allShards) sh
                           (done ++ nonunique_pairs (drop i keys) ksidss)).
Proof.
  revert i routing done.
  induction ksidss as [|ksids ksidss IH]; intros i routing done Hinv Hrun sh.
  - injection Hrun as <-. unfold nonunique_pairs.
    destruct (drop i keys); simpl; now rewrite app_nil_r.
  - simpl in Hrun.
    destruct (resolveShards_ksids allShards keys ksids i routing) as [routing1| |] eqn:Hone;
      [|discriminate..].
    destruct (keys !! i) as [k|] eqn:Hk.
    + rewrite (drop_S _ _ _ Hk). unfold nonunique_pairs. simpl. rewrite app_assoc.
      apply (IH (S i) routing1); [|exact Hrun].
      now apply (resolveShards_ksids_loop_routes allShards keys ksids i k routing).
    + apply (resolveShards_ksids_out_of_range _ _ _ _ _ _ Hk) in Hone as ->.
      specialize (IH (S i) routing done Hinv Hrun sh).
      rewrite drop_ge by now apply lookup_ge_None.
      rewrite drop_ge in IH; [exact IH|]. apply lookup_ge_None in Hk. lia.
Qed.

(** X5: resolveShards gives every shard the keys that belong to it, and no
    shard an empty list. With a unique vindex, key number i goes with
    keyspace id number i; the routing map then has, for each shard, the
    keys whose keyspace id is not MinKey and lies in that shard, in the
    order of the keys, and has no entry for a shard without such a key. *)
Theorem resolveShards_unique_routes allShards keys ksids routing shard :
  resolveShards_unique allShards keys ksids 0 ∅ = Ok routing ->
  routing !! shard
  = nonempty (keys_of_shard (getShardForKeyspaceId allShards) shard (zip keys ksids)).
Proof.
  intros Hrun.
  now apply (resolveShards_unique_loop_routes allShards keys ksids 0 ∅ [] routing).
Qed.

(** X6: with a non-unique vindex a key goes to the shard of each of its
    keyspace ids that is not MinKey, once per keyspace id: the routing
    map has, for each shard, those keys in the order of the keys and,
    for one key, of its keyspace ids, and no entry for a shard that gets
    none. *)
Theorem resolveShards_nonunique_routes allShards keys ksidss routing shard :
  resolveShards_nonunique allShards keys ksidss 0 ∅ = Ok routing ->
  routing !! shard
  = nonempty (keys_of_shard (getShardForKeyspaceId allShards) shard
                (nonunique_pairs keys ksidss)).
Proof.
  intros Hrun.
  now apply (resolveShards_nonunique_loop_routes allShards keys ksidss 0 ∅ [] routing).
Qed.

Lemma resolveShards_unique_succeeds allShards keys ksids i routing :
  (i + length ksids <= length keys)%nat ->
  Forall (fun ksid => ksid = MinKey
                      \/ exists shard, getShardForKeyspaceId allShards ksid = inr shard) ksids ->
  exists routing', resolveShards_unique allShards keys ksids i routing = Ok routing'.
Proof.
  intros Hlen Hall. revert i routing Hlen.
  induction Hall as [|ksid ksids Hksid _ IH]; intros i routing Hlen; [now eexists|].
  simpl in *. destruct (decide (ksid = MinKey)) as [Hmin|Hmin]; [apply IH; lia|].
  destruct Hksid as [Hksid|[shard ->]]; [done|].
  destruct (keys !! i) as [k|] eqn:Hk; [apply IH; lia|].
  apply lookup_ge_None in Hk. lia.
Qed.

(** X10: a SelectIN over a unique vindex, when every key resolves and every
    keyspace id that is not MinKey lies in a shard, makes three calls:
    the topology lookup, one Map of all the keys, and one ExecuteMulti of
    the rewritten query. The shards addressed are those that own at
    least one key; each gets the bind variables of the query with, under
    the list variable, the keys that are its own, in the order of the
    keys. The reply is the answer and the bind variables of the query are
    not changed. *)
Theorem select_in_sends_each_shard_its_keys query w vals keys Map ks allShards w1 ksids w2
    shardVars reply w3 :
  let plan := GetPlan (Query_Sql query) in
  let bv := default ∅ (Query_BindVariables query) in
  let tabletType := Query_TabletType query in
  Plan_ID plan = SelectIN ->
  Plan_Values plan = VList vals ->
  resolveKeys vals bv = Ok keys ->
  getKeyspaceShards cell (plan_keyspace plan) tabletType w = (inr (ks, allShards), w1) ->
  Vindex_Mapper (ColVindex_Vindex (Plan_ColVindex plan)) = Unique Map ->
  Map keys w1 = (inr ksids, w2) ->
  (length ksids <= length keys)%nat ->
  Forall (fun ksid => ksid = MinKey
                      \/ exists shard, getShardForKeyspaceId allShards ksid = inr shard) ksids ->
  (forall shard,
      shardVars !! shard
      = (fun own => <[ListVarName := VList own]> bv)
          <$> nonempty (keys_of_shard (getShardForKeyspaceId allShards) shard
                          (zip keys ksids))) ->
  scatterConn_ExecuteMulti (Plan_Rewritten plan) ks shardVars tabletType w2 = (reply, w3) ->
  Execute query w =
    (result_of reply,
     {| bindVars := bv; world := w3;
        log := [EvGetKeyspaceShards cell (plan_keyspace plan) tabletType;
                EvMap (Col (Plan_ColVindex plan)) keys (inr ksids);
                EvExecuteMulti (Plan_Rewritten plan) ks shardVars tabletType reply] |}).
Proof.
  intros plan bv tabletType Hid Hvals Hkeys Htopo Hmapper Hmap Hlen Hall Hvars Hreply.
  destruct (resolveShards_unique_succeeds allShards keys ksids 0 ∅ Hlen Hall)
    as [routing Hrouting].
  assert (HshardVars : shardVars = (fun own => <[ListVarName := VList own]> bv) <$> routing).
  { apply map_eq. intros shard. rewrite Hvars, lookup_fmap. f_equal. symmetry.
    now apply (resolveShards_unique_loop_routes allShards keys ksids 0 ∅ [] routing). }
  unfold Execute, dispatch. fold plan bv. rewrite Hid.
  unfold execSelectIN, values_list. rewrite Hvals, bind_ret, bind_getBindVars.
  simpl bindVars. rewrite Hkeys, bind_lift_Ok.
  assert (Hres : resolveShards query keys plan {| bindVars := bv; world := w; log := [] |}
                 = (Ok (ks, routing),
                    {| bindVars := bv; world := w2;
                       log := [EvGetKeyspaceShards cell (plan_keyspace plan) tabletType;
                               EvMap (Col (Plan_ColVindex plan)) keys (inr ksids)] |})).
  { unfold resolveShards, call_getKeyspaceShards.
    erewrite bind_Ok by (apply call_run_Ok; exact Htopo). cbv beta iota.
    rewrite Hmapper.
    erewrite bind_Ok by (apply call_run_Ok; exact Hmap).
    now rewrite Hrouting. }
  unfold bind at 1, discard_err. rewrite Hres. cbv beta iota.
  rewrite <- HshardVars. unfold call_ExecuteMulti.
  now rewrite (call_run _ _ _ reply w3) by exact Hreply.
Qed.

(** *** The routing comment *)

Lemma is_vindex_delete_not_map ev : is_vindex_delete ev = true -> is_map ev = false.
Proof. now destruct ev. Qed.

Lemma is_dispatch_not_map ev : is_dispatch ev = true -> is_map ev = false.
Proof. now destruct ev. Qed.

Lemma value_event_not_map ev : value_event ev -> is_map ev = false.
Proof. now destruct ev. Qed.

Lemma secondary_event_not_map ksid ev : secondary_event ksid ev -> is_map ev = false.
Proof. now destruct ev. Qed.

Lemma primary_event_quiet ev : primary_event ev -> is_dispatch ev = false.
Proof. now destruct ev. Qed.

Lemma secondary_event_quiet ksid ev : secondary_event ksid ev -> is_dispatch ev = false.
Proof. now destruct ev. Qed.

Lemma statement_ksid_resolved plan bv tabletType ksid lookups evs :
  resolved_to plan bv tabletType ksid lookups ->
  Forall (fun ev => is_map ev = false) evs ->
  statement_ksid (Col (Plan_ColVindex plan)) (lookups ++ evs) ksid.
Proof.
  intros (key & _ & ->) Hevs.
  exists [EvGetKeyspaceShards cell (plan_keyspace plan) tabletType], key, [ksid], evs.
  split; [reflexivity|]. split; [reflexivity|]. split; [now repeat constructor | exact Hevs].
Qed.

Lemma delete_protocol_not_map P plan ks shard ksid bv tabletType protocol :
  (if decide (Plan_Subquery plan = "") then protocol = []
   else delete_protocol P plan ks shard ksid bv tabletType protocol) ->
  Forall (fun ev => is_map ev = false) protocol
  /\ forall ev, ev ∈ protocol -> is_dispatch ev = true ->
       exists reply, ev = EvExecute (Plan_Subquery plan) bv ks [shard] tabletType reply.
Proof.
  destruct (decide (Plan_Subquery plan = "")) as [_|_].
  - intros ->. split; [constructor|]. intros ev Hin. now apply elem_of_nil in Hin.
  - intros (result & deletes & -> & Hrows).
    assert (Hdel : Forall (fun ev => is_vindex_delete ev = true) deletes).
    { destruct Hrows as [[_ ->]|[_ Hdel]]; [constructor|].
      exact (vindex_deletes_Forall _ _ _ _ _ Hdel). }
    split.
    + constructor; [reflexivity|].
      eapply Forall_impl; [exact Hdel | exact is_vindex_delete_not_map].
    + intros ev Hin Hdisp. apply elem_of_cons in Hin as [->|Hin]; [now eexists|].
      destruct (Forall_quiet_not_dispatch _ _ _ is_vindex_delete_quiet Hdel Hin Hdisp).
Qed.

(** C6, as amended: in a run of UpdateEqual, DeleteEqual or
    InsertSharded, whatever is sent to the scatter connection is the
    rewritten SQL of the plan followed by the routing comment of the
    keyspace id of the statement, sent to one shard with that keyspace
    id bound to keyspace_id. The keyspace id of the statement is the
    first keyspace id in the answer of the one Map call the statement
    made, the Map of the vindex of its primary column for one key. The
    one other dispatch is the read of the subquery that the deletion
    protocol of a DeleteEqual makes. *)
Theorem dml_dispatch_has_routing_comment query w out s' :
  let plan := GetPlan (Query_Sql query) in
  Plan_ID plan = UpdateEqual \/ Plan_ID plan = DeleteEqual \/ Plan_ID plan = InsertSharded ->
  Execute query w = (out, s') ->
  forall ev,
    ev ∈ log s' ->
    is_dispatch ev = true ->
    (exists ksid bv ks shard tabletType reply col,
        ev = EvExecute (Plan_Rewritten plan +:+ " /* _routing keyspace_id:"
                          +:+ fmt_ksid ksid +:+ " */")
               bv ks [shard] tabletType reply
        /\ bv !! ksidName = Some (VStr ksid)
        /\ primary_column plan = Some col
        /\ statement_ksid col (log s') ksid)
    \/ (Plan_ID plan = DeleteEqual
        /\ exists bv ks shard tabletType reply,
            ev = EvExecute (Plan_Subquery plan) bv ks [shard] tabletType reply).
Proof.
  intros plan Hid Hrun ev Hin Hdisp.
  unfold Execute, dispatch in Hrun. fold plan in Hrun.
  destruct Hid as [Hid|[Hid|Hid]]; rewrite Hid in Hrun.
  - apply execUpdateEqual_trace in Hrun as (lookups & evs & Hlog & Hall & Hevs).
    simpl in Hlog, Hevs. rewrite Hlog in Hin |- *. apply elem_of_app in Hin as [Hin|Hin].
    { destruct (Forall_quiet_not_dispatch _ _ _ is_lookup_quiet Hall Hin Hdisp). }
    destruct Hevs as [->|(ksid & ks & shard & reply & Hresolved & ->)];
      [now apply elem_of_nil in Hin|].
    apply list_elem_of_singleton in Hin as ->. left.
    exists ksid. do 5 eexists. exists (Col (Plan_ColVindex plan)).
    split; [reflexivity|]. split; [apply lookup_insert_eq|].
    split; [unfold primary_column; now rewrite Hid|].
    apply (statement_ksid_resolved _ _ _ _ _ _ Hresolved). now repeat constructor.
  - apply execDeleteEqual_trace in Hrun as (lookups & evs & Hlog & Hall & Hevs).
    simpl in Hlog, Hevs. rewrite Hlog in Hin |- *. apply elem_of_app in Hin as [Hin|Hin].
    { destruct (Forall_quiet_not_dispatch _ _ _ is_lookup_quiet Hall Hin Hdisp). }
    destruct Hevs as [[-> _]|(ksid & Hmin & Hresolved & [Habort|Hsent])].
    + now apply elem_of_nil in Hin.
    + destruct Habort as (_ & _ & ks & shard & reply & deletes & -> & Hcut).
      apply elem_of_cons in Hin as [->|Hin]; [right; split; [exact Hid | eauto 6]|].
      assert (Hdel : Forall (fun ev => is_vindex_delete ev = true) deletes).
      { destruct reply as [e|result]; [destruct Hcut as [_ ->]; constructor|].
        exact (deletes_cut_short_Forall _ _ _ Hcut). }
      destruct (Forall_quiet_not_dispatch _ _ _ is_vindex_delete_quiet Hdel Hin Hdisp).
    + destruct Hsent as (ks & shard & protocol & reply & -> & _ & Hproto).
      apply delete_protocol_not_map in Hproto as [Hnomap Hsub].
      apply elem_of_app in Hin as [Hin|Hin].
      * right. split; [exact Hid|]. destruct (Hsub ev Hin Hdisp) as [reply' ->]. eauto 6.
      * apply list_elem_of_singleton in Hin as ->. left.
        exists ksid. do 5 eexists. exists (Col (Plan_ColVindex plan)).
        split; [reflexivity|]. split; [apply lookup_insert_eq|].
        split; [unfold primary_column; now rewrite Hid|].
        apply (statement_ksid_resolved _ _ _ _ _ _ Hresolved).
        apply Forall_app. split; [exact Hnomap | now repeat constructor].
  - apply execInsertSharded_shape in Hrun
      as [(primary & rest & Hlog & Hprimary & Hrest) _].
    simpl in Hlog. rewrite Hlog in Hin |- *.
    assert (Hnot : ev ∈ primary -> False).
    { intros Hev. exact (Forall_quiet_not_dispatch _ _ _ primary_event_quiet
                           Hprimary Hev Hdisp). }
    apply elem_of_app in Hin as [Hin|Hin]; [destruct (Hnot Hin)|].
    destruct Hrest as [->|(ksid & secondaries & final & Hmin & Hmapped & -> & Hsec & Hfinal)];
      [now apply elem_of_nil in Hin|].
    apply elem_of_cons in Hin as [->|Hin]; [discriminate|].
    apply elem_of_app in Hin as [Hin|Hin].
    { destruct (Forall_quiet_not_dispatch _ _ _ (secondary_event_quiet ksid)
                  Hsec Hin Hdisp). }
    destruct Hfinal as [->|(bv & ks & shard & reply & -> & Hbv)];
      [now apply elem_of_nil in Hin|].
    apply list_elem_of_singleton in Hin as ->. left.
    destruct Hmapped as (colVindex0 & values & key & ksids & Hcol & -> & Hvalues & Hksid).
    exists ksid, bv, ks, shard, (Query_TabletType query), reply, (Col colVindex0).
    split; [reflexivity|]. split; [exact Hbv|].
    split; [unfold primary_column; fold plan; now rewrite Hid, Hcol|].
    exists values, key, ksids. eexists.
    split; [rewrite <- app_assoc; reflexivity|]. split; [exact Hksid|].
    split; [eapply Forall_impl; [exact Hvalues | exact value_event_not_map]|].
    constructor; [reflexivity|]. apply Forall_app. split.
    + eapply Forall_impl; [exact Hsec | exact (secondary_event_not_map ksid)].
    + now repeat constructor.
Qed.

End Coverage.

(** ** The properties on the fixture *)

Section FixtureRuns.

Import Fixture.

(** C1: the code at a failing input. The topology lookup of keyspace
    TestDown fails; both select arms drop the error, call the scatter
    connection with the empty keyspace name and no shard, and return its
    result. *)
Theorem select_dispatches_after_resolution_error :
  run "select * from user_down where id = :id" {["id" := VStr "bob"]} 0%nat
  = (Ok emptyResult,
     {| bindVars := {["id" := VStr "bob"]}; world := 0%nat;
        log := [EvGetKeyspaceShards "aa" "TestDown" "master";
                EvExecute "select * from user_down where id = :id"
                  {["id" := VStr "bob"]} "" [] "master" (inr emptyResult)] |})
  /\ run "select * from user_down where id in ::ids" {["a" := VInt 1; "b" := VInt 2]} 0%nat
     = (Ok emptyResult,
        {| bindVars := {["a" := VInt 1; "b" := VInt 2]}; world := 0%nat;
           log := [EvGetKeyspaceShards "aa" "TestDown" "master";
                   EvExecuteMulti "select * from user_down where id in ::_vals" "" ∅
                     "master" (inr emptyResult)] |}).
Proof. split; vm_compute; reflexivity. Qed.

(** C2 as it was stated fails: an UpdateEqual planned on the non-unique
    vindex name_user_map ends in a panic, not in an error result; and a
    SelectEqual on the same vindex, which goes through resolveShards, is
    routed without any failure. *)
Lemma unexpected_plan_shape_counterexample :
  (run "update user set v = 1 where name = :name" {["name" := VStr "bob"]} 0%nat).1
  = Panic "unexpected"
  /\ (forall e,
         (run "update user set v = 1 where name = :name" {["name" := VStr "bob"]} 0%nat).1
         <> Err e)
  /\ (run "select * from user where name = :name" {["name" := VStr "bob"]} 0%nat).1
     = Ok emptyResult.
Proof.
  split; [vm_compute; reflexivity|]. split; [|vm_compute; reflexivity].
  intros e Herr. vm_compute in Herr. discriminate.
Qed.

Lemma unexpected_plan_shape_panics_witness :
  getKeyspaceShards cell (plan_keyspace delete_ticket_plan) "master" 0%nat
  = (inr ("TestRouter", ["-80"; "80-"]), 0%nat)
  /\ resolveSingleShard delete_ticket (VStr "n") delete_ticket_plan start
     = (Panic "unexpected", after_lookup)
  /\ resolveShards delete_ticket [VStr "n"] delete_ticket_plan start
     = (Panic "unexpected", after_lookup)
  /\ deleteVindexEntries delete_ticket delete_ticket_plan "TestRouter" "-80" "bob" start
     = (Panic "unexpected",
        {| bindVars := ∅; world := 0%nat;
           log := [EvExecute "select name from user where id = :id for update" ∅
                     "TestRouter" ["-80"] "master" (inr names)] |}).
Proof.
  assert (Htopo : getKeyspaceShards cell (plan_keyspace delete_ticket_plan)
                    (Query_TabletType delete_ticket) (world start)
                  = (inr ("TestRouter", ["-80"; "80-"]), 0%nat))
    by (vm_compute; reflexivity).
  destruct (unexpected_plan_shape_panics delete_ticket delete_ticket_plan start
              "TestRouter" ["-80"; "80-"] 0%nat Htopo) as (Hsingle & Hshards & Hwidth).
  split; [exact Htopo|]. split; [|split].
  - apply Hsingle. intros Map. discriminate.
  - apply Hshards. reflexivity.
  - apply (Hwidth "TestRouter" "-80" "bob" names ["alice"] [["bob"]; ["alice"]] 0%nat);
      [vm_compute; reflexivity | reflexivity | vm_compute; lia].
Defined.

Lemma equal_dml_MinKey_is_noop_witness :
  Plan_ID (GetPlan (Query_Sql update_unroutable)) = UpdateEqual
  /\ Execute update_unroutable 0%nat
     = (Ok emptyResult,
        {| bindVars := {["id" := VStr ""]}; world := 0%nat;
           log := [EvGetKeyspaceShards "aa" "TestRouter" "master";
                   EvMap "id" [VStr ""] (inr [""])] |}).
Proof.
  split; [reflexivity|].
  apply (@equal_dml_MinKey_is_noop world_types collaborators update_unroutable 0%nat (VStr "")
           (fun ids => accept (ksid_of <$> ids)) "TestRouter" ["-80"; "80-"] 0%nat 0%nat).
  - left. reflexivity.
  - vm_compute. reflexivity.
  - vm_compute. reflexivity.
  - reflexivity.
  - reflexivity.
Defined.

Lemma insert_MinKey_is_error_witness :
  Plan_ID (GetPlan (Query_Sql insert_unroutable)) = InsertSharded
  /\ Execute insert_unroutable 0%nat
     = (Err "could not map  to a keyspace id",
        {| bindVars := {["uid" := VStr ""]}; world := 0%nat;
           log := [EvMap "user_id" [VStr ""] (inr [""])] |})
  /\ Forall (fun ev => is_dispatch ev = false) [EvMap "user_id" [VStr ""] (inr [""])].
Proof.
  split; [reflexivity|].
  apply (@insert_MinKey_is_error world_types collaborators insert_unroutable 0%nat [VStr ":uid"; VNil]
           (VStr "") [VNil] music_user_id_col [music_id_col] (VStr "") 0
           (@mkState world_types {["uid" := VStr ""]} 0%nat [])
           (fun ids => accept (ksid_of <$> ids)) [] 0%nat).
  - reflexivity.
  - reflexivity.
  - vm_compute. reflexivity.
  - reflexivity.
  - vm_compute. reflexivity.
  - discriminate.
  - reflexivity.
  - reflexivity.
Defined.

(** C5 as it was stated fails: both columns of table ticket generate, the
    first the value zero, the second the value one; the insert does not
    fail, and its insert id is the second value. *)
Lemma insert_two_generators_counterexample :
  (Execute insert_ticket (next_id 0)).1
  = Ok {| Fields := []; RowsAffected := 0; InsertId := 1; Rows := [] |}
  /\ filter (fun ev => is_generate ev = true) (log (Execute insert_ticket (next_id 0)).2)
     = [EvGenerate "id" None (inr 0); EvGenerate "music_id" (Some "i") (inr 1)].
Proof. split; vm_compute; reflexivity. Qed.

Lemma insert_generates_at_most_one_witness :
  Plan_ID (GetPlan (Query_Sql insert_music)) = InsertSharded
  /\ generated_values (log (Execute insert_music (next_id 5)).2) = [5]
  /\ exists pre sql bv ks shards tabletType backend,
      log (Execute insert_music (next_id 5)).2
      = pre ++ [EvExecute sql bv ks shards tabletType (inr backend)]
      /\ InsertId backend = 0
      /\ (Execute insert_music (next_id 5)).1 = Ok (set_InsertId backend (uint64 5)).
Proof.
  split; [reflexivity|]. split; [vm_compute; reflexivity|].
  destruct (@insert_generates_at_most_one world_types collaborators insert_music (next_id 5)
              (Execute insert_music (next_id 5)).1 (Execute insert_music (next_id 5)).2
              eq_refl (surjective_pairing _)) as (_ & Hsent & _).
  destruct (proj1 (Hsent {| Fields := []; RowsAffected := 0; InsertId := 5; Rows := [] |}))
    as (pre & sql & bv & ks & shards & tabletType & backend & Hlog & Hresult);
    [vm_compute; reflexivity|].
  exists pre, sql, bv, ks, shards, tabletType, backend. split; [exact Hlog|].
  destruct Hresult as [[Hnone _]|(g & Hone & Hid & Hres)].
  - vm_compute in Hnone. discriminate.
  - split; [exact Hid|]. vm_compute in Hone. injection Hone as <-.
    rewrite <- Hres. vm_compute. reflexivity.
Defined.

(** C6 as it was stated fails: the update of an unsharded table is a DML
    the router dispatches, and what it sends is the text of the query,
    which no routing comment ends. *)
Lemma unsharded_dml_counterexample :
  Plan_ID (GetPlan "update user_idx set v = 1") = UpdateUnsharded
  /\ run "update user_idx set v = 1" ∅ 0%nat
     = (Ok emptyResult,
        {| bindVars := ∅; world := 0%nat;
           log := [EvGetKeyspaceShards "aa" "TestUnsharded" "master";
                   EvExecute "update user_idx set v = 1" ∅ "TestUnsharded" ["0"]
                     "master" (inr emptyResult)] |})
  /\ forall ksid,
      "update user_idx set v = 1"
      <> Plan_Rewritten (GetPlan "update user_idx set v = 1") +:+ dmlPostfix ksid.
Proof.
  split; [reflexivity|]. split; [vm_compute; reflexivity|].
  intros ksid Heq. vm_compute in Heq. discriminate.
Qed.

Lemma dml_dispatch_has_routing_comment_witness :
  Plan_ID (GetPlan (Query_Sql update_bob)) = UpdateEqual
  /\ log (Execute update_bob (next_id 0)).2
     = [EvGetKeyspaceShards "aa" "TestRouter" "master";
        EvMap "id" [VStr "bob"] (inr ["bob"]);
        EvExecute "update user set v = 1 where id = :id /* _routing keyspace_id:bob */"
          {["id" := VStr "bob"; "keyspace_id" := VStr "bob"]} "TestRouter" ["-80"]
          "master" (inr emptyResult)]
  /\ forall ev,
      ev ∈ log (Execute update_bob (next_id 0)).2 ->
      is_dispatch ev = true ->
      (exists ksid bv ks shard tabletType reply col,
          ev = EvExecute (Plan_Rewritten (GetPlan (Query_Sql update_bob))
                            +:+ " /* _routing keyspace_id:" +:+ fmt_ksid ksid +:+ " */")
                 bv ks [shard] tabletType reply
          /\ bv !! ksidName = Some (VStr ksid)
          /\ primary_column (GetPlan (Query_Sql update_bob)) = Some col
          /\ statement_ksid col (log (Execute update_bob (next_id 0)).2) ksid)
      \/ (Plan_ID (GetPlan (Query_Sql update_bob)) = DeleteEqual
          /\ exists bv ks shard tabletType reply,
              ev = EvExecute (Plan_Subquery (GetPlan (Query_Sql update_bob)))
                     bv ks [shard] tabletType reply).
Proof.
  split; [reflexivity|]. split; [vm_compute; reflexivity|].
  apply (@dml_dispatch_has_routing_comment world_types collaborators update_bob
           (next_id 0) (Execute update_bob (next_id 0)).1).
  - left. reflexivity.
  - apply surjective_pairing.
Defined.


Lemma resolveKeys_arity_and_order_witness :
  (VStr "" ∉ [VStr ":id"; VBytes ["x"%byte]; VInt 3])
  /\ ((exists sentinel name,
          VStr (String sentinel name) ∈ [VStr ":id"; VBytes ["x"%byte]; VInt 3]
          /\ ({["id" := VInt 1]} : gmap string value) !! name = None
          /\ resolveKeys [VStr ":id"; VBytes ["x"%byte]; VInt 3] {["id" := VInt 1]}
             = Err ("could not find bind var " +:+ String sentinel name))
      \/ (exists keys,
             resolveKeys [VStr ":id"; VBytes ["x"%byte]; VInt 3] {["id" := VInt 1]} = Ok keys
             /\ length keys = length [VStr ":id"; VBytes ["x"%byte]; VInt 3]
             /\ Forall2 (item_resolves {["id" := VInt 1]})
                  [VStr ":id"; VBytes ["x"%byte]; VInt 3] keys)).
Proof.
  assert (Hne : VStr "" ∉ [VStr ":id"; VBytes ["x"%byte]; VInt 3]).
  { intros Hin. repeat (apply elem_of_cons in Hin as [Hin|Hin]; [discriminate|]).
    now apply elem_of_nil in Hin. }
  split; [exact Hne|].
  exact (resolveKeys_arity_and_order [VStr ":id"; VBytes ["x"%byte]; VInt 3]
           {["id" := VInt 1]} Hne).
Defined.

Lemma keyrange_must_match_one_shard_witness :
  Plan_ID (GetPlan (Query_Sql keyrange_one)) = SelectKeyrange
  /\ Execute keyrange_one (next_id 0)
     = (Ok emptyResult,
        {| bindVars := {["a" := VStr "a"; "b" := VStr "m"]}; world := next_id 0;
           log := [EvMapExactShards "aa" "TestRouter" "master" {| Start := "a"; End := "m" |};
                   EvExecute "select * from user" {["a" := VStr "a"; "b" := VStr "m"]}
                     "TestRouter" ["-80"] "master" (inr emptyResult)] |})
  /\ Execute keyrange_all (next_id 0)
     = (Err "keyrange must match exactly one shard: ?",
        {| bindVars := {["a" := VStr "a"; "b" := VStr ""]}; world := next_id 0;
           log := [EvMapExactShards "aa" "TestRouter" "master"
                     {| Start := "a"; End := "" |}] |}).
Proof.
  split; [reflexivity|]. split.
  - destruct (@keyrange_must_match_one_shard world_types collaborators keyrange_one
                (next_id 0) [VStr ":a"; VStr ":b"] "a" "m" "TestRouter" ["-80"] (next_id 0))
      as [Hone _]; [reflexivity | reflexivity | vm_compute; reflexivity | reflexivity|].
    apply (Hone "-80" (inr emptyResult) (next_id 0)); reflexivity.
  - destruct (@keyrange_must_match_one_shard world_types collaborators keyrange_all
                (next_id 0) [VStr ":a"; VStr ":b"] "a" "" "TestRouter" ["-80"; "80-"]
                (next_id 0))
      as [_ Hmany]; [reflexivity | reflexivity | vm_compute; reflexivity | reflexivity|].
    apply Hmany. simpl. lia.
Defined.

End FixtureRuns.

(** ** The properties of the other paths, at the fixture *)

Section CoverageRuns.

Import Fixture.

Lemma resolveKeys_frame_witness :
  (forall first name,
      VStr (String first name) ∈ [VStr ":id"; VInt 3] ->
      ({["id" := VInt 1]} : gmap string value) !! name
      = ({["id" := VInt 1; "other" := VInt 2]} : gmap string value) !! name)
  /\ resolveKeys [VStr ":id"; VInt 3] {["id" := VInt 1]}
     = resolveKeys [VStr ":id"; VInt 3] {["id" := VInt 1; "other" := VInt 2]}.
Proof.
  assert (Hagree : forall first name,
             VStr (String first name) ∈ [VStr ":id"; VInt 3] ->
             ({["id" := VInt 1]} : gmap string value) !! name
             = ({["id" := VInt 1; "other" := VInt 2]} : gmap string value) !! name).
  { intros first name Hin. apply elem_of_cons in Hin as [[= -> ->]|Hin]; [reflexivity|].
    apply elem_of_cons in Hin as [[=]|Hin]. now apply elem_of_nil in Hin. }
  split; [exact Hagree|].
  exact (resolveKeys_frame [VStr ":id"; VInt 3] _ _ Hagree).
Defined.

Lemma resolveShards_no_panic_witness :
  Vindex_Mapper (ColVindex_Vindex (Plan_ColVindex (GetPlan (Query_Sql Reads.select_by_name))))
  <> NoMapper
  /\ forall msg,
      (resolveShards Reads.select_by_name [VStr "bob"]
         (GetPlan (Query_Sql Reads.select_by_name)) start).1 <> Panic msg.
Proof.
  split; [discriminate|].
  apply (@resolveShards_no_panic world_types collaborators Reads.select_by_name [VStr "bob"]
           (GetPlan (Query_Sql Reads.select_by_name)) start _
           (resolveShards Reads.select_by_name [VStr "bob"]
              (GetPlan (Query_Sql Reads.select_by_name)) start).2).
  - discriminate.
  - intros Map w ksids w' Hmapper. discriminate.
  - intros Map w ksidss w' Hmapper Hmap. injection Hmapper as <-.
    injection Hmap as <- _. simpl. lia.
  - apply surjective_pairing.
Defined.

Lemma unsharded_sends_query_as_is_witness :
  Plan_ID (Reads.plan Reads.select_idx) = SelectUnsharded
  /\ Reads.run Reads.select_idx (next_id 0)
     = (Ok emptyResult,
        {| bindVars := ∅; world := next_id 0;
           log := [EvGetKeyspaceShards "aa" "TestUnsharded" "master";
                   EvExecute "select * from user_idx" ∅ "TestUnsharded" ["0"] "master"
                     (inr emptyResult)] |}).
Proof.
  split; [reflexivity|].
  pose proof (@unsharded_sends_query_as_is world_types Reads.collaborators Reads.select_idx
                (next_id 0) (inr ("TestUnsharded", ["0"])) (next_id 0)
                (or_introl eq_refl) eq_refl) as Hone.
  apply (Hone (inr emptyResult) (next_id 0)). reflexivity.
Defined.

Lemma scatter_sends_to_all_shards_witness :
  Plan_ID (Reads.plan Reads.select_all) = SelectScatter
  /\ Reads.run Reads.select_all (next_id 0)
     = (Ok emptyResult,
        {| bindVars := ∅; world := next_id 0;
           log := [EvGetKeyspaceShards "aa" "TestRouter" "master";
                   EvExecute "select * from user" ∅ "TestRouter" ["-80"; "80-"] "master"
                     (inr emptyResult)] |}).
Proof.
  split; [reflexivity|].
  pose proof (@scatter_sends_to_all_shards world_types Reads.collaborators Reads.select_all
                (next_id 0) (inr ("TestRouter", ["-80"; "80-"])) (next_id 0)
                eq_refl eq_refl) as Hall.
  apply (Hall (inr emptyResult) (next_id 0)). reflexivity.
Defined.

Lemma select_equal_MinKey_sends_to_no_shard_witness :
  Plan_ID (GetPlan (Query_Sql Reads.select_unroutable)) = SelectEqual
  /\ Execute Reads.select_unroutable (next_id 0)
     = (Ok emptyResult,
        {| bindVars := {["id" := VStr ""]}; world := next_id 0;
           log := [EvGetKeyspaceShards "aa" "TestRouter" "master";
                   EvMap "id" [VStr ""] (inr [""]);
                   EvExecute "select * from user where id = :id" {["id" := VStr ""]}
                     "TestRouter" [] "master" (inr emptyResult)] |}).
Proof.
  split; [reflexivity|].
  apply (@select_equal_MinKey_sends_to_no_shard world_types collaborators
           Reads.select_unroutable (next_id 0) (VStr "")
           (fun ids => accept (ksid_of <$> ids)) "TestRouter" ["-80"; "80-"] (next_id 0)
           [""] (next_id 0) (inr emptyResult) (next_id 0)).
  - reflexivity.
  - vm_compute. reflexivity.
  - vm_compute. reflexivity.
  - reflexivity.
  - reflexivity.
  - repeat constructor.
  - reflexivity.
Defined.

Lemma reads_keep_bind_variables_witness :
  Plan_ID (GetPlan (Query_Sql Reads.select_bob)) <> UpdateEqual
  /\ Plan_ID (GetPlan (Query_Sql Reads.select_bob)) <> DeleteEqual
  /\ Plan_ID (GetPlan (Query_Sql Reads.select_bob)) <> InsertSharded
  /\ bindVars (Execute Reads.select_bob (next_id 0)).2 = {["id" := VStr "bob"]}.
Proof.
  split; [discriminate|]. split; [discriminate|]. split; [discriminate|].
  apply (@reads_keep_bind_variables world_types collaborators Reads.select_bob (next_id 0)
           (Execute Reads.select_bob (next_id 0)).1).
  - discriminate.
  - discriminate.
  - discriminate.
  - apply surjective_pairing.
Defined.

Lemma handleNonPrimary_echoes_witness :
  handleNonPrimary VNil music_id_col "bob" (@mkState world_types ∅ (next_id 5) [])
  = (Ok 5,
     {| bindVars := {["_id" := VInt 5]}; world := next_id 6;
        log := [EvGenerate "id" (Some "bob") (inr 5)] |})
  /\ (exists evs,
         [EvGenerate "id" (Some "bob") (inr 5)] = [] ++ evs
         /\ Forall (secondary_event "bob") evs)
  /\ exists v,
      v <> VNil
      /\ ({["_id" := VInt 5]} : gmap string value) = <["_id" := v]> ∅
      /\ (VNil <> VNil -> v = VNil /\ 5 = 0)
      /\ (5 <> 0 -> VNil = VNil /\ ColVindex_Owned music_id_col = true /\ v = VInt 5).
Proof.
  assert (Hrun : handleNonPrimary VNil music_id_col "bob"
                   (@mkState world_types ∅ (next_id 5) [])
                 = (Ok 5,
                    {| bindVars := {["_id" := VInt 5]}; world := next_id 6;
                       log := [EvGenerate "id" (Some "bob") (inr 5)] |}))
    by (vm_compute; reflexivity).
  split; [exact Hrun|].
  exact (@handleNonPrimary_echoes world_types collaborators _ _ _ _ _ _ Hrun).
Defined.

Lemma handlePrimary_routes_witness :
  handlePrimary VNil ticket_id_col (@mkState world_types ∅ (next_id 5) [])
  = (Ok ("i", 5),
     {| bindVars := {["_id" := VInt 5]}; world := next_id 6;
        log := [EvGenerate "id" None (inr 5); EvMap "id" [VInt 5] (inr ["i"])] |})
  /\ (exists evs,
         [EvGenerate "id" None (inr 5); EvMap "id" [VInt 5] (inr ["i"])] = [] ++ evs
         /\ Forall primary_event evs)
  /\ "i" <> MinKey
  /\ exists v,
      v <> VNil
      /\ ({["_id" := VInt 5]} : gmap string value) = <["_id" := v]> ∅
      /\ (VNil <> VNil -> v = VNil /\ 5 = 0)
      /\ (VNil = VNil -> ColVindex_Owned ticket_id_col = true /\ v = VInt 5).
Proof.
  assert (Hrun : handlePrimary VNil ticket_id_col (@mkState world_types ∅ (next_id 5) [])
                 = (Ok ("i", 5),
                    {| bindVars := {["_id" := VInt 5]}; world := next_id 6;
                       log := [EvGenerate "id" None (inr 5); EvMap "id" [VInt 5] (inr ["i"])] |}))
    by (vm_compute; reflexivity).
  split; [exact Hrun|].
  exact (@handlePrimary_routes world_types collaborators _ _ _ _ _ Hrun).
Defined.

Lemma equal_dml_writes_only_keyspace_id_witness :
  Plan_ID (GetPlan (Query_Sql delete_bob)) = DeleteEqual
  /\ bindVars (Execute delete_bob (next_id 0)).2
     = {["id" := VStr "bob"; "keyspace_id" := VStr "bob"]}
  /\ equal_dml_post {["id" := VStr "bob"]} (Execute delete_bob (next_id 0)).1
       (bindVars (Execute delete_bob (next_id 0)).2) (log (Execute delete_bob (next_id 0)).2).
Proof.
  split; [reflexivity|]. split; [vm_compute; reflexivity|].
  apply (@equal_dml_writes_only_keyspace_id world_types collaborators delete_bob (next_id 0)).
  - right. reflexivity.
  - apply surjective_pairing.
Defined.

Lemma insert_writes_only_column_echoes_witness :
  Plan_ID (GetPlan (Query_Sql insert_music)) = InsertSharded
  /\ "uid" <> ksidName
  /\ bindVars (Execute insert_music (next_id 5)).2 !! "uid"
     = ({["uid" := VStr "bob"]} : gmap string value) !! "uid".
Proof.
  split; [reflexivity|]. split; [discriminate|].
  apply (@insert_writes_only_column_echoes world_types collaborators insert_music (next_id 5)
           (Execute insert_music (next_id 5)).1).
  - reflexivity.
  - apply surjective_pairing.
  - discriminate.
  - intros colVindex _. simpl. discriminate.
Defined.


Lemma success_is_the_last_reply_witness :
  Plan_ID (GetPlan (Query_Sql Reads.select_by_name)) <> InsertSharded
  /\ (Execute Reads.select_by_name (next_id 0)).1 = Ok emptyResult
  /\ ((exists pre ev,
          log (Execute Reads.select_by_name (next_id 0)).2 = pre ++ [ev]
          /\ dispatch_reply ev = Some (inr emptyResult))
      \/ (emptyResult = emptyResult
          /\ Forall (fun ev => is_lookup ev = true)
               (log (Execute Reads.select_by_name (next_id 0)).2))).
Proof.
  split; [discriminate|]. split; [vm_compute; reflexivity|].
  apply (@success_is_the_last_reply world_types collaborators Reads.select_by_name
           (next_id 0)).
  - discriminate.
  - vm_compute. reflexivity.
Defined.

Lemma resolveShards_unique_routes_witness :
  resolveShards_unique ["-80"; "80-"] [VStr "bob"; VStr "zed"; VStr ""; VStr "bill"]
    ["bob"; "zed"; ""; "bill"] 0 ∅
  = Ok {["-80" := [VStr "bob"; VStr "bill"]; "80-" := [VStr "zed"]]}
  /\ forall shard,
      ({["-80" := [VStr "bob"; VStr "bill"]; "80-" := [VStr "zed"]]} : routingMap) !! shard
      = nonempty (keys_of_shard (getShardForKeyspaceId ["-80"; "80-"]) shard
                    (zip [VStr "bob"; VStr "zed"; VStr ""; VStr "bill"]
                       ["bob"; "zed"; ""; "bill"])).
Proof.
  assert (Hrun : resolveShards_unique ["-80"; "80-"]
                   [VStr "bob"; VStr "zed"; VStr ""; VStr "bill"]
                   ["bob"; "zed"; ""; "bill"] 0 ∅
                 = Ok {["-80" := [VStr "bob"; VStr "bill"]; "80-" := [VStr "zed"]]})
    by (vm_compute; reflexivity).
  split; [exact Hrun|]. intros shard.
  exact (@resolveShards_unique_routes world_types collaborators _ _ _ _ shard Hrun).
Defined.

Lemma resolveShards_nonunique_routes_witness :
  resolveShards_nonunique ["-80"; "80-"] [VStr "bob"; VStr "zed"]
    [["bob"; "zz"]; ["zed"; ""]] 0 ∅
  = Ok {["-80" := [VStr "bob"]; "80-" := [VStr "bob"; VStr "zed"]]}
  /\ forall shard,
      ({["-80" := [VStr "bob"]; "80-" := [VStr "bob"; VStr "zed"]]} : routingMap) !! shard
      = nonempty (keys_of_shard (getShardForKeyspaceId ["-80"; "80-"]) shard
                    (nonunique_pairs [VStr "bob"; VStr "zed"] [["bob"; "zz"]; ["zed"; ""]])).
Proof.
  assert (Hrun : resolveShards_nonunique ["-80"; "80-"] [VStr "bob"; VStr "zed"]
                   [["bob"; "zz"]; ["zed"; ""]] 0 ∅
                 = Ok {["-80" := [VStr "bob"]; "80-" := [VStr "bob"; VStr "zed"]]})
    by (vm_compute; reflexivity).
  split; [exact Hrun|]. intros shard.
  exact (@resolveShards_nonunique_routes world_types collaborators _ _ _ _ shard Hrun).
Defined.

Lemma select_in_sends_each_shard_its_keys_witness :
  Plan_ID (Reads.plan Reads.select_in) = SelectIN
  /\ Reads.run Reads.select_in (next_id 0)
     = (Ok emptyResult,
        {| bindVars := {["a" := VStr "bob"; "b" := VStr "zed"; "c" := VStr "";
                         "d" := VStr "bill"]};
           world := next_id 0;
           log := [EvGetKeyspaceShards "aa" "TestRouter" "master";
                   EvMap "id" [VStr "bob"; VStr "zed"; VStr ""; VStr "bill"]
                     (inr ["bob"; "zed"; ""; "bill"]);
                   EvExecuteMulti "select * from user where id in ::_vals" "TestRouter"
                     {["-80" := {["a" := VStr "bob"; "b" := VStr "zed"; "c" := VStr "";
                                  "d" := VStr "bill";
                                  "_vals" := VList [VStr "bob"; VStr "bill"]]};
                       "80-" := {["a" := VStr "bob"; "b" := VStr "zed"; "c" := VStr "";
                                  "d" := VStr "bill";
                                  "_vals" := VList [VStr "zed"]]}]}
                     "master" (inr emptyResult)] |}).
Proof.
  split; [reflexivity|].
  assert (Hrouting : resolveShards_unique ["-80"; "80-"]
                       [VStr "bob"; VStr "zed"; VStr ""; VStr "bill"]
                       ["bob"; "zed"; ""; "bill"] 0 ∅
                     = Ok {["-80" := [VStr "bob"; VStr "bill"]; "80-" := [VStr "zed"]]})
    by (vm_compute; reflexivity).
  apply (@select_in_sends_each_shard_its_keys world_types Reads.collaborators
           Reads.select_in (next_id 0) [VStr ":a"; VStr ":b"; VStr ":c"; VStr ":d"]
           [VStr "bob"; VStr "zed"; VStr ""; VStr "bill"]
           (fun ids => accept (ksid_of <$> ids)) "TestRouter" ["-80"; "80-"] (next_id 0)
           ["bob"; "zed"; ""; "bill"] (next_id 0)
           {["-80" := {["a" := VStr "bob"; "b" := VStr "zed"; "c" := VStr "";
                        "d" := VStr "bill"; "_vals" := VList [VStr "bob"; VStr "bill"]]};
             "80-" := {["a" := VStr "bob"; "b" := VStr "zed"; "c" := VStr "";
                        "d" := VStr "bill"; "_vals" := VList [VStr "zed"]]}]}
           (inr emptyResult) (next_id 0)).
  - reflexivity.
  - reflexivity.
  - vm_compute. reflexivity.
  - reflexivity.
  - reflexivity.
  - reflexivity.
  - simpl. lia.
  - repeat (apply List.Forall_cons; [first [now left | right; now eexists]|]).
    apply List.Forall_nil.
  - intros shard.
    pose proof (@resolveShards_unique_loop_routes world_types Reads.collaborators
                  ["-80"; "80-"] [VStr "bob"; VStr "zed"; VStr ""; VStr "bill"]
                  ["bob"; "zed"; ""; "bill"] 0 ∅ [] _ (fun sh => lookup_empty sh) Hrouting
                  shard) as Hroute.
    etrans; [|exact (f_equal (fmap _) Hroute)].
    rewrite <- lookup_fmap. reflexivity.
  - reflexivity.
Defined.

End CoverageRuns.
